(** * verifier-analysis: the two history reporters, embedded and verified

    [commits.py] and [patchsets.py] walk the history of a git repository
    and print one JSON report about [kernel/bpf/verifier.c].  Both scripts
    see the repository only through [subprocess.run]: every fact about the
    history reaches them as the text a [git] command printed.

    The development has three layers.
    - [Py] and [Argparse]: the Python built-ins the scripts rely on
      ([str.strip], [str.split], [in], truthiness, [json.dumps],
      text-mode newline translation, the argument parser) and a small
      monad for [print], [sys.exit] and exceptions.
    - [Commits] and [Patchsets]: the two scripts, function by function,
      over an arbitrary environment (the answer of the shell to each
      command line, and whether [.git] exists).
    - [Git]: a commit graph and the meaning of the range queries the
      scripts issue, used to relate the text the scripts read to the
      history it describes. *)

From Stdlib Require Import String Ascii List ZArith Bool Lia DecimalString.
Import ListNotations.

Set Warnings "-register-all".

Local Open Scope list_scope.
Local Open Scope string_scope.

(* ================================================================== *)
(** * Python built-ins *)
(* ================================================================== *)

Module Py.

(** Text is a [string]; a character stands for the code point of the same
    number (code points below 256). *)

Definition LF : ascii := Ascii.ascii_of_nat 10.
Definition CR : ascii := Ascii.ascii_of_nat 13.

(** [str.isspace] on one character: TAB, LF, VT, FF, CR, the four
    separators 0x1c..0x1f, SPACE, NEL (0x85) and NBSP (0xa0). *)
Definition isspace (a : ascii) : bool :=
  let n := Ascii.nat_of_ascii a in
  (Nat.leb 9 n && Nat.leb n 13) || (Nat.leb 28 n && Nat.leb n 32)
  || Nat.eqb n 133 || Nat.eqb n 160.

(** [s.lstrip()] *)
Fixpoint lstrip (s : string) : string :=
  match s with
  | EmptyString => EmptyString
  | String a s' => if isspace a then lstrip s' else s
  end.

(** [s.rstrip()] *)
Fixpoint rstrip (s : string) : string :=
  match s with
  | EmptyString => EmptyString
  | String a s' =>
      match rstrip s' with
      | EmptyString => if isspace a then EmptyString else String a EmptyString
      | r => String a r
      end
  end.

(** [s.strip()] *)
Definition strip (s : string) : string := rstrip (lstrip s).

(** [bool(s)] for a string: the empty string is the only falsy one. *)
Definition truthy (s : string) : bool :=
  match s with EmptyString => false | String _ _ => true end.

(** [s.split(sep)] for a one-character separator.  The result is never
    empty: [split sep] of the empty string is the one-element list of the empty string. *)
Fixpoint split (sep : ascii) (s : string) : list string :=
  match s with
  | EmptyString => [EmptyString]
  | String a s' =>
      if Ascii.eqb a sep then EmptyString :: split sep s'
      else match split sep s' with
           | [] => [String a EmptyString]
           | x :: xs => String a x :: xs
           end
  end.

(** [sub in s] *)
Fixpoint str_in (sub s : string) : bool :=
  String.prefix sub s
  || match s with
     | EmptyString => false
     | String _ s' => str_in sub s'
     end.

(** [sep.join(l)] *)
Fixpoint join (sep : string) (l : list string) : string :=
  match l with
  | [] => EmptyString
  | [x] => x
  | x :: l' => x ++ sep ++ join sep l'
  end.

(** Text-mode decoding of a pipe ([universal_newlines=True]): CR LF and a
    lone CR both read as LF.  [after_cr] remembers that the previous
    character was a CR, so that the LF of a CR LF pair is dropped. *)
Fixpoint translate_newlines (after_cr : bool) (s : string) : string :=
  match s with
  | EmptyString => EmptyString
  | String a s' =>
      if Ascii.eqb a CR then String LF (translate_newlines true s')
      else if Ascii.eqb a LF && after_cr then translate_newlines false s'
      else String a (translate_newlines false s')
  end.

Definition universal_newlines (s : string) : string :=
  translate_newlines false s.

(** ** JSON values and [json.dumps(_, indent=2)] *)

(** The values the scripts build: strings, integers, lists, and dicts with
    string keys.  A dict keeps its keys in insertion order. *)
Inductive json : Type :=
| JStr (s : string)
| JInt (n : Z)
| JList (l : list json)
| JDict (kv : list (string * json)).

Definition hex_digit (n : nat) : ascii :=
  Ascii.ascii_of_nat (if Nat.ltb n 10 then 48 + n else 87 + n)%nat.

Definition backslash : ascii := Ascii.ascii_of_nat 92.

Definition quote : string := String (Ascii.ascii_of_nat 34) EmptyString.

(** One character of a JSON string under [ensure_ascii=True]. *)
Definition escape_char (a : ascii) : string :=
  let n := Ascii.nat_of_ascii a in
  if Nat.eqb n 34 then String backslash quote
  else if Nat.eqb n 92 then String backslash (String backslash EmptyString)
  else if Nat.eqb n 10 then String backslash "n"
  else if Nat.eqb n 13 then String backslash "r"
  else if Nat.eqb n 9 then String backslash "t"
  else if Nat.eqb n 8 then String backslash "b"
  else if Nat.eqb n 12 then String backslash "f"
  else if Nat.leb 32 n && Nat.leb n 126 then String a EmptyString
  else String backslash "u00"
       ++ String (hex_digit (n / 16)) (String (hex_digit (n mod 16)) EmptyString).

Fixpoint escape (s : string) : string :=
  match s with
  | EmptyString => EmptyString
  | String a s' => escape_char a ++ escape s'
  end.

Definition encode_str (s : string) : string := quote ++ escape s ++ quote.

Fixpoint spaces (n : nat) : string :=
  match n with O => EmptyString | S n' => " " ++ spaces n' end.

Definition newline_indent (level : nat) : string :=
  String LF (spaces (2 * level)).

Fixpoint dumps_at (level : nat) (j : json) : string :=
  match j with
  | JStr s => encode_str s
  | JInt n => NilZero.string_of_int (Z.to_int n)
  | JList [] => "[]"
  | JList l =>
      "[" ++ newline_indent (S level)
      ++ join ("," ++ newline_indent (S level)) (map (dumps_at (S level)) l)
      ++ newline_indent level ++ "]"
  | JDict [] => "{}"
  | JDict kv =>
      "{" ++ newline_indent (S level)
      ++ join ("," ++ newline_indent (S level))
           (map (fun p => match p with
                          | (k, v) => encode_str k ++ ": " ++ dumps_at (S level) v
                          end) kv)
      ++ newline_indent level ++ "}"
  end.

(** [json.dumps(j, indent=2)] *)
Definition json_dumps (j : json) : string := dumps_at 0 j.

(** ** Effects: the two output streams, [sys.exit] and exceptions *)

(** What [print] has written so far; one element per [print] call, the
    text without the newline [print] adds. *)
Record streams : Type := mkStreams {
  sys_stdout : list string;
  sys_stderr : list string
}.

Definition fresh : streams := mkStreams [] [].

Inductive exn : Type :=
| CalledProcessError (returncode : Z) (cmd : string) (stderr : string)
| KeyError (key : string)
| TypeError.

(** How a computation ends: with a value, by [sys.exit(code)], or with an
    exception still propagating. *)
Inductive outcome (A : Type) : Type :=
| Ok (a : A)
| SystemExit (code : Z)
| Raised (e : exn).

Arguments Ok {A} a.
Arguments SystemExit {A} code.
Arguments Raised {A} e.

Definition M (A : Type) : Type := streams -> outcome A * streams.

Definition ret {A} (a : A) : M A := fun st => (Ok a, st).

Definition bind {A B} (m : M A) (k : A -> M B) : M B :=
  fun st =>
    match m st with
    | (Ok a, st') => k a st'
    | (SystemExit c, st') => (SystemExit c, st')
    | (Raised e, st') => (Raised e, st')
    end.

Definition raise {A} (e : exn) : M A := fun st => (Raised e, st).

Definition sys_exit {A} (code : Z) : M A := fun st => (SystemExit code, st).

(** [print(s)] *)
Definition print (s : string) : M unit :=
  fun st => (Ok tt, mkStreams (sys_stdout st ++ [s])%list (sys_stderr st)).

(** [print(s, file=sys.stderr)] *)
Definition eprint (s : string) : M unit :=
  fun st => (Ok tt, mkStreams (sys_stdout st) (sys_stderr st ++ [s])%list).

(** [try: body  except CalledProcessError as e: handler(e)].  [SystemExit]
    and the other exceptions pass through. *)
Definition try_except_cpe {A} (body : M A)
    (handler : Z -> string -> string -> M A) : M A :=
  fun st =>
    match body st with
    | (Raised (CalledProcessError rc cmd err), st') => handler rc cmd err st'
    | r => r
    end.

(** A [for] loop that threads the variables it updates. *)
Fixpoint for_each {A S} (l : list A) (body : A -> S -> M S) (s : S) : M S :=
  match l with
  | [] => ret s
  | x :: l' => bind (body x s) (for_each l' body)
  end.

(** The status the process ends with. *)
Definition exit_status {A} (o : outcome A) : Z :=
  match o with
  | Ok _ => 0
  | SystemExit c => c
  | Raised _ => 1
  end.

(** ** Dict and list operations on [json] *)

Fixpoint assoc (k : string) (kv : list (string * json)) : option json :=
  match kv with
  | [] => None
  | (k', v) :: kv' => if String.eqb k k' then Some v else assoc k kv'
  end.

(** [d[k] = v] on the item list: an existing key keeps its place, a new
    key goes last. *)
Fixpoint assoc_set (k : string) (v : json) (kv : list (string * json))
  : list (string * json) :=
  match kv with
  | [] => [(k, v)]
  | (k', v') :: kv' =>
      if String.eqb k k' then (k, v) :: kv' else (k', v') :: assoc_set k v kv'
  end.

(** [d[k]] *)
Definition getitem (d : json) (k : string) : M json :=
  match d with
  | JDict kv =>
      match assoc k kv with
      | Some v => ret v
      | None => raise (KeyError k)
      end
  | _ => raise TypeError
  end.

(** [d[k] = v] *)
Definition setitem (d : json) (k : string) (v : json) : M json :=
  match d with
  | JDict kv => ret (JDict (assoc_set k v kv))
  | _ => raise TypeError
  end.

(** [l.append(x)] *)
Definition append (l : json) (x : json) : M json :=
  match l with
  | JList xs => ret (JList (xs ++ [x])%list)
  | _ => raise TypeError
  end.

(** [len(l)] *)
Definition len (l : json) : M Z :=
  match l with
  | JList xs => ret (Z.of_nat (length xs))
  | JDict kv => ret (Z.of_nat (length kv))
  | JStr s => ret (Z.of_nat (String.length s))
  | JInt _ => raise TypeError
  end.

End Py.

Export Py.

Declare Scope py_scope.
Delimit Scope py_scope with py.
Notation "x <- m ;; k" := (bind m (fun x => k))
  (at level 61, m at next level, right associativity) : py_scope.
Notation "m ;; k" := (bind m (fun _ => k))
  (at level 61, right associativity) : py_scope.
Local Open Scope py_scope.

(** ** The environment of a run *)

(** What [subprocess.run] gets back from a finished command. *)
Record completed : Type := mkCompleted {
  returncode : Z;
  stdout : string;
  stderr : string
}.

(** The part of the world a run depends on: which paths exist in the
    working directory, and what the shell does with each command line.
    The scripts only read the repository, so one run sees one [world]. *)
Record world : Type := mkWorld {
  os_path_exists : string -> bool;
  shell : string -> completed
}.

(** [subprocess.run(cmd, shell=True, check=True, stdout=PIPE, stderr=PIPE,
    universal_newlines=True)]: the decoded streams on status 0,
    [CalledProcessError] otherwise. *)
Definition subprocess_run (w : world) (cmd : string) : M completed :=
  let p := shell w cmd in
  let out := universal_newlines (stdout p) in
  let err := universal_newlines (stderr p) in
  if Z.eqb (returncode p) 0
  then ret (mkCompleted 0 out err)
  else raise (CalledProcessError (returncode p) cmd err).

(* ================================================================== *)
(** * The command line *)
(* ================================================================== *)

(** Both scripts build the same parser: two positional arguments,
    [start_ref] and [end_ref], and the [-h]/[--help] option that
    [argparse] adds.  This is what [parser.parse_args()] does with
    [sys.argv[1:]] when every argument either does not start with a dash
    or is [-h] or [--help]; other argument lists are left out.  A message
    of the parser is one element of the stream it is written to, without
    its final newline. *)
Module Argparse.

(** What the messages of the parser depend on: the name of the program,
    and the text of the help message below its usage line (it varies with
    the description of each script, the version of Python and the width
    of the terminal). *)
Record console : Type := mkConsole {
  prog : string;
  help_rest : string
}.

(** [args] *)
Record namespace : Type := mkNamespace {
  start_ref : string;
  end_ref : string
}.

Definition usage (c : console) : string :=
  "usage: " ++ prog c ++ " [-h] start_ref end_ref".

Definition format_help (c : console) : string :=
  usage c ++ String LF (help_rest c).

Definition dashed (a : string) : bool := String.prefix "-" a.

Definition is_help (a : string) : bool :=
  String.eqb a "-h" || String.eqb a "--help".

(** [parser.error(message)]: the usage line and the message on standard
    error, then [sys.exit(2)]. *)
Definition error {A} (c : console) (message : string) : M A :=
  eprint (usage c) ;;
  eprint (prog c ++ ": error: " ++ message) ;;
  sys_exit 2.

(** [parser.parse_args()].  A help option anywhere prints the help
    message on standard output and exits with status 0; otherwise two
    arguments are the two references, and any other number is an
    error. *)
Definition parse_args (c : console) (argv : list string)
  : option (M namespace) :=
  if negb (forallb (fun a => negb (dashed a) || is_help a) argv) then None
  else if existsb is_help argv
  then Some (print (format_help c) ;; sys_exit 0)
  else
    match argv with
    | [] =>
        Some (error c
                "the following arguments are required: start_ref, end_ref")
    | [_] => Some (error c "the following arguments are required: end_ref")
    | [s; e] => Some (ret (mkNamespace s e))
    | _ :: _ :: extra =>
        Some (error c ("unrecognized arguments: " ++ join " " extra))
    end.

End Argparse.

(* ================================================================== *)
(** * commits.py: the Commit History Reporter *)
(* ================================================================== *)

Module Commits.

Section Tool.

Variable w : world.

Definition run_command (cmd : string) : M string :=
  try_except_cpe
    (result <- subprocess_run w cmd ;;
     ret (strip (stdout result)))
    (fun _ _ e_stderr =>
       eprint ("Error executing command: " ++ cmd) ;;
       eprint ("Error details: " ++ e_stderr) ;;
       sys_exit 1).

Definition get_commits_between_refs (start_ref end_ref file_path : string)
  : M (list string) :=
  let cmd := "git log " ++ start_ref ++ "^.." ++ end_ref
             ++ " --no-merges --pretty=format:'%H' -- " ++ file_path in
  commits <- run_command cmd ;;
  ret (if truthy commits then split LF commits else []).

Definition get_commit_details (commit_hash : string) : M json :=
  message <- run_command ("git show -s --format=%B " ++ commit_hash) ;;
  files <- run_command ("git show --name-only --format='' " ++ commit_hash) ;;
  let modified_files := filter truthy (split LF files) in
  author <- run_command ("git show -s --format='%an <%ae>' " ++ commit_hash) ;;
  date <- run_command ("git show -s --format='%ci' " ++ commit_hash) ;;
  ret (JDict [ ("hash", JStr commit_hash);
               ("author", JStr author);
               ("date", JStr date);
               ("message", JStr message);
               ("modified_files", JList (map JStr modified_files)) ]).

(** The body of [main] from the line after [args = parser.parse_args()],
    with [args.start_ref] and [args.end_ref]. *)
Definition main_body (start_ref end_ref : string) : M unit :=
  let target_file := "kernel/bpf/verifier.c" in
  (if negb (os_path_exists w ".git")
   then eprint "Error: Not in a git repository" ;; sys_exit 1
   else ret tt) ;;
  try_except_cpe
    (run_command ("git rev-parse " ++ start_ref) ;;
     run_command ("git rev-parse " ++ end_ref) ;;
     ret tt)
    (fun _ _ _ =>
       eprint "Error: One or both git references do not exist" ;;
       sys_exit 1) ;;
  eprint ("Analyzing commits between " ++ start_ref ++ " and " ++ end_ref
          ++ " (inclusive) that modified " ++ target_file) ;;
  let results :=
    JDict [ ("metadata", JDict [ ("target_file", JStr target_file);
                                 ("start_ref", JStr start_ref);
                                 ("end_ref", JStr end_ref) ]);
            ("commits", JList []) ] in
  commits <- get_commits_between_refs start_ref end_ref target_file ;;
  results <- for_each commits
               (fun commit_hash results =>
                  if truthy commit_hash
                  then
                    commit_details <- get_commit_details commit_hash ;;
                    l <- getitem results "commits" ;;
                    l <- append l commit_details ;;
                    setitem results "commits" l
                  else ret results)
               results ;;
  l <- getitem results "commits" ;;
  n <- len l ;;
  metadata <- getitem results "metadata" ;;
  metadata <- setitem metadata "commit_count" (JInt n) ;;
  results <- setitem results "metadata" metadata ;;
  print (json_dumps results).

(** [main()] on the arguments [sys.argv[1:]]: the parser, then the body.
    [None] where [parse_args] says nothing. *)
Definition main (c : Argparse.console) (argv : list string)
  : option (M unit) :=
  option_map
    (fun parsed =>
       args <- parsed ;;
       main_body (Argparse.start_ref args) (Argparse.end_ref args))
    (Argparse.parse_args c argv).

End Tool.

End Commits.

(* ================================================================== *)
(** * patchsets.py: the Patchset Reporter *)
(* ================================================================== *)

Module Patchsets.

Section Tool.

Variable w : world.

Definition run_command (cmd : string) : M string :=
  try_except_cpe
    (result <- subprocess_run w cmd ;;
     ret (strip (stdout result)))
    (fun _ _ e_stderr =>
       eprint ("Error executing command: " ++ cmd) ;;
       eprint ("Error details: " ++ e_stderr) ;;
       sys_exit 1).

Definition get_merge_commits (start_ref end_ref : string) : M (list string) :=
  let cmd := "git log --merges " ++ start_ref ++ "^.." ++ end_ref
             ++ " --format='%H'" in
  merges <- run_command cmd ;;
  ret (if truthy merges then split LF merges else []).

(** The Merge Record; [main] reads three of its fields back by name. *)
Record merge_details : Type := mkMerge {
  m_hash : string;
  m_subject : string;
  m_body : string;
  m_author : string;
  m_date : string;
  m_parent1 : string;
  m_parent2 : string
}.

Definition get_merge_details (merge_hash : string) : M merge_details :=
  subject <- run_command ("git show -s --format='%s' " ++ merge_hash) ;;
  body <- run_command ("git show -s --format='%b' " ++ merge_hash) ;;
  parent1 <- run_command ("git rev-parse " ++ merge_hash ++ "^1") ;;
  parent2 <- run_command ("git rev-parse " ++ merge_hash ++ "^2") ;;
  author <- run_command ("git show -s --format='%an <%ae>' " ++ merge_hash) ;;
  date <- run_command ("git show -s --format='%ci' " ++ merge_hash) ;;
  ret (mkMerge merge_hash subject body author date parent1 parent2).

Definition get_commits_in_merge (parent1 parent2 : string) : M (list string) :=
  let cmd := "git log --reverse --no-merges --format='%H' "
             ++ parent1 ++ ".." ++ parent2 in
  commits <- run_command cmd ;;
  ret (if truthy commits then split LF commits else []).

Definition get_commit_details (commit_hash : string) : M json :=
  subject <- run_command ("git show -s --format='%s' " ++ commit_hash) ;;
  message <- run_command ("git show -s --format='%b' " ++ commit_hash) ;;
  files <- run_command ("git show --name-only --format='' " ++ commit_hash) ;;
  let modified_files := filter truthy (split LF files) in
  author <- run_command ("git show -s --format='%an <%ae>' " ++ commit_hash) ;;
  date <- run_command ("git show -s --format='%ci' " ++ commit_hash) ;;
  ret (JDict [ ("hash", JStr commit_hash);
               ("subject", JStr subject);
               ("message", JStr message);
               ("author", JStr author);
               ("date", JStr date);
               ("modified_files", JList (map JStr modified_files)) ]).

Definition check_merge_affects_verifier (parent1 parent2 target_file : string)
  : M bool :=
  let cmd := "git log --oneline " ++ parent1 ++ ".." ++ parent2
             ++ " -- " ++ target_file in
  result <- run_command cmd ;;
  ret (truthy result).

Definition check_merge_contains_merges (parent1 parent2 : string) : M bool :=
  let cmd := "git log --merges --oneline " ++ parent1 ++ ".." ++ parent2 in
  result <- run_command cmd ;;
  ret (truthy result).

(** The body of the [for merge_hash in merge_commits] loop; [continue]
    leaves [results] as it is. *)
Definition process_merge (target_file merge_hash : string) (results : json)
  : M json :=
  if negb (truthy merge_hash) then ret results else
  merge_details <- get_merge_details merge_hash ;;
  let parent1 := m_parent1 merge_details in
  let parent2 := m_parent2 merge_details in
  nested <- check_merge_contains_merges parent1 parent2 ;;
  if nested then ret results else
  if str_in "Merge tag" (m_subject merge_details) then ret results else
  affects <- check_merge_affects_verifier parent1 parent2 target_file ;;
  if affects then
    eprint ("Found (" ++ merge_hash ++ ")  " ++ m_subject merge_details) ;;
    commit_hashes <- get_commits_in_merge parent1 parent2 ;;
    commits <- for_each commit_hashes
                 (fun commit_hash commits =>
                    if truthy commit_hash
                    then
                      commit_details <- get_commit_details commit_hash ;;
                      ret (commits ++ [commit_details])%list
                    else ret commits)
                 [] ;;
    let patchset :=
      JDict [ ("merge_hash", JStr merge_hash);
              ("merge_subject", JStr (m_subject merge_details));
              ("merge_body", JStr (m_body merge_details));
              ("merge_author", JStr (m_author merge_details));
              ("merge_date", JStr (m_date merge_details));
              ("commits", JList commits) ] in
    l <- getitem results "patchsets" ;;
    l <- append l patchset ;;
    setitem results "patchsets" l
  else ret results.

(** The body of [main] from the line after [args = parser.parse_args()],
    with [args.start_ref] and [args.end_ref]. *)
Definition main_body (start_ref end_ref : string) : M unit :=
  let target_file := "kernel/bpf/verifier.c" in
  (if negb (os_path_exists w ".git")
   then eprint "Error: Not in a git repository" ;; sys_exit 1
   else ret tt) ;;
  try_except_cpe
    (run_command ("git rev-parse " ++ start_ref) ;;
     run_command ("git rev-parse " ++ end_ref) ;;
     ret tt)
    (fun _ _ _ =>
       eprint "Error: One or both git references do not exist" ;;
       sys_exit 1) ;;
  eprint ("Analyzing merge commits between " ++ start_ref ++ " and "
          ++ end_ref ++ " that affect " ++ target_file) ;;
  let results :=
    JDict [ ("metadata", JDict [ ("target_file", JStr target_file);
                                 ("start_ref", JStr start_ref);
                                 ("end_ref", JStr end_ref) ]);
            ("patchsets", JList []) ] in
  merge_commits <- get_merge_commits start_ref end_ref ;;
  results <- for_each merge_commits (process_merge target_file) results ;;
  l <- getitem results "patchsets" ;;
  n <- len l ;;
  metadata <- getitem results "metadata" ;;
  metadata <- setitem metadata "patchset_count" (JInt n) ;;
  results <- setitem results "metadata" metadata ;;
  print (json_dumps results).

(** [main()] on the arguments [sys.argv[1:]]: the parser, then the body.
    [None] where [parse_args] says nothing. *)
Definition main (c : Argparse.console) (argv : list string)
  : option (M unit) :=
  option_map
    (fun parsed =>
       args <- parsed ;;
       main_body (Argparse.start_ref args) (Argparse.end_ref args))
    (Argparse.parse_args c argv).

End Tool.

End Patchsets.

(* ================================================================== *)
(** * The history behind the queries *)
(* ================================================================== *)

(** Modelled from the spec: [git] is an external program, not part of the
    two scripts, so what its queries mean is taken from the spec's words
    (section 4.1 step 1, section 4.2 steps 1, 3 and 4 and the rationale
    there, and the glossary): a range [A..B] is every commit reachable
    from [B] but not from [A]; [X^] is the first parent of [X]; a merge
    commit has two or more parents; [--no-merges] and [--merges] keep the
    non-merge and the merge commits; [-- path] keeps the commits that
    touch [path]; the default order is newest first and [--reverse] turns
    it around.  History simplification, which lets the real program prune
    side branches under a path filter, has no counterpart in the spec and
    none here. *)
Module Git.

Record commit : Type := mkCommit {
  c_hash : string;
  c_parents : list string;   (* first parent first *)
  c_subject : string;
  c_body : string;
  c_author : string;
  c_date : string;
  c_paths : list string      (* the paths the commit touches *)
}.

(** A repository: its commits, newest first, and its named references
    (tags and branches) with the hash each one points at. *)
Record repository : Type := mkRepo {
  history : list commit;
  refs : list (string * string)
}.

Definition mem (x : string) (l : list string) : bool :=
  existsb (String.eqb x) l.

Definition is_merge (c : commit) : bool :=
  Nat.leb 2 (length (c_parents c)).

Definition touches (path : string) (c : commit) : bool :=
  mem path (c_paths c).

Fixpoint find_commit (hist : list commit) (h : string) : option commit :=
  match hist with
  | [] => None
  | c :: rest => if String.eqb h (c_hash c) then Some c else find_commit rest h
  end.

Fixpoint lookup_ref (x : string) (l : list (string * string)) : option string :=
  match l with
  | [] => None
  | (k, h) :: l' => if String.eqb x k then Some h else lookup_ref x l'
  end.

(** The commit a reference names: a tag or branch, or a commit's own hash. *)
Definition commit_at (R : repository) (ref : string) : option commit :=
  match lookup_ref ref (refs R) with
  | Some h => find_commit (history R) h
  | None => find_commit (history R) ref
  end.

(** The commits reachable from the hashes in [want], in the order of
    [hist].  A commit that is wanted passes the wish on to its parents. *)
Fixpoint walk (hist : list commit) (want : list string) : list commit :=
  match hist with
  | [] => []
  | c :: rest =>
      if mem (c_hash c) want
      then c :: walk rest (c_parents c ++ want)%list
      else walk rest want
  end.

Definition reachable (R : repository) (tips : list string) : list commit :=
  walk (history R) tips.

(** [c] is [d] or one of its ancestors. *)
Definition ancestor (R : repository) (c d : commit) : bool :=
  mem (c_hash c) (map c_hash (reachable R [c_hash d])).

(** [excl..incl]: reachable from [incl] but not from [excl]. *)
Definition range (R : repository) (excl incl : string) : list commit :=
  filter (fun c => negb (mem (c_hash c) (map c_hash (reachable R [excl]))))
         (reachable R [incl]).

(** [start_ref^..end_ref], when both references name a commit and the one
    at [start_ref] has a parent. *)
Definition caret_range (R : repository) (start_ref end_ref : string)
  : option (list commit) :=
  match commit_at R start_ref, commit_at R end_ref with
  | Some s, Some e =>
      match c_parents s with
      | p :: _ => Some (range R p (c_hash e))
      | [] => None
      end
  | _, _ => None
  end.

(** [A..B] for two references. *)
Definition dot_range (R : repository) (a b : string) : option (list commit) :=
  match commit_at R a, commit_at R b with
  | Some ca, Some cb => Some (range R (c_hash ca) (c_hash cb))
  | _, _ => None
  end.

(** A hash is a non-empty word without white space. *)
Fixpoint no_space (s : string) : bool :=
  match s with
  | EmptyString => true
  | String a s' => negb (isspace a) && no_space s'
  end.

Definition word (s : string) : bool := truthy s && no_space s.

(** [hist] is in topological order with distinct hashes: no commit, and
    no parent of a commit, has the hash of that commit or of one before
    it. *)
Fixpoint ordered (seen : list string) (hist : list commit) : bool :=
  match hist with
  | [] => true
  | c :: rest =>
      negb (mem (c_hash c) seen)
      && forallb (fun p => negb (mem p (c_hash c :: seen))) (c_parents c)
      && ordered (c_hash c :: seen) rest
  end.

Definition wf (R : repository) : bool :=
  ordered [] (history R) && forallb (fun c => word (c_hash c)) (history R).

(** ** What the program answers *)

Definition success (out : string) : completed := mkCompleted 0 out EmptyString.

Definition fatal : completed :=
  mkCompleted 128 EmptyString "fatal: bad revision".

(** One line per commit, each closed by a newline ([--format=...]). *)
Fixpoint terminated (ls : list string) : string :=
  match ls with
  | [] => EmptyString
  | l :: ls' => l ++ String LF (terminated ls')
  end.

(** One line per commit, newlines between them ([--pretty=format:...]). *)
Definition separated (ls : list string) : string :=
  join (String LF EmptyString) ls.

(** The [--oneline] line of a commit: abbreviated hash and subject. *)
Definition oneline (c : commit) : string :=
  String.substring 0 7 (c_hash c) ++ " " ++ c_subject c.

Definition answer (r : option (list commit)) (render : list commit -> string)
  : completed :=
  match r with
  | Some cs => success (render cs)
  | None => fatal
  end.

(** [git log start^..end --no-merges --pretty=format:'%H' -- path] *)
Definition log_no_merges_path (R : repository) (start_ref end_ref path : string)
  : completed :=
  answer (caret_range R start_ref end_ref)
    (fun cs => separated (map c_hash
       (filter (fun c => negb (is_merge c) && touches path c) cs))).

(** [git log --merges start^..end --format='%H'] *)
Definition log_merges (R : repository) (start_ref end_ref : string) : completed :=
  answer (caret_range R start_ref end_ref)
    (fun cs => terminated (map c_hash (filter is_merge cs))).

(** [git log --merges --oneline p1..p2] *)
Definition log_merges_oneline (R : repository) (p1 p2 : string) : completed :=
  answer (dot_range R p1 p2)
    (fun cs => terminated (map oneline (filter is_merge cs))).

(** [git log --oneline p1..p2 -- path] *)
Definition log_oneline_path (R : repository) (p1 p2 path : string) : completed :=
  answer (dot_range R p1 p2)
    (fun cs => terminated (map oneline (filter (touches path) cs))).

(** [git log --reverse --no-merges --format='%H' p1..p2] *)
Definition log_reverse_no_merges (R : repository) (p1 p2 : string) : completed :=
  answer (dot_range R p1 p2)
    (fun cs => terminated (map c_hash
       (rev (filter (fun c => negb (is_merge c)) cs)))).

(** [git rev-parse m^n]: the hash of the [n]-th parent and a newline. *)
Definition rev_parse_parent (R : repository) (m : string) (n : nat) : completed :=
  match commit_at R m with
  | Some c =>
      match nth_error (c_parents c) (Nat.pred n) with
      | Some p => success (p ++ String LF EmptyString)
      | None => fatal
      end
  | None => fatal
  end.

(** ** The command lines of the two scripts *)

Definition cmd_rev_parse (ref : string) : string := "git rev-parse " ++ ref.

Definition cmd_log_no_merges_path (start_ref end_ref path : string) : string :=
  "git log " ++ start_ref ++ "^.." ++ end_ref
  ++ " --no-merges --pretty=format:'%H' -- " ++ path.

Definition cmd_log_merges (start_ref end_ref : string) : string :=
  "git log --merges " ++ start_ref ++ "^.." ++ end_ref ++ " --format='%H'".

Definition cmd_log_merges_oneline (p1 p2 : string) : string :=
  "git log --merges --oneline " ++ p1 ++ ".." ++ p2.

Definition cmd_log_oneline_path (p1 p2 path : string) : string :=
  "git log --oneline " ++ p1 ++ ".." ++ p2 ++ " -- " ++ path.

Definition cmd_log_reverse_no_merges (p1 p2 : string) : string :=
  "git log --reverse --no-merges --format='%H' " ++ p1 ++ ".." ++ p2.

Definition cmd_parent1 (m : string) : string := "git rev-parse " ++ m ++ "^1".
Definition cmd_parent2 (m : string) : string := "git rev-parse " ++ m ++ "^2".

Definition cmd_subject (h : string) : string := "git show -s --format='%s' " ++ h.
Definition cmd_body (h : string) : string := "git show -s --format='%b' " ++ h.
Definition cmd_message (h : string) : string := "git show -s --format=%B " ++ h.
Definition cmd_files (h : string) : string :=
  "git show --name-only --format='' " ++ h.
Definition cmd_author (h : string) : string :=
  "git show -s --format='%an <%ae>' " ++ h.
Definition cmd_date (h : string) : string := "git show -s --format='%ci' " ++ h.

(** ** A repository as an environment *)

(** A line of output with its newline. *)
Definition line (s : string) : string := s ++ String LF EmptyString.

(** [%B]: subject, blank line, body. *)
Definition raw_message (c : commit) : string :=
  if truthy (c_body c)
  then line (c_subject c) ++ line EmptyString ++ line (c_body c)
  else line (c_subject c).

(** The [git show] and [git rev-parse] queries about one commit. *)
Definition shown (R : repository) (c : commit) : list (string * completed) :=
  let h := c_hash c in
  [ (cmd_rev_parse h, success (line h));
    (cmd_subject h, success (line (c_subject c)));
    (cmd_body h, success (line (c_body c)));
    (cmd_message h, success (raw_message c));
    (cmd_files h, success (terminated (c_paths c)));
    (cmd_author h, success (line (c_author c)));
    (cmd_date h, success (line (c_date c)));
    (cmd_parent1 h, rev_parse_parent R h 1);
    (cmd_parent2 h, rev_parse_parent R h 2) ].

(** The three range queries of the Patchset Reporter about one merge. *)
Definition merged (R : repository) (path : string) (c : commit)
  : list (string * completed) :=
  match c_parents c with
  | p1 :: p2 :: _ =>
      [ (cmd_log_merges_oneline p1 p2, log_merges_oneline R p1 p2);
        (cmd_log_oneline_path p1 p2 path, log_oneline_path R p1 p2 path);
        (cmd_log_reverse_no_merges p1 p2, log_reverse_no_merges R p1 p2) ]
  | _ => []
  end.

Definition resolve (R : repository) (ref : string) : completed :=
  match commit_at R ref with
  | Some c => success (line (c_hash c))
  | None => fatal
  end.

(** Every command line a run on [start_ref] and [end_ref] can issue, with
    the answer of the program. *)
Definition transcript (R : repository) (path start_ref end_ref : string)
  : list (string * completed) :=
  ([ (cmd_rev_parse start_ref, resolve R start_ref);
     (cmd_rev_parse end_ref, resolve R end_ref);
     (cmd_log_no_merges_path start_ref end_ref path,
      log_no_merges_path R start_ref end_ref path);
     (cmd_log_merges start_ref end_ref, log_merges R start_ref end_ref) ]
   ++ flat_map (shown R) (history R)
   ++ flat_map (merged R path) (history R))%list.

Fixpoint replay (t : list (string * completed)) (cmd : string) : completed :=
  match t with
  | [] => mkCompleted 127 EmptyString "command not found"
  | (k, r) :: t' => if String.eqb cmd k then r else replay t' cmd
  end.

(** The working directory of a checkout of [R], as a run on [start_ref]
    and [end_ref] sees it. *)
Definition checkout (R : repository) (path start_ref end_ref : string) : world :=
  mkWorld (fun p => String.eqb p ".git")
          (replay (transcript R path start_ref end_ref)).

End Git.

(* ================================================================== *)
(** * What a run reads and what it reports *)
(* ================================================================== *)

(** The scripts are straight-line readers of the environment: the report
    of a run is a function of the answers.  These functions say which; the
    theorems below show that [main] prints exactly this report, or exits. *)

Section Reading.

Variable w : world.

(** The command ends with status 0. *)
Definition ok (cmd : string) : bool := Z.eqb (returncode (shell w cmd)) 0.

(** What [run_command] returns for a command that succeeds. *)
Definition output (cmd : string) : string :=
  strip (universal_newlines (stdout (shell w cmd))).

(** The non-empty lines of the output, as the loops over it see them. *)
Definition lines (cmd : string) : list string :=
  filter truthy (if truthy (output cmd) then split LF (output cmd) else []).

(** [modified_files] *)
Definition modified_files (h : string) : list string :=
  filter truthy (split LF (output (Git.cmd_files h))).

Definition preconditions (start_ref end_ref : string) : bool :=
  os_path_exists w ".git"
  && ok (Git.cmd_rev_parse start_ref) && ok (Git.cmd_rev_parse end_ref).

End Reading.

Definition target_file : string := "kernel/bpf/verifier.c".

(** The line of the [except] handler around the two [rev-parse] calls. *)
Definition handler_line : string :=
  "Error: One or both git references do not exist".

(** [j[k]] when [j] is a dict with key [k]. *)
Definition field (k : string) (j : json) : option json :=
  match j with
  | JDict kv => assoc k kv
  | _ => None
  end.

(** [s] is a fixed point of [strip]. *)
Definition stripped (s : string) : Prop := strip s = s.

(** [s] is made of white space only (or empty). *)
Fixpoint blank (s : string) : bool :=
  match s with
  | EmptyString => true
  | String a s' => isspace a && blank s'
  end.

(** The first character of [s], if any, is not white space. *)
Definition starts_clean (s : string) : bool :=
  match s with
  | EmptyString => true
  | String a _ => negb (isspace a)
  end.

(** The last character of [s], if any, is not white space. *)
Fixpoint ends_clean (s : string) : bool :=
  match s with
  | EmptyString => true
  | String a EmptyString => negb (isspace a)
  | String _ s' => ends_clean s'
  end.

(** [s] is on one line. *)
Fixpoint one_line (s : string) : bool :=
  match s with
  | EmptyString => true
  | String a s' => negb (Ascii.eqb a LF) && one_line s'
  end.

(** [s] has no carriage return. *)
Fixpoint no_cr (s : string) : bool :=
  match s with
  | EmptyString => true
  | String a s' => negb (Ascii.eqb a CR) && no_cr s'
  end.

Module CommitsReport.

Section Report.

Variable w : world.

Definition queries (h : string) : list string :=
  [Git.cmd_message h; Git.cmd_files h; Git.cmd_author h; Git.cmd_date h].

Definition record (h : string) : json :=
  JDict [ ("hash", JStr h);
          ("author", JStr (output w (Git.cmd_author h)));
          ("date", JStr (output w (Git.cmd_date h)));
          ("message", JStr (output w (Git.cmd_message h)));
          ("modified_files", JList (map JStr (modified_files w h))) ].

Definition listing (start_ref end_ref : string) : string :=
  Git.cmd_log_no_merges_path start_ref end_ref target_file.

Definition complete (start_ref end_ref : string) : bool :=
  preconditions w start_ref end_ref
  && ok w (listing start_ref end_ref)
  && forallb (fun h => forallb (ok w) (queries h))
       (lines w (listing start_ref end_ref)).

Definition document (start_ref end_ref : string) (cs : list json) : json :=
  JDict [ ("metadata", JDict [ ("target_file", JStr target_file);
                               ("start_ref", JStr start_ref);
                               ("end_ref", JStr end_ref);
                               ("commit_count", JInt (Z.of_nat (length cs))) ]);
          ("commits", JList cs) ].

Definition report (start_ref end_ref : string) : option json :=
  if complete start_ref end_ref
  then Some (document start_ref end_ref
               (map record (lines w (listing start_ref end_ref))))
  else None.

End Report.

End CommitsReport.

Module PatchsetsReport.

Section Report.

Variable w : world.

Definition parent1 (m : string) : string := output w (Git.cmd_parent1 m).
Definition parent2 (m : string) : string := output w (Git.cmd_parent2 m).

Definition merge_queries (m : string) : list string :=
  [Git.cmd_subject m; Git.cmd_body m; Git.cmd_parent1 m;
   Git.cmd_parent2 m; Git.cmd_author m; Git.cmd_date m].

Definition commit_queries (h : string) : list string :=
  [Git.cmd_subject h; Git.cmd_body h; Git.cmd_files h;
   Git.cmd_author h; Git.cmd_date h].

Definition nested_query (m : string) : string :=
  Git.cmd_log_merges_oneline (parent1 m) (parent2 m).

Definition relevance_query (m : string) : string :=
  Git.cmd_log_oneline_path (parent1 m) (parent2 m) target_file.

Definition payload_query (m : string) : string :=
  Git.cmd_log_reverse_no_merges (parent1 m) (parent2 m).

(** The three filters of the loop. *)
Definition nested (m : string) : bool := truthy (output w (nested_query m)).
Definition tagged (m : string) : bool :=
  str_in "Merge tag" (output w (Git.cmd_subject m)).
Definition relevant (m : string) : bool := truthy (output w (relevance_query m)).

Definition accepted (m : string) : bool :=
  negb (nested m) && negb (tagged m) && relevant m.

Definition record (h : string) : json :=
  JDict [ ("hash", JStr h);
          ("subject", JStr (output w (Git.cmd_subject h)));
          ("message", JStr (output w (Git.cmd_body h)));
          ("author", JStr (output w (Git.cmd_author h)));
          ("date", JStr (output w (Git.cmd_date h)));
          ("modified_files", JList (map JStr (modified_files w h))) ].

Definition patchset (m : string) : json :=
  JDict [ ("merge_hash", JStr m);
          ("merge_subject", JStr (output w (Git.cmd_subject m)));
          ("merge_body", JStr (output w (Git.cmd_body m)));
          ("merge_author", JStr (output w (Git.cmd_author m)));
          ("merge_date", JStr (output w (Git.cmd_date m)));
          ("commits", JList (map record (lines w (payload_query m)))) ].

(** Every query the loop body issues for [m] succeeds. *)
Definition merge_complete (m : string) : bool :=
  forallb (ok w) (merge_queries m)
  && ok w (nested_query m)
  && (nested m || tagged m
      || (ok w (relevance_query m)
          && (negb (relevant m)
              || (ok w (payload_query m)
                  && forallb (fun h => forallb (ok w) (commit_queries h))
                       (lines w (payload_query m)))))).

Definition listing (start_ref end_ref : string) : string :=
  Git.cmd_log_merges start_ref end_ref.

Definition complete (start_ref end_ref : string) : bool :=
  preconditions w start_ref end_ref
  && ok w (listing start_ref end_ref)
  && forallb merge_complete (lines w (listing start_ref end_ref)).

Definition document (start_ref end_ref : string) (ps : list json) : json :=
  JDict [ ("metadata", JDict [ ("target_file", JStr target_file);
                               ("start_ref", JStr start_ref);
                               ("end_ref", JStr end_ref);
                               ("patchset_count", JInt (Z.of_nat (length ps))) ]);
          ("patchsets", JList ps) ].

Definition report (start_ref end_ref : string) : option json :=
  if complete start_ref end_ref
  then Some (document start_ref end_ref
               (map patchset
                  (filter accepted (lines w (listing start_ref end_ref)))))
  else None.

End Report.

End PatchsetsReport.

(** How a run of either script can end, seen from outside: the streams
    it leaves behind and how the process stops. *)
Definition silent_failure (o : outcome unit) (st : streams) : Prop :=
  o = SystemExit 1 /\ exit_status o = 1%Z
  /\ sys_stdout st = [] /\ sys_stderr st <> [].

Definition one_document (o : outcome unit) (st : streams) : Prop :=
  o = Ok tt /\ exit_status o = 0%Z
  /\ exists r, sys_stdout st = [json_dumps r].

(** A line on standard error other than the handler's. *)
Definition benign (s : string) : Prop := s <> handler_line.

(** [runs m r]: from any streams, [m] leaves standard output alone, adds
    only benign lines to standard error, and either returns the value in
    [r], or, when [r] is [None], writes a diagnostic and exits with
    status 1.  In particular no exception escapes [m]. *)
Definition runs {A} (m : M A) (r : option A) : Prop :=
  forall st, exists extra,
    Forall benign extra /\
    match r with
    | Some a =>
        m st = (Ok a, mkStreams (sys_stdout st) (sys_stderr st ++ extra)%list)
    | None =>
        extra <> [] /\
        m st = (SystemExit 1,
                mkStreams (sys_stdout st) (sys_stderr st ++ extra)%list)
    end.

(** [emits m r]: like [runs], for a computation that ends by printing
    its one document: on success standard output gains [json_dumps] of the
    report in [r], and nothing else; on failure it gains nothing. *)
Definition emits (m : M unit) (r : option json) : Prop :=
  forall st, exists extra,
    Forall benign extra /\
    match r with
    | Some j =>
        m st = (Ok tt, mkStreams (sys_stdout st ++ [json_dumps j])%list
                                 (sys_stderr st ++ extra)%list)
    | None =>
        extra <> [] /\
        m st = (SystemExit 1,
                mkStreams (sys_stdout st) (sys_stderr st ++ extra)%list)
    end.

(* ================================================================== *)
(** * The two tools and their reports *)
(* ================================================================== *)

Inductive tool : Type := CommitHistoryReporter | PatchsetReporter.

(** [Run(start_ref, end_ref)] of a tool in the environment [w]. *)
Definition Run (t : tool) (w : world) (start_ref end_ref : string) : M unit :=
  match t with
  | CommitHistoryReporter => Commits.main_body w start_ref end_ref
  | PatchsetReporter => Patchsets.main_body w start_ref end_ref
  end.

(** Each script has its own copy of [run_command]. *)
Definition run_command (t : tool) (w : world) (cmd : string) : M string :=
  match t with
  | CommitHistoryReporter => Commits.run_command w cmd
  | PatchsetReporter => Patchsets.run_command w cmd
  end.

Definition report (t : tool) (w : world) (start_ref end_ref : string)
  : option json :=
  match t with
  | CommitHistoryReporter => CommitsReport.report w start_ref end_ref
  | PatchsetReporter => PatchsetsReport.report w start_ref end_ref
  end.

Definition count_key (t : tool) : string :=
  match t with
  | CommitHistoryReporter => "commit_count"
  | PatchsetReporter => "patchset_count"
  end.

Definition items_key (t : tool) : string :=
  match t with
  | CommitHistoryReporter => "commits"
  | PatchsetReporter => "patchsets"
  end.

(** The body of the [try] block that checks the two references. *)
Definition validate (t : tool) (w : world) (start_ref end_ref : string)
  : M unit :=
  run_command t w ("git rev-parse " ++ start_ref) ;;
  run_command t w ("git rev-parse " ++ end_ref) ;;
  ret tt.

(** The two lines [run_command] writes when [cmd] fails. *)
Definition command_failure (w : world) (cmd : string) : list string :=
  [ "Error executing command: " ++ cmd;
    "Error details: " ++ universal_newlines (stderr (shell w cmd)) ].

(** The count under [metadata] is the length of the list under [items]. *)
Definition count_agrees (count items : string) (j : json) : Prop :=
  exists md l,
    field "metadata" j = Some md
    /\ field items j = Some (JList l)
    /\ field count md = Some (JInt (Z.of_nat (length l))).

(** The hashes of a list of Commit Records, in order. *)
Definition hashes (cs : list json) : list (option json) :=
  map (field "hash") cs.

(** The commit [h] has a record in the [commits] array of [j]. *)
Definition lists_commit (h : string) (j : json) : Prop :=
  exists cs, field "commits" j = Some (JList cs)
             /\ In (Some (JStr h)) (hashes cs).

(** Claim C1 at one invocation: when the commit at [start_ref] is a
    non-merge commit that touches the target file, a run that generates a
    report lists that commit. *)
Definition start_commit_reported (w : world) (R : Git.repository)
    (start_ref end_ref : string) : Prop :=
  forall c st,
    Git.commit_at R start_ref = Some c ->
    Git.is_merge c = false ->
    Git.touches target_file c = true ->
    Run CommitHistoryReporter w start_ref end_ref fresh = (Ok tt, st) ->
    exists j, report CommitHistoryReporter w start_ref end_ref = Some j
              /\ sys_stdout st = [json_dumps j]
              /\ lists_commit (Git.c_hash c) j.

(** The commits from [start_ref] through [end_ref], the one at
    [start_ref] included: those reachable from [end_ref] but not from the
    first parent of the commit at [start_ref], when it has one. *)
Definition inclusive_range (R : Git.repository) (start_ref end_ref : string)
  : option (list Git.commit) :=
  match Git.commit_at R start_ref, Git.commit_at R end_ref with
  | Some c, Some ce =>
      Some (match Git.c_parents c with
            | p :: _ => Git.range R p (Git.c_hash ce)
            | [] => Git.reachable R [Git.c_hash ce]
            end)
  | _, _ => None
  end.

(** Claim C3 at one invocation: when both preconditions hold and no
    non-merge commit from [start_ref] through [end_ref] touches the
    target file, the run ends with status 0 and prints a report with
    [commit_count] 0 and no commit. *)
Definition empty_range_reported (w : world) (R : Git.repository)
    (start_ref end_ref : string) : Prop :=
  forall cs,
    preconditions w start_ref end_ref = true ->
    inclusive_range R start_ref end_ref = Some cs ->
    existsb (fun c => negb (Git.is_merge c) && Git.touches target_file c) cs
    = false ->
    exists j md err,
      Run CommitHistoryReporter w start_ref end_ref fresh
      = (Ok tt, mkStreams [json_dumps j] err)
      /\ field "metadata" j = Some md
      /\ field "commit_count" md = Some (JInt 0)
      /\ field "commits" j = Some (JList []).

(** An execution of a tool on the arguments [argv]. *)
Definition execute (t : tool) (c : Argparse.console) (w : world)
    (argv : list string) : option (M unit) :=
  match t with
  | CommitHistoryReporter => Commits.main w c argv
  | PatchsetReporter => Patchsets.main w c argv
  end.

(** Claim C8 at one execution: standard output gets one JSON document
    and the run ends normally, or it gets nothing and the run exits with
    status 1 after writing to standard error. *)
Definition stdout_discipline (t : tool) (c : Argparse.console) (w : world)
    (argv : list string) : Prop :=
  forall m, execute t c w argv = Some m ->
  one_document (fst (m fresh)) (snd (m fresh))
  \/ silent_failure (fst (m fresh)) (snd (m fresh)).

(** No patchset of [j] is the one of the merge [m]. *)
Definition omits_merge (m : string) (j : json) : Prop :=
  exists ps, field "patchsets" j = Some (JList ps)
             /\ forall p, In p ps -> field "merge_hash" p <> Some (JStr m).

(** ** The strings of a report *)

(** The list under the key [k] of a dict. *)
Definition items (k : string) (j : json) : list json :=
  match field k j with
  | Some (JList l) => l
  | _ => []
  end.

Definition strings (l : list json) : list string :=
  flat_map (fun x => match x with JStr s => [s] | _ => [] end) l.

(** The strings under the keys [ks] of a dict. *)
Definition texts (ks : list string) (j : json) : list string :=
  flat_map (fun k => match field k j with
                     | Some (JStr s) => [s]
                     | _ => []
                     end) ks.

(** The paths of a Commit Record. *)
Definition paths (c : json) : list string := strings (items "modified_files" c).

(** The Commit Records of a report, those inside patchsets included. *)
Definition commit_records (t : tool) (j : json) : list json :=
  match t with
  | CommitHistoryReporter => items "commits" j
  | PatchsetReporter => flat_map (items "commits") (items "patchsets" j)
  end.

Definition record_keys : list string :=
  ["author"; "date"; "message"; "subject"; "body"].

Definition merge_keys : list string :=
  ["merge_subject"; "merge_body"; "merge_author"; "merge_date"].

(** The string fields that hold the whole output of one query. *)
Definition scalar_strings (t : tool) (j : json) : list string :=
  (flat_map (texts record_keys) (commit_records t j)
   ++ flat_map (texts merge_keys) (items "patchsets" j))%list.

Definition path_strings (t : tool) (j : json) : list string :=
  flat_map paths (commit_records t j).

(** Claim C10 at one invocation: every string field of a generated report,
    each path included, is stripped. *)
Definition all_fields_stripped (t : tool) (w : world)
    (start_ref end_ref : string) : Prop :=
  forall st, Run t w start_ref end_ref fresh = (Ok tt, st) ->
  exists j, report t w start_ref end_ref = Some j
            /\ sys_stdout st = [json_dumps j]
            /\ Forall stripped (scalar_strings t j)
            /\ Forall stripped (path_strings t j).

(** What holds of the paths of one commit: each is a non-empty line, the
    first starts clean and the last ends clean. *)
Definition tidy_paths (fs : list string) : Prop :=
  forallb (fun f => truthy f && one_line f) fs = true
  /\ starts_clean (hd EmptyString fs) = true
  /\ ends_clean (last fs EmptyString) = true.

(** [s] is stripped and does not end with a newline. *)
Definition trimmed (s : string) : Prop :=
  stripped s /\ forall s', s <> s' ++ String LF EmptyString.

(** A body of white space only is reported as the empty string. *)
Definition blank_body_dropped (w : world) (hash_key body_key : string)
    (c : json) : Prop :=
  forall h, field hash_key c = Some (JStr h) ->
            blank (stdout (shell w (Git.cmd_body h))) = true ->
            field body_key c = Some (JStr EmptyString).

(** ** What a successful computation writes *)

(** [yields m a out err]: from any streams, [m] returns [a] after
    writing the lines [out] to standard output and [err] to standard
    error, and nothing else. *)
Definition yields {A} (m : M A) (a : A) (out err : list string) : Prop :=
  forall st,
    m st = (Ok a, mkStreams (sys_stdout st ++ out)%list
                            (sys_stderr st ++ err)%list).

(** The progress line of a tool. *)
Definition progress (t : tool) (start_ref end_ref : string) : string :=
  match t with
  | CommitHistoryReporter =>
      "Analyzing commits between " ++ start_ref ++ " and " ++ end_ref
      ++ " (inclusive) that modified " ++ target_file
  | PatchsetReporter =>
      "Analyzing merge commits between " ++ start_ref ++ " and " ++ end_ref
      ++ " that affect " ++ target_file
  end.

(** The line the Patchset Reporter writes for a merge it reports. *)
Definition found (w : world) (m : string) : string :=
  "Found (" ++ m ++ ")  " ++ output w (Git.cmd_subject m).

(** Standard error of a successful run. *)
Definition diagnostics (t : tool) (w : world) (start_ref end_ref : string)
  : list string :=
  progress t start_ref end_ref
  :: match t with
     | CommitHistoryReporter => []
     | PatchsetReporter =>
         map (found w)
           (filter (PatchsetsReport.accepted w)
              (lines w (PatchsetsReport.listing start_ref end_ref)))
     end.

(** What the three listing functions make of an output: its lines, and
    no line at all for an empty output. *)
Definition listed (out : string) : list string :=
  if truthy out then split LF out else [].

(** The three functions that read a list of hashes, as one family. *)
Inductive hash_query : Type :=
| commits_between_refs (start_ref end_ref file_path : string)
| merge_commits (start_ref end_ref : string)
| commits_in_merge (parent1 parent2 : string).

Definition hash_command (q : hash_query) : string :=
  match q with
  | commits_between_refs s e f => Git.cmd_log_no_merges_path s e f
  | merge_commits s e => Git.cmd_log_merges s e
  | commits_in_merge p1 p2 => Git.cmd_log_reverse_no_merges p1 p2
  end.

Definition hash_call (w : world) (q : hash_query) : M (list string) :=
  match q with
  | commits_between_refs s e f => Commits.get_commits_between_refs w s e f
  | merge_commits s e => Patchsets.get_merge_commits w s e
  | commits_in_merge p1 p2 => Patchsets.get_commits_in_merge w p1 p2
  end.

(** [get_commit_details] of a tool, and the queries it issues. *)
Definition commit_details (t : tool) (w : world) (commit_hash : string)
  : M json :=
  match t with
  | CommitHistoryReporter => Commits.get_commit_details w commit_hash
  | PatchsetReporter => Patchsets.get_commit_details w commit_hash
  end.

Definition detail_queries (t : tool) (h : string) : list string :=
  match t with
  | CommitHistoryReporter => CommitsReport.queries h
  | PatchsetReporter => PatchsetsReport.commit_queries h
  end.

(** A file name as [git] prints it on a line of its own, when it has no
    white space at either end: not empty, no newline, no carriage
    return.  Spaces inside the name are allowed. *)
Definition plain_name (p : string) : bool :=
  truthy p && one_line p && no_cr p && starts_clean p && ends_clean p.

(** The keys of a dict, in the order [json.dumps] writes them. *)
Definition keys (j : json) : list string :=
  match j with
  | JDict kv => map fst kv
  | _ => []
  end.

(** The keys of a Commit Record of each tool. *)
Definition record_schema (t : tool) : list string :=
  match t with
  | CommitHistoryReporter =>
      ["hash"; "author"; "date"; "message"; "modified_files"]
  | PatchsetReporter =>
      ["hash"; "subject"; "message"; "author"; "date"; "modified_files"]
  end.

Definition patchset_schema : list string :=
  ["merge_hash"; "merge_subject"; "merge_body"; "merge_author";
   "merge_date"; "commits"].

(** Every character is a newline or a printable ASCII character. *)
Fixpoint plain_ascii (s : string) : bool :=
  match s with
  | EmptyString => true
  | String a s' =>
      let n := Ascii.nat_of_ascii a in
      (Nat.eqb n 10 || (Nat.leb 32 n && Nat.leb n 126)) && plain_ascii s'
  end.

(** What a walk still wants after it has gone through [hist]. *)
Fixpoint wanted (hist : list Git.commit) (want : list string) : list string :=
  match hist with
  | [] => want
  | c :: rest =>
      if Git.mem (Git.c_hash c) want
      then wanted rest (Git.c_parents c ++ want)%list
      else wanted rest want
  end.

(** The listing command of a tool and the answer of [git] to it. *)
Definition listing_command (t : tool) (start_ref end_ref : string) : string :=
  match t with
  | CommitHistoryReporter => CommitsReport.listing start_ref end_ref
  | PatchsetReporter => PatchsetsReport.listing start_ref end_ref
  end.

Definition listing_answer (t : tool) (R : Git.repository)
    (start_ref end_ref : string) : completed :=
  match t with
  | CommitHistoryReporter =>
      Git.log_no_merges_path R start_ref end_ref target_file
  | PatchsetReporter => Git.log_merges R start_ref end_ref
  end.

(* ================================================================== *)
(** * A small history to run the tools on *)
(* ================================================================== *)

Module Example.

Import Git.

Definition jane : string := "Jane Hacker <jane@example.org>".
Definition omar : string := "Omar Reviewer <omar@example.org>".
Definition verifier : string := "kernel/bpf/verifier.c".

Definition c1 : commit :=
  mkCommit "10c1a7e5b001" [] "bpf: import the verifier" EmptyString
    jane "2024-01-01 09:00:00 +0000" ["kernel/bpf/core.c"; verifier].
Definition c2 : commit :=
  mkCommit "20c2a7e5b002" ["10c1a7e5b001"] "bpf: reject unbounded loops"
    "Loops without a bound are refused." jane "2024-01-02 09:00:00 +0000"
    [verifier].
Definition f1 : commit :=
  mkCommit "30f1a7e5b003" ["10c1a7e5b001"] "bpf: add a helper table"
    EmptyString omar "2024-01-03 09:00:00 +0000" ["kernel/bpf/core.c"].
Definition f2 : commit :=
  mkCommit "40f2a7e5b004" ["30f1a7e5b003"] "bpf: check helper arguments"
    "Uses the new table." omar "2024-01-04 09:00:00 +0000"
    ["kernel/bpf/helpers.c"; verifier].
Definition ma : commit :=
  mkCommit "50aaa7e5b005" ["20c2a7e5b002"; "40f2a7e5b004"]
    "Merge branch 'helper-checks'" "Two patches from Omar." jane
    "2024-01-05 09:00:00 +0000" [].
Definition h1 : commit :=
  mkCommit "60b1a7e5b006" ["20c2a7e5b002"] "bpf: fix a typo in a message"
    EmptyString omar "2024-01-06 09:00:00 +0000" [verifier].
Definition mb : commit :=
  mkCommit "70bba7e5b007" ["50aaa7e5b005"; "60b1a7e5b006"]
    "Merge tag 'v1.2.3' into bpf-next" EmptyString jane
    "2024-01-07 09:00:00 +0000" [].
Definition k1 : commit :=
  mkCommit "80c1a7e5b008" ["50aaa7e5b005"] "docs: describe the helper table"
    EmptyString omar "2024-01-08 09:00:00 +0000"
    ["Documentation/bpf/index.rst"].
Definition mc : commit :=
  mkCommit "90cca7e5b009" ["70bba7e5b007"; "80c1a7e5b008"]
    "Merge branch 'docs'" EmptyString jane "2024-01-09 09:00:00 +0000" [].
Definition n1 : commit :=
  mkCommit "a0d1a7e5b00a" ["70bba7e5b007"] "bpf: track spilled registers"
    EmptyString omar "2024-01-10 09:00:00 +0000" [verifier].
Definition p1 : commit :=
  mkCommit "b0e1a7e5b00b" ["70bba7e5b007"] "bpf: prune equivalent states"
    "Saves time on large programs." omar "2024-01-11 09:00:00 +0000"
    [verifier].
Definition nm : commit :=
  mkCommit "c0eea7e5b00c" ["a0d1a7e5b00a"; "b0e1a7e5b00b"]
    "Merge branch 'pruning' into spills" EmptyString omar
    "2024-01-12 09:00:00 +0000" [].
Definition n2 : commit :=
  mkCommit "d0d2a7e5b00d" ["c0eea7e5b00c"] "bpf: test spills with pruning"
    EmptyString omar "2024-01-13 09:00:00 +0000" [verifier].
Definition md : commit :=
  mkCommit "e0dda7e5b00e" ["90cca7e5b009"; "d0d2a7e5b00d"]
    "Merge branch 'spills'" EmptyString jane "2024-01-14 09:00:00 +0000" [].
Definition c9 : commit :=
  mkCommit "f0c9a7e5b00f" ["e0dda7e5b00e"] "bpf: bump the complexity limit"
    EmptyString jane "2024-01-15 09:00:00 +0000" [verifier].

(** Newest first.  [ma] brings in [f1] and [f2]; [mb] is a tag merge; [mc]
    brings in documentation only; [md] brings in a branch that contains
    the merge [nm]. *)
Definition kernel : repository :=
  mkRepo [c9; md; n2; nm; p1; n1; mc; k1; mb; h1; ma; f2; f1; c2; c1]
         [("v1.0", c_hash c2); ("master", c_hash c9)].

(** A commit that touches a file whose name, [a] and a space, ends with
    a space; [git] lists names in byte order, this one first. *)
Definition s0 : commit :=
  mkCommit "00aaa7e5b0a0" [] "Initial commit" EmptyString jane
    "2024-01-31 09:00:00 +0000" ["README"].
Definition s1 : commit :=
  mkCommit "11aaa7e5b0a1" ["00aaa7e5b0a0"] "bpf: start" EmptyString jane
    "2024-02-01 09:00:00 +0000" [verifier].
Definition s2 : commit :=
  mkCommit "22bba7e5b0a2" ["11aaa7e5b0a1"] "bpf: keep a scratch file"
    (String (Ascii.ascii_of_nat 32) EmptyString) jane
    "2024-02-02 09:00:00 +0000" ["a "; verifier].

Definition scratch : repository :=
  mkRepo [s2; s1; s0] [("base", c_hash s1); ("tip", c_hash s2)].

Definition in_kernel (start_ref end_ref : string) : world :=
  checkout kernel target_file start_ref end_ref.

Definition in_scratch (start_ref end_ref : string) : world :=
  checkout scratch target_file start_ref end_ref.

(** [commits.py] started under its own name; the help text below the
    usage line as Python 3.12 prints it on a wide terminal. *)
Definition commits_py : Argparse.console :=
  Argparse.mkConsole "commits.py"
    (Git.line EmptyString
     ++ Git.line "Analyze commits that modified kernel/bpf/verifier.c between two git references."
     ++ Git.line EmptyString
     ++ Git.line "positional arguments:"
     ++ Git.line "  start_ref   Starting git reference (tag, branch, or commit hash)"
     ++ Git.line "  end_ref     Ending git reference (tag, branch, or commit hash)"
     ++ Git.line EmptyString
     ++ Git.line "options:"
     ++ "  -h, --help  show this help message and exit").

(** A directory that is not a checkout, where no command works. *)
Definition elsewhere : world :=
  mkWorld (fun _ => false) (replay []).

(** The run of a tool from the tag [v1.0] to [master]. *)
Definition kernel_run (t : tool) : outcome unit * streams :=
  Run t (in_kernel "v1.0" "master") "v1.0" "master" fresh.

End Example.

(* ================================================================== *)
(** * Facts about the Python built-ins *)
(* ================================================================== *)

Section MonadFacts.

Lemma streams_eta (st : streams) :
  mkStreams (sys_stdout st) (sys_stderr st ++ [])%list = st.
Proof. destruct st; simpl; now rewrite app_nil_r. Qed.

Lemma runs_ret {A} (a : A) : runs (ret a) (Some a).
Proof.
  intro st; exists []; split; [constructor|].
  unfold ret; now rewrite streams_eta.
Qed.

Lemma runs_eprint (s : string) : benign s -> runs (eprint s) (Some tt).
Proof.
  intros Hs st; exists [s]; split; [now repeat constructor|reflexivity].
Qed.

Lemma runs_bind {A B} (m : M A) (k : A -> M B) (r : option A) (rk : option B) :
  runs m r ->
  (forall a, r = Some a -> runs (k a) rk) ->
  (r = None -> rk = None) ->
  runs (bind m k) rk.
Proof.
  intros Hm Hk Hn st. destruct (Hm st) as [e1 [F1 H1]].
  destruct r as [a|].
  - destruct (Hk a eq_refl (mkStreams (sys_stdout st) (sys_stderr st ++ e1)%list))
      as [e2 [F2 H2]].
    exists (e1 ++ e2)%list; split; [now apply Forall_app|].
    unfold bind; rewrite H1; simpl in H2.
    rewrite <- app_assoc in H2.
    destruct rk; [exact H2|].
    destruct H2 as [Hne H2]; split; [|exact H2].
    intro E; apply app_eq_nil in E; tauto.
  - rewrite (Hn eq_refl). destruct H1 as [Hne H1].
    exists e1; split; [assumption|]. split; [assumption|].
    unfold bind; now rewrite H1.
Qed.

Lemma runs_eq {A} (m : M A) (r r' : option A) : runs m r -> r = r' -> runs m r'.
Proof. now intros H <-. Qed.

End MonadFacts.

(** ** [strip] *)

Lemma lstrip_clean (s : string) : starts_clean s = true -> lstrip s = s.
Proof.
  destruct s as [|a s]; simpl; [reflexivity|].
  now destruct (isspace a).
Qed.

Lemma lstrip_starts_clean (s : string) : starts_clean (lstrip s) = true.
Proof.
  induction s as [|a s IH]; simpl; [reflexivity|].
  destruct (isspace a) eqn:E; [exact IH|]. simpl. now rewrite E.
Qed.

Lemma blank_lstrip (s : string) : blank (lstrip s) = blank s.
Proof.
  induction s as [|a s IH]; simpl; [reflexivity|].
  destruct (isspace a) eqn:E; [exact IH|]. simpl. now rewrite E.
Qed.

Lemma truthy_rstrip (s : string) : truthy (rstrip s) = negb (blank s).
Proof.
  induction s as [|a s IH]; simpl; [reflexivity|].
  destruct (rstrip s) eqn:R; simpl in *.
  - destruct (blank s); [|discriminate].
    destruct (isspace a); reflexivity.
  - destruct (blank s); [discriminate|].
    now rewrite andb_false_r.
Qed.

(** [bool(s.strip())] is false exactly for white space. *)
Lemma truthy_strip (s : string) : truthy (strip s) = negb (blank s).
Proof. unfold strip. now rewrite truthy_rstrip, blank_lstrip. Qed.

Lemma strip_blank (s : string) : blank s = true -> strip s = EmptyString.
Proof.
  intro H. pose proof (truthy_strip s) as T. rewrite H in T.
  now destruct (strip s).
Qed.

Lemma rstrip_app (s t : string) :
  rstrip (s ++ t) = if truthy (rstrip t) then s ++ rstrip t else rstrip s.
Proof.
  induction s as [|a s IH]; simpl.
  - now destruct (rstrip t).
  - rewrite IH. destruct (rstrip t) as [|b r]; simpl; [reflexivity|].
    now destruct s.
Qed.

Lemma rstrip_word (s : string) : Git.no_space s = true -> rstrip s = s.
Proof.
  induction s as [|a s IH]; simpl; [reflexivity|].
  intro H. apply andb_prop in H as [Ha Hs]. rewrite (IH Hs).
  destruct s; [|reflexivity].
  now destruct (isspace a).
Qed.

Lemma rstrip_starts_clean (s : string) :
  starts_clean s = true -> starts_clean (rstrip s) = true.
Proof.
  destruct s as [|a s]; simpl; [reflexivity|]. intro H.
  destruct (rstrip s); [|exact H].
  destruct (isspace a) eqn:E; [discriminate H|].
  simpl. now rewrite E.
Qed.

Lemma rstrip_ends_clean (s : string) : ends_clean (rstrip s) = true.
Proof.
  induction s as [|a s IH]; simpl; [reflexivity|].
  destruct (rstrip s) as [|b r] eqn:R.
  - destruct (isspace a) eqn:E; simpl; [reflexivity|now rewrite E].
  - exact IH.
Qed.

Lemma rstrip_clean (s : string) : ends_clean s = true -> rstrip s = s.
Proof.
  induction s as [|a s IH]; [reflexivity|].
  intro H. destruct s as [|b s].
  - simpl in *. now destruct (isspace a).
  - change (ends_clean (String b s) = true) in H.
    change (rstrip (String a (String b s)))
      with (match rstrip (String b s) with
            | EmptyString =>
                if isspace a then EmptyString else String a EmptyString
            | r => String a r
            end).
    now rewrite (IH H).
Qed.

(** What [strip] returns has clean ends, and [strip] leaves it alone. *)
Lemma strip_clean (s : string) :
  starts_clean (strip s) = true /\ ends_clean (strip s) = true.
Proof.
  unfold strip; split.
  - apply rstrip_starts_clean, lstrip_starts_clean.
  - apply rstrip_ends_clean.
Qed.

Lemma stripped_clean (s : string) :
  starts_clean s = true -> ends_clean s = true -> stripped s.
Proof.
  intros H1 H2. unfold stripped, strip.
  rewrite (lstrip_clean s H1). now apply rstrip_clean.
Qed.

Lemma strip_stripped (s : string) : stripped (strip s).
Proof. apply stripped_clean; apply strip_clean. Qed.

Lemma ends_clean_newline (s : string) :
  ends_clean (s ++ String LF EmptyString) = false.
Proof.
  induction s as [|a s IH]; [reflexivity|].
  simpl. destruct (s ++ String LF EmptyString) eqn:E; [|exact IH].
  now destruct s.
Qed.

Section RunCommand.

Variable w : world.

Lemma benign_executing (cmd : string) :
  benign ("Error executing command: " ++ cmd).
Proof. unfold benign, handler_line; simpl; discriminate. Qed.

Lemma benign_details (e : string) : benign ("Error details: " ++ e).
Proof. unfold benign, handler_line; simpl; discriminate. Qed.

(** [run_command], case by case. *)
Lemma run_command_eq (cmd : string) (st : streams) :
  Commits.run_command w cmd st =
  if ok w cmd
  then (Ok (output w cmd), st)
  else (SystemExit 1,
        mkStreams (sys_stdout st)
          (sys_stderr st
           ++ [ ("Error executing command: " ++ cmd)%string;
                ("Error details: "
                 ++ universal_newlines (stderr (shell w cmd)))%string ])%list).
Proof.
  unfold Commits.run_command, try_except_cpe, bind, subprocess_run, ok, output.
  destruct (Z.eqb (returncode (shell w cmd)) 0); simpl; [reflexivity|].
  unfold eprint, sys_exit; simpl. now rewrite <- app_assoc.
Qed.

Lemma run_command_same : Patchsets.run_command = Commits.run_command.
Proof. reflexivity. Qed.

Lemma runs_run_command (cmd : string) :
  runs (Commits.run_command w cmd)
       (if ok w cmd then Some (output w cmd) else None).
Proof.
  intro st. rewrite run_command_eq. destruct (ok w cmd).
  - exists []; split; [constructor|now rewrite streams_eta].
  - eexists; split; [|split; [|reflexivity]].
    + repeat constructor; [apply benign_executing|apply benign_details].
    + discriminate.
Qed.

End RunCommand.

Section Composition.

Variable w : world.

Lemma runs_bind_run {B} (cmd : string) (k : string -> M B) (rk : option B) :
  (ok w cmd = true -> runs (k (output w cmd)) rk) ->
  (ok w cmd = false -> rk = None) ->
  runs (bind (Commits.run_command w cmd) k) rk.
Proof.
  intros Hk Hn. eapply runs_bind; [apply runs_run_command| |].
  - intros a Ha. destruct (ok w cmd); [|discriminate].
    injection Ha as <-. now apply Hk.
  - intros Ha. destruct (ok w cmd); [discriminate|now apply Hn].
Qed.

(** The handler of a [try] is dead code around a body that [runs]. *)
Lemma runs_try {A} (body : M A) (handler : Z -> string -> string -> M A)
    (r : option A) :
  runs body r -> runs (try_except_cpe body handler) r.
Proof.
  intros Hb st. destruct (Hb st) as [extra [F H]].
  exists extra; split; [assumption|].
  unfold try_except_cpe.
  destruct r; [now rewrite H|].
  destruct H as [Hne H]; split; [assumption|now rewrite H].
Qed.

Lemma emits_print (j : json) : emits (print (json_dumps j)) (Some j).
Proof.
  intro st; exists []; split; [constructor|].
  unfold print. now rewrite app_nil_r.
Qed.

Lemma emits_bind {A} (m : M A) (k : A -> M unit) (r : option A)
    (rk : option json) :
  runs m r ->
  (forall a, r = Some a -> emits (k a) rk) ->
  (r = None -> rk = None) ->
  emits (bind m k) rk.
Proof.
  intros Hm Hk Hn st. destruct (Hm st) as [e1 [F1 H1]].
  destruct r as [a|].
  - destruct (Hk a eq_refl (mkStreams (sys_stdout st) (sys_stderr st ++ e1)%list))
      as [e2 [F2 H2]].
    exists (e1 ++ e2)%list; split; [now apply Forall_app|].
    unfold bind; rewrite H1; simpl in H2.
    rewrite <- app_assoc in H2.
    destruct rk; [exact H2|].
    destruct H2 as [Hne H2]; split; [|exact H2].
    intro E; apply app_eq_nil in E; tauto.
  - rewrite (Hn eq_refl). destruct H1 as [Hne H1].
    exists e1; split; [assumption|]. split; [assumption|].
    unfold bind; now rewrite H1.
Qed.

Lemma runs_git_check :
  runs (if negb (os_path_exists w ".git")
        then bind (eprint "Error: Not in a git repository")
                  (fun _ => sys_exit 1)
        else ret tt)
       (if os_path_exists w ".git" then Some tt else None).
Proof.
  destruct (os_path_exists w ".git"); simpl; [apply runs_ret|].
  intro st. exists ["Error: Not in a git repository"]; split.
  - repeat constructor. unfold benign, handler_line; discriminate.
  - split; [discriminate|reflexivity].
Qed.

Lemma runs_validate (start_ref end_ref : string) :
  runs (try_except_cpe
          (bind (Commits.run_command w ("git rev-parse " ++ start_ref))
             (fun _ => bind (Commits.run_command w ("git rev-parse " ++ end_ref))
                         (fun _ => ret tt)))
          (fun _ _ _ =>
             bind (eprint "Error: One or both git references do not exist")
                  (fun _ => sys_exit 1)))
       (if ok w (Git.cmd_rev_parse start_ref) && ok w (Git.cmd_rev_parse end_ref)
        then Some tt else None).
Proof.
  apply runs_try. unfold Git.cmd_rev_parse.
  apply runs_bind_run; [intros H1|intros H1; now rewrite H1].
  apply runs_bind_run; [intros H2|intros H2; rewrite H1, H2; reflexivity].
  rewrite H1, H2. apply runs_ret.
Qed.

End Composition.

(* ================================================================== *)
(** * The Commit History Reporter prints its report or exits *)
(* ================================================================== *)

Section CommitsFacts.

Variable w : world.

Lemma benign_analyzing (s : string) : benign ("Analyzing " ++ s).
Proof. unfold benign, handler_line; simpl; discriminate. Qed.

Lemma runs_get_commits_between_refs (start_ref end_ref file_path : string) :
  runs (Commits.get_commits_between_refs w start_ref end_ref file_path)
       (let cmd := Git.cmd_log_no_merges_path start_ref end_ref file_path in
        if ok w cmd
        then Some (if truthy (output w cmd) then split LF (output w cmd) else [])
        else None).
Proof.
  unfold Commits.get_commits_between_refs, Git.cmd_log_no_merges_path.
  cbv zeta. apply runs_bind_run; intros H; rewrite H; [apply runs_ret|reflexivity].
Qed.

Lemma runs_get_commit_details (h : string) :
  runs (Commits.get_commit_details w h)
       (if forallb (ok w) (CommitsReport.queries h)
        then Some (CommitsReport.record w h) else None).
Proof.
  unfold Commits.get_commit_details, CommitsReport.queries,
    Git.cmd_message, Git.cmd_files, Git.cmd_author, Git.cmd_date.
  cbn [forallb].
  apply runs_bind_run; intros H1; rewrite H1; [|reflexivity].
  apply runs_bind_run; intros H2; rewrite H2; [|reflexivity].
  apply runs_bind_run; intros H3; rewrite H3; [|reflexivity].
  apply runs_bind_run; intros H4; rewrite H4; [|reflexivity].
  apply runs_ret.
Qed.

Lemma runs_commit_step (h : string) (md : json) (acc : list json) :
  runs (bind (Commits.get_commit_details w h)
          (fun commit_details =>
             bind (getitem (JDict [("metadata", md); ("commits", JList acc)])
                     "commits")
               (fun l => bind (append l commit_details)
                           (fun l => setitem
                                       (JDict [("metadata", md);
                                               ("commits", JList acc)])
                                       "commits" l))))
       (if forallb (ok w) (CommitsReport.queries h)
        then Some (JDict [("metadata", md);
                          ("commits",
                           JList (acc ++ [CommitsReport.record w h])%list)])
        else None).
Proof.
  eapply runs_bind; [apply runs_get_commit_details| |].
  - intros d Hd.
    destruct (forallb (ok w) (CommitsReport.queries h)); [|discriminate].
    injection Hd as <-. cbn. apply runs_ret.
  - intros Hd.
    destruct (forallb (ok w) (CommitsReport.queries h)); [discriminate|].
    reflexivity.
Qed.

Lemma runs_commit_loop (l : list string) (md : json) (acc : list json) :
  runs (for_each l
          (fun commit_hash results =>
             if truthy commit_hash
             then
               bind (Commits.get_commit_details w commit_hash)
                 (fun commit_details =>
                    bind (getitem results "commits")
                      (fun l => bind (append l commit_details)
                                  (fun l => setitem results "commits" l)))
             else ret results)
          (JDict [("metadata", md); ("commits", JList acc)]))
       (if forallb (fun h => forallb (ok w) (CommitsReport.queries h))
             (filter truthy l)
        then Some (JDict [("metadata", md);
                          ("commits",
                           JList (acc ++ map (CommitsReport.record w)
                                           (filter truthy l))%list)])
        else None).
Proof.
  revert acc. induction l as [|h l IH]; intro acc.
  - simpl. rewrite app_nil_r. apply runs_ret.
  - cbn [for_each filter]. destruct (truthy h) eqn:Hh.
    + cbn [forallb map].
      eapply runs_bind; [apply runs_commit_step| |].
      * intros a Ha.
        destruct (forallb (ok w) (CommitsReport.queries h)); [|discriminate].
        injection Ha as <-. cbn [andb].
        eapply runs_eq; [apply IH|].
        now rewrite <- app_assoc.
      * intros Hd.
        destruct (forallb (ok w) (CommitsReport.queries h)); [discriminate|].
        reflexivity.
    + eapply runs_bind; [apply runs_ret| |discriminate].
      intros a Ha. injection Ha as <-. apply IH.
Qed.

Lemma commits_tail (md : list (string * json)) (cs : list json) :
  let results := JDict [("metadata", JDict md); ("commits", JList cs)] in
  emits (bind (getitem results "commits")
           (fun l => bind (len l)
              (fun n => bind (getitem results "metadata")
                 (fun metadata =>
                    bind (setitem metadata "commit_count" (JInt n))
                      (fun metadata =>
                         bind (setitem results "metadata" metadata)
                           (fun results => print (json_dumps results)))))))
        (Some (JDict [("metadata",
                       JDict (assoc_set "commit_count"
                                (JInt (Z.of_nat (length cs))) md));
                      ("commits", JList cs)])).
Proof.
  intros results st. exists []; split; [constructor|].
  cbn. now rewrite app_nil_r.
Qed.

(** [main] either prints exactly the report, or writes a diagnostic and
    exits with status 1 having printed nothing. *)
Theorem commits_main_emits (start_ref end_ref : string) :
  emits (Commits.main_body w start_ref end_ref)
        (CommitsReport.report w start_ref end_ref).
Proof.
  unfold Commits.main_body, CommitsReport.report, CommitsReport.complete,
    preconditions, CommitsReport.listing, lines.
  cbv zeta.
  eapply emits_bind; [apply runs_git_check| |].
  2:{ intros H. destruct (os_path_exists w ".git"); [discriminate|reflexivity]. }
  intros ? H. destruct (os_path_exists w ".git"); [clear H|discriminate].
  cbn [andb].
  eapply emits_bind; [apply runs_validate| |].
  2:{ intros H.
      destruct (ok w (Git.cmd_rev_parse start_ref)
                && ok w (Git.cmd_rev_parse end_ref)); [discriminate|reflexivity]. }
  intros ? H.
  destruct (ok w (Git.cmd_rev_parse start_ref)
            && ok w (Git.cmd_rev_parse end_ref)); [clear H|discriminate].
  eapply emits_bind; [apply runs_eprint, benign_analyzing| |discriminate].
  intros ? _.
  eapply emits_bind; [apply runs_get_commits_between_refs| |].
  2:{ cbv zeta. intros H.
      destruct (ok w (Git.cmd_log_no_merges_path start_ref end_ref
                        "kernel/bpf/verifier.c")) eqn:E; [discriminate|].
      unfold target_file. now rewrite E. }
  cbv zeta. intros commits H.
  unfold target_file.
  destruct (ok w (Git.cmd_log_no_merges_path start_ref end_ref
                    "kernel/bpf/verifier.c")); [|discriminate].
  injection H as <-. cbn [andb].
  eapply emits_bind; [apply runs_commit_loop| |].
  2:{ intros H.
      match goal with
      | |- (if ?b then _ else _) = _ => destruct b; [discriminate|reflexivity]
      end. }
  intros results H.
  match goal with
  | |- emits _ (if ?b then _ else _) => destruct b; [|discriminate]
  end.
  injection H as <-.
  exact (commits_tail _ _).
Qed.

End CommitsFacts.

(* ================================================================== *)
(** * The Patchset Reporter prints its report or exits *)
(* ================================================================== *)

Section PatchsetsFacts.

Variable w : world.

Lemma benign_found (s : string) : benign ("Found (" ++ s).
Proof. unfold benign, handler_line; simpl; discriminate. Qed.

Lemma runs_get_merge_commits (start_ref end_ref : string) :
  runs (Patchsets.get_merge_commits w start_ref end_ref)
       (let cmd := Git.cmd_log_merges start_ref end_ref in
        if ok w cmd
        then Some (if truthy (output w cmd) then split LF (output w cmd) else [])
        else None).
Proof.
  unfold Patchsets.get_merge_commits, Git.cmd_log_merges.
  cbv zeta. apply runs_bind_run; intros H; rewrite H; [apply runs_ret|reflexivity].
Qed.

Lemma runs_get_commits_in_merge (p1 p2 : string) :
  runs (Patchsets.get_commits_in_merge w p1 p2)
       (let cmd := Git.cmd_log_reverse_no_merges p1 p2 in
        if ok w cmd
        then Some (if truthy (output w cmd) then split LF (output w cmd) else [])
        else None).
Proof.
  unfold Patchsets.get_commits_in_merge, Git.cmd_log_reverse_no_merges.
  cbv zeta. apply runs_bind_run; intros H; rewrite H; [apply runs_ret|reflexivity].
Qed.

Lemma runs_check_merge_contains_merges (p1 p2 : string) :
  runs (Patchsets.check_merge_contains_merges w p1 p2)
       (let cmd := Git.cmd_log_merges_oneline p1 p2 in
        if ok w cmd then Some (truthy (output w cmd)) else None).
Proof.
  unfold Patchsets.check_merge_contains_merges, Git.cmd_log_merges_oneline.
  cbv zeta. apply runs_bind_run; intros H; rewrite H; [apply runs_ret|reflexivity].
Qed.

Lemma runs_check_merge_affects_verifier (p1 p2 f : string) :
  runs (Patchsets.check_merge_affects_verifier w p1 p2 f)
       (let cmd := Git.cmd_log_oneline_path p1 p2 f in
        if ok w cmd then Some (truthy (output w cmd)) else None).
Proof.
  unfold Patchsets.check_merge_affects_verifier, Git.cmd_log_oneline_path.
  cbv zeta. apply runs_bind_run; intros H; rewrite H; [apply runs_ret|reflexivity].
Qed.

Lemma runs_patchsets_get_commit_details (h : string) :
  runs (Patchsets.get_commit_details w h)
       (if forallb (ok w) (PatchsetsReport.commit_queries h)
        then Some (PatchsetsReport.record w h) else None).
Proof.
  unfold Patchsets.get_commit_details, PatchsetsReport.commit_queries,
    Git.cmd_subject, Git.cmd_body, Git.cmd_files, Git.cmd_author, Git.cmd_date.
  cbn [forallb].
  apply runs_bind_run; intros H1; rewrite H1; [|reflexivity].
  apply runs_bind_run; intros H2; rewrite H2; [|reflexivity].
  apply runs_bind_run; intros H3; rewrite H3; [|reflexivity].
  apply runs_bind_run; intros H4; rewrite H4; [|reflexivity].
  apply runs_bind_run; intros H5; rewrite H5; [|reflexivity].
  apply runs_ret.
Qed.

Lemma runs_get_merge_details (m : string) :
  runs (Patchsets.get_merge_details w m)
       (if forallb (ok w) (PatchsetsReport.merge_queries m)
        then Some (Patchsets.mkMerge m
                     (output w (Git.cmd_subject m)) (output w (Git.cmd_body m))
                     (output w (Git.cmd_author m)) (output w (Git.cmd_date m))
                     (PatchsetsReport.parent1 w m) (PatchsetsReport.parent2 w m))
        else None).
Proof.
  unfold Patchsets.get_merge_details, PatchsetsReport.merge_queries,
    PatchsetsReport.parent1, PatchsetsReport.parent2,
    Git.cmd_subject, Git.cmd_body, Git.cmd_parent1, Git.cmd_parent2,
    Git.cmd_author, Git.cmd_date.
  cbn [forallb].
  apply runs_bind_run; intros H1; rewrite H1; [|reflexivity].
  apply runs_bind_run; intros H2; rewrite H2; [|reflexivity].
  apply runs_bind_run; intros H3; rewrite H3; [|reflexivity].
  apply runs_bind_run; intros H4; rewrite H4; [|reflexivity].
  apply runs_bind_run; intros H5; rewrite H5; [|reflexivity].
  apply runs_bind_run; intros H6; rewrite H6; [|reflexivity].
  apply runs_ret.
Qed.

Lemma runs_payload_loop (l : list string) (acc : list json) :
  runs (for_each l
          (fun commit_hash commits =>
             if truthy commit_hash
             then bind (Patchsets.get_commit_details w commit_hash)
                    (fun commit_details =>
                       ret (commits ++ [commit_details])%list)
             else ret commits)
          acc)
       (if forallb (fun h => forallb (ok w) (PatchsetsReport.commit_queries h))
             (filter truthy l)
        then Some (acc ++ map (PatchsetsReport.record w) (filter truthy l))%list
        else None).
Proof.
  revert acc. induction l as [|h l IH]; intro acc.
  - simpl. rewrite app_nil_r. apply runs_ret.
  - cbn [for_each filter]. destruct (truthy h) eqn:Hh.
    + cbn [forallb map].
      eapply runs_bind.
      * eapply runs_bind with
          (rk := if forallb (ok w) (PatchsetsReport.commit_queries h)
                 then Some (acc ++ [PatchsetsReport.record w h])%list else None);
          [apply runs_patchsets_get_commit_details| |].
        -- intros d Hd.
           destruct (forallb (ok w) (PatchsetsReport.commit_queries h));
             [|discriminate].
           injection Hd as <-. apply runs_ret.
        -- intros Hd.
           destruct (forallb (ok w) (PatchsetsReport.commit_queries h));
             [discriminate|reflexivity].
      * intros a Ha.
        destruct (forallb (ok w) (PatchsetsReport.commit_queries h));
          [|discriminate].
        injection Ha as <-. cbn [andb].
        eapply runs_eq; [apply IH|].
        now rewrite <- app_assoc.
      * intros Hd.
        destruct (forallb (ok w) (PatchsetsReport.commit_queries h));
          [discriminate|reflexivity].
    + eapply runs_bind; [apply runs_ret| |discriminate].
      intros a Ha. injection Ha as <-. apply IH.
Qed.

Lemma runs_process_merge (m : string) (md : json) (acc : list json) :
  runs (Patchsets.process_merge w target_file m
          (JDict [("metadata", md); ("patchsets", JList acc)]))
       (if truthy m
        then
          if PatchsetsReport.merge_complete w m
          then Some (JDict [("metadata", md);
                            ("patchsets",
                             JList (if PatchsetsReport.accepted w m
                                    then acc ++ [PatchsetsReport.patchset w m]
                                    else acc)%list)])
          else None
        else Some (JDict [("metadata", md); ("patchsets", JList acc)])).
Proof.
  unfold Patchsets.process_merge.
  destruct (truthy m) eqn:Hm; cbn [negb]; [|apply runs_ret].
  unfold PatchsetsReport.merge_complete, PatchsetsReport.accepted,
    PatchsetsReport.nested, PatchsetsReport.tagged, PatchsetsReport.relevant,
    PatchsetsReport.patchset,
    PatchsetsReport.nested_query, PatchsetsReport.relevance_query,
    PatchsetsReport.payload_query.
  eapply runs_bind; [apply runs_get_merge_details| |].
  2:{ intros H.
      destruct (forallb (ok w) (PatchsetsReport.merge_queries m));
        [discriminate|reflexivity]. }
  intros d Hd.
  destruct (forallb (ok w) (PatchsetsReport.merge_queries m)); [|discriminate].
  injection Hd as <-.
  cbn [Patchsets.m_parent1 Patchsets.m_parent2 Patchsets.m_subject
       Patchsets.m_body Patchsets.m_author Patchsets.m_date andb].
  eapply runs_bind; [apply runs_check_merge_contains_merges| |].
  2:{ cbv zeta. intros H.
      destruct (ok w (Git.cmd_log_merges_oneline (PatchsetsReport.parent1 w m)
                        (PatchsetsReport.parent2 w m)));
        [discriminate|reflexivity]. }
  cbv zeta. intros nested Hn.
  destruct (ok w (Git.cmd_log_merges_oneline (PatchsetsReport.parent1 w m)
                    (PatchsetsReport.parent2 w m))); [|discriminate].
  injection Hn as <-. cbn [andb].
  destruct (truthy (output w (Git.cmd_log_merges_oneline
                                (PatchsetsReport.parent1 w m)
                                (PatchsetsReport.parent2 w m))));
    cbn [orb negb andb]; [apply runs_ret|].
  destruct (str_in "Merge tag" (output w (Git.cmd_subject m)));
    cbn [orb negb andb]; [apply runs_ret|].
  eapply runs_bind; [apply runs_check_merge_affects_verifier| |].
  2:{ cbv zeta. intros H.
      destruct (ok w (Git.cmd_log_oneline_path (PatchsetsReport.parent1 w m)
                        (PatchsetsReport.parent2 w m) target_file));
        [discriminate|reflexivity]. }
  cbv zeta. intros affects Ha.
  destruct (ok w (Git.cmd_log_oneline_path (PatchsetsReport.parent1 w m)
                    (PatchsetsReport.parent2 w m) target_file)); [|discriminate].
  injection Ha as <-. cbn [andb].
  destruct (truthy (output w (Git.cmd_log_oneline_path
                                (PatchsetsReport.parent1 w m)
                                (PatchsetsReport.parent2 w m) target_file)));
    cbn [orb negb andb]; [|apply runs_ret].
  eapply runs_bind; [apply runs_eprint, benign_found| |discriminate].
  intros ? _.
  eapply runs_bind; [apply runs_get_commits_in_merge| |].
  2:{ cbv zeta. intros H.
      destruct (ok w (Git.cmd_log_reverse_no_merges
                        (PatchsetsReport.parent1 w m)
                        (PatchsetsReport.parent2 w m)));
        [discriminate|reflexivity]. }
  cbv zeta. intros hs Hh.
  destruct (ok w (Git.cmd_log_reverse_no_merges (PatchsetsReport.parent1 w m)
                    (PatchsetsReport.parent2 w m))); [|discriminate].
  injection Hh as <-. cbn [andb].
  eapply runs_bind; [apply runs_payload_loop| |].
  2:{ intros H. unfold lines.
      match type of H with
      | (if ?b then _ else _) = _ => destruct b; [discriminate|reflexivity]
      end. }
  intros cs Hc. unfold lines.
  match type of Hc with
  | (if ?b then _ else _) = _ => destruct b; [|discriminate]
  end.
  injection Hc as <-. cbn [app].
  cbn [getitem assoc String.eqb Ascii.eqb Bool.eqb bind ret append setitem
       assoc_set].
  apply runs_ret.
Qed.

Lemma runs_merge_loop (l : list string) (md : json) (acc : list json) :
  runs (for_each l (Patchsets.process_merge w target_file)
          (JDict [("metadata", md); ("patchsets", JList acc)]))
       (if forallb (PatchsetsReport.merge_complete w) (filter truthy l)
        then Some (JDict [("metadata", md);
                          ("patchsets",
                           JList (acc ++ map (PatchsetsReport.patchset w)
                                           (filter (PatchsetsReport.accepted w)
                                              (filter truthy l)))%list)])
        else None).
Proof.
  revert acc. induction l as [|m l IH]; intro acc.
  - simpl. rewrite app_nil_r. apply runs_ret.
  - cbn [for_each filter].
    eapply runs_bind; [apply runs_process_merge| |].
    + intros a Ha. destruct (truthy m).
      * cbn [forallb filter].
        destruct (PatchsetsReport.merge_complete w m); [|discriminate].
        injection Ha as <-. cbn [andb].
        destruct (PatchsetsReport.accepted w m).
        -- cbn [map]. eapply runs_eq; [apply IH|]. now rewrite <- app_assoc.
        -- apply IH.
      * injection Ha as <-. apply IH.
    + intros Ha. destruct (truthy m); [|discriminate].
      cbn [forallb filter].
      destruct (PatchsetsReport.merge_complete w m); [discriminate|reflexivity].
Qed.

Lemma patchsets_tail (md : list (string * json)) (ps : list json) :
  let results := JDict [("metadata", JDict md); ("patchsets", JList ps)] in
  emits (bind (getitem results "patchsets")
           (fun l => bind (len l)
              (fun n => bind (getitem results "metadata")
                 (fun metadata =>
                    bind (setitem metadata "patchset_count" (JInt n))
                      (fun metadata =>
                         bind (setitem results "metadata" metadata)
                           (fun results => print (json_dumps results)))))))
        (Some (JDict [("metadata",
                       JDict (assoc_set "patchset_count"
                                (JInt (Z.of_nat (length ps))) md));
                      ("patchsets", JList ps)])).
Proof.
  intros results st. exists []; split; [constructor|].
  cbn. now rewrite app_nil_r.
Qed.

(** [main] either prints exactly the report, or writes a diagnostic and
    exits with status 1 having printed nothing. *)
Theorem patchsets_main_emits (start_ref end_ref : string) :
  emits (Patchsets.main_body w start_ref end_ref)
        (PatchsetsReport.report w start_ref end_ref).
Proof.
  unfold Patchsets.main_body, PatchsetsReport.report, PatchsetsReport.complete,
    preconditions, PatchsetsReport.listing, lines.
  cbv zeta.
  eapply emits_bind; [apply runs_git_check| |].
  2:{ intros H. destruct (os_path_exists w ".git"); [discriminate|reflexivity]. }
  intros ? H. destruct (os_path_exists w ".git"); [clear H|discriminate].
  cbn [andb].
  eapply emits_bind; [apply runs_validate| |].
  2:{ intros H.
      destruct (ok w (Git.cmd_rev_parse start_ref)
                && ok w (Git.cmd_rev_parse end_ref)); [discriminate|reflexivity]. }
  intros ? H.
  destruct (ok w (Git.cmd_rev_parse start_ref)
            && ok w (Git.cmd_rev_parse end_ref)); [clear H|discriminate].
  eapply emits_bind; [apply runs_eprint, benign_analyzing| |discriminate].
  intros ? _.
  eapply emits_bind; [apply runs_get_merge_commits| |].
  2:{ cbv zeta. intros H.
      destruct (ok w (Git.cmd_log_merges start_ref end_ref)) eqn:E;
        [discriminate|reflexivity]. }
  cbv zeta. intros merges H.
  destruct (ok w (Git.cmd_log_merges start_ref end_ref)); [|discriminate].
  injection H as <-. cbn [andb].
  eapply emits_bind; [apply runs_merge_loop| |].
  2:{ intros H.
      match goal with
      | |- (if ?b then _ else _) = _ => destruct b; [discriminate|reflexivity]
      end. }
  intros results H.
  match goal with
  | |- emits _ (if ?b then _ else _) => destruct b; [|discriminate]
  end.
  injection H as <-.
  exact (patchsets_tail _ _).
Qed.

End PatchsetsFacts.

(* ================================================================== *)
(** * Either tool *)
(* ================================================================== *)

Section ToolFacts.

Variable w : world.

Lemma Run_emits (t : tool) (start_ref end_ref : string) :
  emits (Run t w start_ref end_ref) (report t w start_ref end_ref).
Proof.
  destruct t; [apply commits_main_emits|apply patchsets_main_emits].
Qed.

(** A run that ends normally printed the document of [report]. *)
Lemma Run_ok (t : tool) (start_ref end_ref : string) (st : streams) :
  Run t w start_ref end_ref fresh = (Ok tt, st) ->
  exists j, report t w start_ref end_ref = Some j
            /\ sys_stdout st = [json_dumps j].
Proof.
  intro H. destruct (Run_emits t start_ref end_ref fresh) as [extra [_ E]].
  destruct (report t w start_ref end_ref) as [j|].
  - exists j; split; [reflexivity|].
    rewrite E in H. injection H as <-. reflexivity.
  - destruct E as [_ E]. rewrite E in H. discriminate.
Qed.

(** A run with a report ends normally and prints it. *)
Lemma Run_report (t : tool) (start_ref end_ref : string) (j : json) :
  report t w start_ref end_ref = Some j ->
  exists err, Run t w start_ref end_ref fresh
              = (Ok tt, mkStreams [json_dumps j] err).
Proof.
  intro H. destruct (Run_emits t start_ref end_ref fresh) as [extra [_ E]].
  rewrite H in E. exists extra. exact E.
Qed.

Lemma run_command_any (t : tool) (cmd : string) :
  run_command t w cmd = Commits.run_command w cmd.
Proof. now destruct t. Qed.

End ToolFacts.

(* ================================================================== *)
(** * Counts, streams and the dead handler *)
(* ================================================================== *)

(** C2: for every report either tool generates, the count field of
    [metadata] equals the length of the corresponding collection:
    [commit_count] is the number of elements of [commits] (Commit History
    Reporter) and [patchset_count] the number of elements of [patchsets]
    (Patchset Reporter). *)
Theorem count_equals_length (t : tool) (w : world)
    (start_ref end_ref : string) (st : streams) :
  Run t w start_ref end_ref fresh = (Ok tt, st) ->
  exists j, report t w start_ref end_ref = Some j
            /\ sys_stdout st = [json_dumps j]
            /\ count_agrees (count_key t) (items_key t) j.
Proof.
  intro H. destruct (Run_ok w t start_ref end_ref st H) as [j [Hj Hout]].
  exists j; repeat split; try assumption.
  destruct t; simpl in Hj.
  - unfold CommitsReport.report in Hj.
    destruct (CommitsReport.complete w start_ref end_ref); [|discriminate].
    injection Hj as <-. unfold count_agrees, CommitsReport.document.
    eexists; eexists; repeat split.
  - unfold PatchsetsReport.report in Hj.
    destruct (PatchsetsReport.complete w start_ref end_ref); [|discriminate].
    injection Hj as <-. unfold count_agrees, PatchsetsReport.document.
    eexists; eexists; repeat split.
Qed.

Lemma count_equals_length_witness :
  (exists j,
     report CommitHistoryReporter (Example.in_kernel "v1.0" "master")
       "v1.0" "master" = Some j
     /\ sys_stdout (snd (Example.kernel_run CommitHistoryReporter))
        = [json_dumps j]
     /\ count_agrees "commit_count" "commits" j)
  /\ (exists j,
        report PatchsetReporter (Example.in_kernel "v1.0" "master")
          "v1.0" "master" = Some j
        /\ sys_stdout (snd (Example.kernel_run PatchsetReporter))
           = [json_dumps j]
        /\ count_agrees "patchset_count" "patchsets" j).
Proof.
  split.
  - apply (count_equals_length CommitHistoryReporter). vm_compute. reflexivity.
  - apply (count_equals_length PatchsetReporter). vm_compute. reflexivity.
Defined.

(** C8, amended: in every execution of either tool that gets past the
    argument parser, with [args.start_ref] and [args.end_ref], standard
    output receives exactly one JSON document, printed by the one [print]
    at the end of a successful run, or nothing at all: a run that fails
    writes its diagnostics to standard error only and exits with
    status 1 with standard output still empty. *)
Theorem stdout_one_document_or_nothing (t : tool) (w : world)
    (start_ref end_ref : string) :
  one_document (fst (Run t w start_ref end_ref fresh))
               (snd (Run t w start_ref end_ref fresh))
  \/ silent_failure (fst (Run t w start_ref end_ref fresh))
                    (snd (Run t w start_ref end_ref fresh)).
Proof.
  destruct (Run_emits w t start_ref end_ref fresh) as [extra [_ E]].
  destruct (report t w start_ref end_ref) as [j|].
  - left. rewrite E. unfold one_document; simpl.
    repeat split. now exists j.
  - right. destruct E as [Hne E]. rewrite E.
    unfold silent_failure; simpl. repeat split. exact Hne.
Qed.

Lemma validate_eq (t : tool) (w : world) (start_ref end_ref : string)
    (st : streams) :
  validate t w start_ref end_ref st =
  if ok w (Git.cmd_rev_parse start_ref)
  then if ok w (Git.cmd_rev_parse end_ref)
       then (Ok tt, st)
       else (SystemExit 1,
             mkStreams (sys_stdout st)
               (sys_stderr st
                ++ command_failure w (Git.cmd_rev_parse end_ref))%list)
  else (SystemExit 1,
        mkStreams (sys_stdout st)
          (sys_stderr st
           ++ command_failure w (Git.cmd_rev_parse start_ref))%list).
Proof.
  unfold validate, bind, Git.cmd_rev_parse, command_failure.
  rewrite !run_command_any, run_command_eq.
  destruct (ok w ("git rev-parse " ++ start_ref)); [|reflexivity].
  rewrite run_command_eq.
  destruct (ok w ("git rev-parse " ++ end_ref)); reflexivity.
Qed.

(** [main] up to the end of the [try] block, when [.git] exists. *)
Lemma Run_validate (t : tool) (w : world) (start_ref end_ref : string) :
  os_path_exists w ".git" = true ->
  forall c err, validate t w start_ref end_ref fresh
                = (SystemExit c, err) ->
  Run t w start_ref end_ref fresh = (SystemExit c, err).
Proof.
  intros Hgit c err Hv.
  destruct t; unfold Run, Commits.main_body, Patchsets.main_body;
    unfold validate, run_command in Hv;
    unfold bind at 1; rewrite Hgit; cbn [negb];
    change (ret tt fresh) with (@Ok unit tt, fresh); cbv iota;
    unfold bind at 1; unfold try_except_cpe; rewrite Hv; reflexivity.
Qed.

(** C9: in both tools the [except CalledProcessError] handler around the
    two [rev-parse] calls, the one that prints "One or both git references
    do not exist", is unreachable.  [run_command] never raises to its
    caller; the [try] block behaves the same whatever its handler is; no
    run prints the handler's line; and a reference that does not resolve
    ends the run inside [run_command], with status 1 and the two lines of
    the generic command-failure message. *)
Theorem handler_unreachable (t : tool) (w : world)
    (start_ref end_ref : string) :
  (forall cmd st e, fst (run_command t w cmd st) <> Raised e)
  /\ (forall handler st,
        try_except_cpe (validate t w start_ref end_ref) handler st
        = validate t w start_ref end_ref st)
  /\ ~ In handler_line (sys_stderr (snd (Run t w start_ref end_ref fresh)))
  /\ (os_path_exists w ".git" = true ->
      ok w (Git.cmd_rev_parse start_ref) && ok w (Git.cmd_rev_parse end_ref)
      = false ->
      Run t w start_ref end_ref fresh
      = (SystemExit 1,
         mkStreams []
           (command_failure w
              (if ok w (Git.cmd_rev_parse start_ref)
               then Git.cmd_rev_parse end_ref
               else Git.cmd_rev_parse start_ref)))).
Proof.
  repeat split.
  - intros cmd st e. rewrite run_command_any, run_command_eq.
    destruct (ok w cmd); discriminate.
  - intros handler st. unfold try_except_cpe. rewrite validate_eq.
    destruct (ok w (Git.cmd_rev_parse start_ref)); [|reflexivity].
    destruct (ok w (Git.cmd_rev_parse end_ref)); reflexivity.
  - destruct (Run_emits w t start_ref end_ref fresh) as [extra [F E]].
    assert (Herr : sys_stderr (snd (Run t w start_ref end_ref fresh)) = extra).
    { destruct (report t w start_ref end_ref);
        [rewrite E|destruct E as [_ E]; rewrite E]; reflexivity. }
    rewrite Herr. intro Hin.
    rewrite Forall_forall in F. now apply (F _ Hin).
  - intros Hgit Hbad. apply Run_validate; [assumption|].
    rewrite validate_eq.
    destruct (ok w (Git.cmd_rev_parse start_ref)); [|reflexivity].
    destruct (ok w (Git.cmd_rev_parse end_ref)); [discriminate|reflexivity].
Qed.

Lemma handler_unreachable_witness :
  Run PatchsetReporter (Example.in_kernel "v9.9" "master") "v9.9" "master" fresh
  = (SystemExit 1,
     mkStreams []
       [ "Error executing command: git rev-parse v9.9";
         "Error details: fatal: bad revision" ]).
Proof.
  apply (handler_unreachable PatchsetReporter
           (Example.in_kernel "v9.9" "master") "v9.9" "master");
    vm_compute; reflexivity.
Defined.

(* ================================================================== *)
(** * The text of an answer, line by line *)
(* ================================================================== *)

Lemma space_not_CR (a : ascii) : isspace a = false -> Ascii.eqb a CR = false.
Proof.
  intro H. destruct (Ascii.eqb a CR) eqn:E; [|reflexivity].
  apply Ascii.eqb_eq in E. subst a. discriminate H.
Qed.

Lemma space_not_LF (a : ascii) : isspace a = false -> Ascii.eqb a LF = false.
Proof.
  intro H. destruct (Ascii.eqb a LF) eqn:E; [|reflexivity].
  apply Ascii.eqb_eq in E. subst a. discriminate H.
Qed.

Lemma word_no_cr (s : string) : Git.no_space s = true -> no_cr s = true.
Proof.
  induction s as [|a s IH]; simpl; [reflexivity|].
  intro H. apply andb_prop in H as [Ha Hs].
  apply negb_true_iff in Ha. now rewrite (space_not_CR a Ha), (IH Hs).
Qed.

Lemma word_one_line (s : string) : Git.no_space s = true -> one_line s = true.
Proof.
  induction s as [|a s IH]; simpl; [reflexivity|].
  intro H. apply andb_prop in H as [Ha Hs].
  apply negb_true_iff in Ha. now rewrite (space_not_LF a Ha), (IH Hs).
Qed.

Lemma no_cr_app (s t : string) : no_cr (s ++ t) = no_cr s && no_cr t.
Proof.
  induction s as [|a s IH]; simpl; [reflexivity|].
  now rewrite IH, andb_assoc.
Qed.

(** Text without a carriage return is read as it is. *)
Lemma universal_newlines_id (s : string) :
  no_cr s = true -> universal_newlines s = s.
Proof.
  unfold universal_newlines.
  induction s as [|a s IH]; simpl; [reflexivity|].
  intro H. apply andb_prop in H as [Ha Hs]. apply negb_true_iff in Ha.
  now rewrite Ha, andb_false_r, (IH Hs).
Qed.

Lemma blank_translate (b : bool) (s : string) :
  blank (translate_newlines b s) = blank s.
Proof.
  revert b. induction s as [|a s IH]; intro b; simpl; [reflexivity|].
  destruct (Ascii.eqb a CR) eqn:E1.
  - apply Ascii.eqb_eq in E1. subst a. simpl. now rewrite IH.
  - destruct (Ascii.eqb a LF) eqn:E2; simpl.
    + apply Ascii.eqb_eq in E2. subst a.
      destruct b; simpl; now rewrite IH.
    + now rewrite IH.
Qed.

Lemma blank_app (s t : string) : blank (s ++ t) = blank s && blank t.
Proof.
  induction s as [|a s IH]; simpl; [reflexivity|].
  now rewrite IH, andb_assoc.
Qed.

(** ** [split] *)

Lemma split_one_line (s : string) : one_line s = true -> split LF s = [s].
Proof.
  induction s as [|a s IH]; simpl; [reflexivity|].
  intro H. apply andb_prop in H as [Ha Hs]. apply negb_true_iff in Ha.
  now rewrite Ha, (IH Hs).
Qed.

Lemma split_line (s t : string) :
  one_line s = true -> split LF (s ++ String LF t) = s :: split LF t.
Proof.
  induction s as [|a s IH]; simpl.
  - intros _. reflexivity.
  - intro H. apply andb_prop in H as [Ha Hs]. apply negb_true_iff in Ha.
    now rewrite Ha, (IH Hs).
Qed.

(** The pieces of a [split] on the newline are on one line each. *)
Lemma split_pieces (s : string) : forallb one_line (split LF s) = true.
Proof.
  induction s as [|a s IH]; simpl; [reflexivity|].
  destruct (Ascii.eqb a LF) eqn:E; [exact IH|].
  destruct (split LF s) as [|x xs]; simpl in *.
  - now rewrite E.
  - now rewrite E.
Qed.

Lemma split_separated (h : string) (hs : list string) :
  forallb one_line (h :: hs) = true ->
  split LF (Git.separated (h :: hs)) = h :: hs.
Proof.
  revert h. induction hs as [|h' hs IH]; intros h H; simpl in H.
  - apply andb_prop in H as [Hh _]. now apply split_one_line.
  - apply andb_prop in H as [Hh Hs].
    change (Git.separated (h :: h' :: hs))
      with (h ++ String LF (Git.separated (h' :: hs))).
    rewrite (split_line _ _ Hh). f_equal. now apply IH.
Qed.

Lemma filter_truthy_words (hs : list string) :
  forallb Git.word hs = true -> filter truthy hs = hs.
Proof.
  induction hs as [|h hs IH]; simpl; [reflexivity|].
  intro H. apply andb_prop in H as [Hh Hs].
  unfold Git.word in Hh. apply andb_prop in Hh as [Ht _].
  now rewrite Ht, (IH Hs).
Qed.

Lemma words_one_line (hs : list string) :
  forallb Git.word hs = true -> forallb one_line hs = true.
Proof.
  induction hs as [|h hs IH]; simpl; [reflexivity|].
  intro H. apply andb_prop in H as [Hh Hs].
  apply andb_prop in Hh as [_ Hn].
  now rewrite (word_one_line h Hn), (IH Hs).
Qed.

Lemma truthy_app (s t : string) : truthy s = true -> truthy (s ++ t) = true.
Proof. now destruct s. Qed.

Lemma truthy_separated (h : string) (hs : list string) :
  truthy h = true -> truthy (Git.separated (h :: hs)) = true.
Proof.
  intro H. destruct hs; [exact H|].
  change (truthy (h ++ String LF (Git.separated (s :: hs))) = true).
  now apply truthy_app.
Qed.

(** The loops over a list of hashes see the hashes. *)
Lemma lines_separated (hs : list string) :
  forallb Git.word hs = true ->
  filter truthy (if truthy (Git.separated hs)
                 then split LF (Git.separated hs) else []) = hs.
Proof.
  intro H. destruct hs as [|h hs]; [reflexivity|].
  assert (Ht : truthy h = true).
  { simpl in H. apply andb_prop in H as [Hh _].
    now apply andb_prop in Hh as [Ht _]. }
  rewrite (truthy_separated h hs Ht).
  rewrite (split_separated h hs (words_one_line _ H)).
  now apply filter_truthy_words.
Qed.

(** ** Lists of hashes as text *)

Lemma word_starts_clean (s : string) : Git.word s = true -> starts_clean s = true.
Proof.
  unfold Git.word. destruct s as [|a s]; simpl; [discriminate|].
  intro H. now apply andb_prop in H as [Ha _].
Qed.

Lemma starts_clean_app (s t : string) :
  truthy s = true -> starts_clean (s ++ t) = starts_clean s.
Proof. now destruct s. Qed.

Lemma rstrip_separated (hs : list string) :
  forallb Git.word hs = true -> rstrip (Git.separated hs) = Git.separated hs.
Proof.
  induction hs as [|h hs IH]; [reflexivity|].
  intro H. simpl in H. apply andb_prop in H as [Hh Hs].
  apply andb_prop in Hh as [Ht Hn].
  destruct hs as [|h' hs]; [now apply rstrip_word|].
  change (Git.separated (h :: h' :: hs))
    with (h ++ String LF (Git.separated (h' :: hs))).
  rewrite rstrip_app.
  change (rstrip (String LF (Git.separated (h' :: hs))))
    with (match rstrip (Git.separated (h' :: hs)) with
          | EmptyString =>
              if isspace LF then EmptyString else String LF EmptyString
          | r => String LF r
          end).
  rewrite (IH Hs).
  assert (T : truthy (Git.separated (h' :: hs)) = true).
  { apply truthy_separated. simpl in Hs. apply andb_prop in Hs as [Hh' _].
    now apply andb_prop in Hh' as [T _]. }
  destruct (Git.separated (h' :: hs)); [discriminate T|reflexivity].
Qed.

Lemma rstrip_terminated (hs : list string) :
  forallb Git.word hs = true -> rstrip (Git.terminated hs) = Git.separated hs.
Proof.
  induction hs as [|h hs IH]; [reflexivity|].
  intro H. simpl in H. apply andb_prop in H as [Hh Hs].
  apply andb_prop in Hh as [Ht Hn].
  change (Git.terminated (h :: hs)) with (h ++ String LF (Git.terminated hs)).
  rewrite rstrip_app.
  change (rstrip (String LF (Git.terminated hs)))
    with (match rstrip (Git.terminated hs) with
          | EmptyString =>
              if isspace LF then EmptyString else String LF EmptyString
          | r => String LF r
          end).
  rewrite (IH Hs).
  destruct hs as [|h' hs]; [now apply rstrip_word|].
  assert (T : truthy (Git.separated (h' :: hs)) = true).
  { apply truthy_separated. simpl in Hs. apply andb_prop in Hs as [Hh' _].
    now apply andb_prop in Hh' as [T _]. }
  change (Git.separated (h :: h' :: hs))
    with (h ++ String LF (Git.separated (h' :: hs))).
  destruct (Git.separated (h' :: hs)); [discriminate T|reflexivity].
Qed.

Lemma strip_separated (hs : list string) :
  forallb Git.word hs = true -> strip (Git.separated hs) = Git.separated hs.
Proof.
  intro H. unfold strip. rewrite lstrip_clean; [now apply rstrip_separated|].
  destruct hs as [|h hs]; [reflexivity|].
  simpl in H. apply andb_prop in H as [Hh _].
  destruct hs as [|h' hs]; [now apply word_starts_clean|].
  change (Git.separated (h :: h' :: hs))
    with (h ++ String LF (Git.separated (h' :: hs))).
  rewrite starts_clean_app; [now apply word_starts_clean|].
  now apply andb_prop in Hh as [T _].
Qed.

Lemma strip_terminated (hs : list string) :
  forallb Git.word hs = true -> strip (Git.terminated hs) = Git.separated hs.
Proof.
  intro H. unfold strip. rewrite lstrip_clean; [now apply rstrip_terminated|].
  destruct hs as [|h hs]; [reflexivity|].
  simpl in H. apply andb_prop in H as [Hh _].
  change (Git.terminated (h :: hs)) with (h ++ String LF (Git.terminated hs)).
  rewrite starts_clean_app; [now apply word_starts_clean|].
  now apply andb_prop in Hh as [T _].
Qed.

Lemma no_cr_terminated (hs : list string) :
  forallb Git.word hs = true -> no_cr (Git.terminated hs) = true.
Proof.
  induction hs as [|h hs IH]; [reflexivity|].
  intro H. simpl in H. apply andb_prop in H as [Hh Hs].
  apply andb_prop in Hh as [_ Hn].
  change (Git.terminated (h :: hs)) with (h ++ String LF (Git.terminated hs)).
  rewrite no_cr_app, (word_no_cr h Hn). simpl. now apply IH.
Qed.

Lemma no_cr_separated (hs : list string) :
  forallb Git.word hs = true -> no_cr (Git.separated hs) = true.
Proof.
  induction hs as [|h hs IH]; [reflexivity|].
  intro H. simpl in H. apply andb_prop in H as [Hh Hs].
  apply andb_prop in Hh as [_ Hn].
  destruct hs as [|h' hs]; [now apply word_no_cr|].
  change (Git.separated (h :: h' :: hs))
    with (h ++ String LF (Git.separated (h' :: hs))).
  rewrite no_cr_app, (word_no_cr h Hn). simpl. now apply IH.
Qed.

Section Answers.

Variable w : world.

(** A query answered with one hash per line is read as these hashes. *)
Lemma lines_terminated (cmd : string) (hs : list string) :
  forallb Git.word hs = true ->
  stdout (shell w cmd) = Git.terminated hs ->
  lines w cmd = hs.
Proof.
  intros H E. unfold lines, output. rewrite E.
  rewrite (universal_newlines_id _ (no_cr_terminated hs H)).
  rewrite (strip_terminated hs H). now apply lines_separated.
Qed.

Lemma lines_separated_answer (cmd : string) (hs : list string) :
  forallb Git.word hs = true ->
  stdout (shell w cmd) = Git.separated hs ->
  lines w cmd = hs.
Proof.
  intros H E. unfold lines, output. rewrite E.
  rewrite (universal_newlines_id _ (no_cr_separated hs H)).
  rewrite (strip_separated hs H). now apply lines_separated.
Qed.

(** A query answers nothing exactly when its output is white space. *)
Lemma truthy_output (cmd : string) :
  truthy (output w cmd) = negb (blank (stdout (shell w cmd))).
Proof.
  unfold output, universal_newlines.
  now rewrite truthy_strip, blank_translate.
Qed.

End Answers.

(* ================================================================== *)
(** * Facts about histories *)
(* ================================================================== *)

Lemma mem_In (x : string) (l : list string) : Git.mem x l = true <-> In x l.
Proof.
  unfold Git.mem. rewrite existsb_exists. split.
  - intros [y [Hy E]]. apply String.eqb_eq in E. now subst y.
  - intro H. exists x. split; [assumption|apply String.eqb_refl].
Qed.

Lemma mem_not_In (x : string) (l : list string) :
  Git.mem x l = false <-> ~ In x l.
Proof.
  rewrite <- mem_In. destruct (Git.mem x l); split; easy.
Qed.

Lemma walk_incl (hist : list Git.commit) (want : list string) (c : Git.commit) :
  In c (Git.walk hist want) -> In c hist.
Proof.
  revert want. induction hist as [|x hist IH]; intro want; simpl; [easy|].
  destruct (Git.mem (Git.c_hash x) want); simpl.
  - intros [H|H]; [now left|right; now apply (IH _ H)].
  - intro H. right. now apply (IH _ H).
Qed.

Lemma range_incl (R : Git.repository) (a b : string) :
  incl (Git.range R a b) (Git.history R).
Proof.
  intros c H. unfold Git.range in H. apply filter_In in H as [H _].
  now apply walk_incl in H.
Qed.

Lemma dot_range_incl (R : Git.repository) (a b : string) (cs : list Git.commit) :
  Git.dot_range R a b = Some cs -> incl cs (Git.history R).
Proof.
  unfold Git.dot_range.
  destruct (Git.commit_at R a); [|discriminate].
  destruct (Git.commit_at R b); [|discriminate].
  intro H. injection H as <-. apply range_incl.
Qed.

Lemma caret_range_incl (R : Git.repository) (a b : string)
    (cs : list Git.commit) :
  Git.caret_range R a b = Some cs -> incl cs (Git.history R).
Proof.
  unfold Git.caret_range.
  destruct (Git.commit_at R a) as [s|]; [|discriminate].
  destruct (Git.commit_at R b); [|discriminate].
  destruct (Git.c_parents s); [discriminate|].
  intro H. injection H as <-. apply range_incl.
Qed.

Lemma find_commit_In (hist : list Git.commit) (h : string) (c : Git.commit) :
  Git.find_commit hist h = Some c -> In c hist /\ Git.c_hash c = h.
Proof.
  induction hist as [|x hist IH]; simpl; [discriminate|].
  destruct (String.eqb h (Git.c_hash x)) eqn:E.
  - intro H. injection H as <-. apply String.eqb_eq in E. now split; [left|].
  - intro H. destruct (IH H). now split; [right|].
Qed.

Lemma commit_at_In (R : Git.repository) (ref : string) (c : Git.commit) :
  Git.commit_at R ref = Some c -> In c (Git.history R).
Proof.
  unfold Git.commit_at.
  destruct (Git.lookup_ref ref (Git.refs R)); intro H;
    now apply find_commit_In in H.
Qed.

(** In a well-formed repository every hash is a word. *)
Lemma wf_words (R : Git.repository) (cs : list Git.commit) :
  Git.wf R = true -> incl cs (Git.history R) ->
  forallb Git.word (map Git.c_hash cs) = true.
Proof.
  intros W H. unfold Git.wf in W. apply andb_prop in W as [_ W].
  rewrite forallb_forall in W |- *. intros h Hh.
  apply in_map_iff in Hh as [c [<- Hc]]. apply W, H, Hc.
Qed.

Lemma incl_filter (f : Git.commit -> bool) (cs l : list Git.commit) :
  incl cs l -> incl (filter f cs) l.
Proof. intros H c Hc. apply filter_In in Hc as [Hc _]. now apply H. Qed.

Lemma incl_rev (cs l : list Git.commit) : incl cs l -> incl (rev cs) l.
Proof. intros H c Hc. apply in_rev in Hc. now apply H. Qed.

(** Commits that nobody asked for do not start a walk. *)
Lemma walk_skip (pre post : list Git.commit) (want : list string) :
  (forall x, In x pre -> ~ In (Git.c_hash x) want) ->
  Git.walk (pre ++ post) want = Git.walk post want.
Proof.
  induction pre as [|y pre IH]; intro H; cbn [Git.walk app]; [reflexivity|].
  assert (E : Git.mem (Git.c_hash y) want = false)
    by (apply mem_not_In, H; now left).
  rewrite E. apply IH. intros x Hx. apply H. now right.
Qed.

Lemma ordered_app (seen : list string) (pre l : list Git.commit) :
  Git.ordered seen (pre ++ l) = true ->
  Git.ordered (rev (map Git.c_hash pre) ++ seen)%list l = true.
Proof.
  revert seen. induction pre as [|y pre IH]; intros seen H; [exact H|].
  simpl in H. apply andb_prop in H as [_ H].
  apply IH in H. simpl. now rewrite <- app_assoc.
Qed.

Lemma ordered_fresh (seen : list string) (hist : list Git.commit)
    (x : Git.commit) :
  Git.ordered seen hist = true -> In x hist -> ~ In (Git.c_hash x) seen.
Proof.
  revert seen. induction hist as [|c hist IH]; intros seen H Hx; [easy|].
  simpl in H. apply andb_prop in H as [H H3]. apply andb_prop in H as [H1 _].
  destruct Hx as [<-|Hx].
  - now apply mem_not_In, negb_true_iff.
  - intro Hin. apply (IH _ H3 Hx). now right.
Qed.

(** A commit is not reachable from one of its own parents. *)
Lemma not_behind_parent (hist : list Git.commit) (c : Git.commit) (p : string) :
  Git.ordered [] hist = true -> In c hist -> In p (Git.c_parents c) ->
  ~ In (Git.c_hash c) (map Git.c_hash (Git.walk hist [p])).
Proof.
  intros O Hc Hp. apply in_split in Hc as [pre [post ->]].
  pose proof (ordered_app _ _ _ O) as O'. cbn [Git.ordered] in O'.
  apply andb_prop in O' as [O1 O3]. apply andb_prop in O1 as [_ O2].
  rewrite forallb_forall in O2. specialize (O2 p Hp).
  apply negb_true_iff, mem_not_In in O2.
  rewrite walk_skip.
  - cbn [Git.walk]. assert (E : Git.mem (Git.c_hash c) [p] = false).
    { apply mem_not_In. intros [E|[]]. apply O2. now left. }
    rewrite E. intro Hin. apply in_map_iff in Hin as [x [Hh Hx]].
    apply walk_incl in Hx. apply (ordered_fresh _ _ _ O3 Hx).
    left. now symmetry.
  - intros x Hx [E|[]]. apply O2. right. apply in_or_app. left.
    apply -> in_rev. apply in_map_iff. exists x. now split.
Qed.

(** The commit at [start_ref] is in [start_ref^..end_ref] as soon as it
    is reachable from [end_ref]. *)
Lemma start_in_caret_range (R : Git.repository) (start_ref end_ref : string)
    (c ce : Git.commit) (cs : list Git.commit) :
  Git.wf R = true ->
  Git.commit_at R start_ref = Some c ->
  Git.commit_at R end_ref = Some ce ->
  In c (Git.reachable R [Git.c_hash ce]) ->
  Git.caret_range R start_ref end_ref = Some cs ->
  In c cs.
Proof.
  intros W Hs He Hr Hc. unfold Git.caret_range in Hc. rewrite Hs, He in Hc.
  destruct (Git.c_parents c) as [|p ps] eqn:P; [discriminate|].
  injection Hc as <-. unfold Git.range. apply filter_In. split; [exact Hr|].
  apply negb_true_iff, mem_not_In. unfold Git.reachable.
  unfold Git.wf in W. apply andb_prop in W as [O _].
  apply not_behind_parent; [exact O|now apply commit_at_In in Hs|].
  rewrite P. now left.
Qed.

(* ================================================================== *)
(** * The range of the Commit History Reporter *)
(* ================================================================== *)

Lemma filter_none {A} (f : A -> bool) (l : list A) :
  existsb f l = false -> filter f l = [].
Proof.
  induction l as [|x l IH]; simpl; [reflexivity|].
  intro H. apply orb_false_iff in H as [Hx Hl]. now rewrite Hx, (IH Hl).
Qed.

Lemma hashes_records (w : world) (l : list string) :
  hashes (map (CommitsReport.record w) l) = map (fun h => Some (JStr h)) l.
Proof. unfold hashes. rewrite map_map. reflexivity. Qed.

(** The report of the Commit History Reporter, when there is one. *)
Lemma commits_report_inv (w : world) (start_ref end_ref : string) (j : json) :
  report CommitHistoryReporter w start_ref end_ref = Some j ->
  j = CommitsReport.document start_ref end_ref
        (map (CommitsReport.record w)
             (lines w (CommitsReport.listing start_ref end_ref)))
  /\ ok w (CommitsReport.listing start_ref end_ref) = true.
Proof.
  simpl. unfold CommitsReport.report, CommitsReport.complete.
  destruct (preconditions w start_ref end_ref); [|discriminate].
  destruct (ok w (CommitsReport.listing start_ref end_ref)); [|discriminate].
  simpl. destruct (forallb _ _); [|discriminate].
  intro H. injection H as <-. now split.
Qed.

(** When [git] answers the listing, the loop sees the hashes of the
    non-merge commits of [start_ref^..end_ref] that touch the file. *)
Lemma listing_lines (w : world) (R : Git.repository)
    (start_ref end_ref : string) (cs : list Git.commit) :
  Git.wf R = true ->
  shell w (CommitsReport.listing start_ref end_ref)
  = Git.log_no_merges_path R start_ref end_ref target_file ->
  Git.caret_range R start_ref end_ref = Some cs ->
  lines w (CommitsReport.listing start_ref end_ref)
  = map Git.c_hash
      (filter (fun c => negb (Git.is_merge c) && Git.touches target_file c) cs).
Proof.
  intros W E C. apply lines_separated_answer.
  - apply (wf_words R); [exact W|].
    apply incl_filter. now apply (caret_range_incl R start_ref end_ref).
  - rewrite E. unfold Git.log_no_merges_path. rewrite C. reflexivity.
Qed.

(** C3, amended: for every [start_ref]/[end_ref] pair that passes both
    preconditions ([.git] exists, both references resolve), where the
    commit at [start_ref] has a parent, so that [git] can form the range
    [start_ref^..end_ref], and where this range holds no non-merge commit
    touching [kernel/bpf/verifier.c], the Commit History Reporter ends
    with exit status 0 and prints a complete report: the three metadata
    fields, [commit_count] equal to 0 and [commits] equal to the empty
    array. *)
Theorem empty_range_is_not_an_error (w : world) (R : Git.repository)
    (start_ref end_ref : string) (cs : list Git.commit) :
  preconditions w start_ref end_ref = true ->
  shell w (CommitsReport.listing start_ref end_ref)
  = Git.log_no_merges_path R start_ref end_ref target_file ->
  Git.caret_range R start_ref end_ref = Some cs ->
  existsb (fun c => negb (Git.is_merge c) && Git.touches target_file c) cs
  = false ->
  exists j md err,
    Run CommitHistoryReporter w start_ref end_ref fresh
    = (Ok tt, mkStreams [json_dumps j] err)
    /\ exit_status (fst (Run CommitHistoryReporter w start_ref end_ref fresh))
       = 0%Z
    /\ field "metadata" j = Some md
    /\ field "target_file" md = Some (JStr target_file)
    /\ field "start_ref" md = Some (JStr start_ref)
    /\ field "end_ref" md = Some (JStr end_ref)
    /\ field "commit_count" md = Some (JInt 0)
    /\ field "commits" j = Some (JList []).
Proof.
  intros Hpre E C Hnone.
  assert (L : lines w (CommitsReport.listing start_ref end_ref) = []).
  { apply lines_separated_answer; [reflexivity|].
    rewrite E. unfold Git.log_no_merges_path. rewrite C. simpl.
    now rewrite (filter_none _ _ Hnone). }
  assert (O : ok w (CommitsReport.listing start_ref end_ref) = true).
  { unfold ok. rewrite E. unfold Git.log_no_merges_path. now rewrite C. }
  assert (Rp : report CommitHistoryReporter w start_ref end_ref
               = Some (CommitsReport.document start_ref end_ref [])).
  { simpl. unfold CommitsReport.report, CommitsReport.complete.
    now rewrite Hpre, O, L. }
  destruct (Run_report w _ _ _ _ Rp) as [err Hrun].
  exists (CommitsReport.document start_ref end_ref []).
  eexists. exists err. rewrite Hrun. repeat split.
Qed.

Lemma empty_range_is_not_an_error_witness :
  exists j md err,
    Run CommitHistoryReporter
      (Example.in_kernel "80c1a7e5b008" "80c1a7e5b008")
      "80c1a7e5b008" "80c1a7e5b008" fresh
    = (Ok tt, mkStreams [json_dumps j] err)
    /\ exit_status
         (fst (Run CommitHistoryReporter
                 (Example.in_kernel "80c1a7e5b008" "80c1a7e5b008")
                 "80c1a7e5b008" "80c1a7e5b008" fresh)) = 0%Z
    /\ field "metadata" j = Some md
    /\ field "target_file" md = Some (JStr target_file)
    /\ field "start_ref" md = Some (JStr "80c1a7e5b008")
    /\ field "end_ref" md = Some (JStr "80c1a7e5b008")
    /\ field "commit_count" md = Some (JInt 0)
    /\ field "commits" j = Some (JList []).
Proof.
  apply (empty_range_is_not_an_error
           (Example.in_kernel "80c1a7e5b008" "80c1a7e5b008") Example.kernel
           "80c1a7e5b008" "80c1a7e5b008" [Example.k1]);
    vm_compute; reflexivity.
Defined.

(** Hashes name commits: two commits of a well-ordered history with the
    same hash are the same commit. *)
Lemma hash_unique (hist : list Git.commit) (x c : Git.commit) :
  Git.ordered [] hist = true -> In x hist -> In c hist ->
  Git.c_hash x = Git.c_hash c -> x = c.
Proof.
  intros O Hx Hc E. apply in_split in Hc as [pre [post ->]].
  pose proof (ordered_app _ _ _ O) as O'. cbn [Git.ordered] in O'.
  apply andb_prop in O' as [O1 O3]. apply andb_prop in O1 as [O1 _].
  apply negb_true_iff, mem_not_In in O1.
  apply in_app_or in Hx as [Hx|[Hx|Hx]].
  - exfalso. apply O1. apply in_or_app. left. apply -> in_rev.
    apply in_map_iff. exists x. now split.
  - now symmetry.
  - exfalso. apply (ordered_fresh _ _ _ O3 Hx). left. now symmetry.
Qed.

Lemma unique_commit (R : Git.repository) (ref : string) (c ce : Git.commit) :
  Git.wf R = true ->
  Git.commit_at R ref = Some c ->
  Git.ancestor R c ce = true ->
  In c (Git.reachable R [Git.c_hash ce]).
Proof.
  intros W Hc Ha. unfold Git.ancestor in Ha. apply mem_In in Ha.
  apply in_map_iff in Ha as [x [E Hx]].
  unfold Git.wf in W. apply andb_prop in W as [O _].
  assert (x = c) as <-; [|exact Hx].
  apply (hash_unique (Git.history R)); try assumption.
  - now apply walk_incl in Hx.
  - now apply commit_at_In in Hc.
Qed.

(** The claim C1 as it is stated fails: from [master] back to [v1.0] the
    commit at [start_ref] is a non-merge commit that touches the file, the
    run generates a report, and the report lists no commit at all. *)
Lemma start_ref_left_out :
  Git.wf Example.kernel = true
  /\ shell (Example.in_kernel "master" "v1.0")
       (CommitsReport.listing "master" "v1.0")
     = Git.log_no_merges_path Example.kernel "master" "v1.0" target_file
  /\ ~ start_commit_reported (Example.in_kernel "master" "v1.0")
         Example.kernel "master" "v1.0".
Proof.
  split; [reflexivity|]. split; [reflexivity|].
  intro H.
  destruct (H Example.c9
              (snd (Run CommitHistoryReporter
                      (Example.in_kernel "master" "v1.0")
                      "master" "v1.0" fresh)))
    as [j [Hj [_ [cs [Hf Hin]]]]]; try (vm_compute; reflexivity).
  vm_compute in Hj. injection Hj as <-.
  vm_compute in Hf. injection Hf as <-.
  exact Hin.
Qed.

(** C1, amended: when the commit at [start_ref] is a non-merge commit
    that touches [kernel/bpf/verifier.c] and is the commit at [end_ref] or
    one of its ancestors, and [git] lists the non-merge commits of
    [start_ref^..end_ref] that touch the file, every report the Commit
    History Reporter generates has that commit in its [commits] array. *)
Theorem start_ref_included (w : world) (R : Git.repository)
    (start_ref end_ref : string) (c ce : Git.commit) :
  Git.wf R = true ->
  shell w (CommitsReport.listing start_ref end_ref)
  = Git.log_no_merges_path R start_ref end_ref target_file ->
  Git.commit_at R start_ref = Some c ->
  Git.commit_at R end_ref = Some ce ->
  Git.ancestor R c ce = true ->
  start_commit_reported w R start_ref end_ref.
Proof.
  intros W E Hs He Ha c' st Hs' Hm Ht Hrun.
  rewrite Hs in Hs'. injection Hs' as <-.
  destruct (Run_ok w _ _ _ _ Hrun) as [j [Hj Hout]].
  exists j. split; [exact Hj|]. split; [exact Hout|].
  destruct (commits_report_inv w _ _ _ Hj) as [-> O].
  destruct (Git.caret_range R start_ref end_ref) as [cs|] eqn:C.
  - rewrite (listing_lines w R _ _ cs W E C).
    unfold lists_commit. eexists. split; [reflexivity|].
    rewrite hashes_records, map_map. apply in_map_iff. exists c.
    split; [reflexivity|]. apply filter_In. split.
    + apply (start_in_caret_range R start_ref end_ref c ce); try assumption.
      now apply (unique_commit R start_ref).
    + now rewrite Hm, Ht.
  - unfold ok in O. rewrite E in O. unfold Git.log_no_merges_path in O.
    rewrite C in O. discriminate O.
Qed.

Lemma start_ref_included_witness :
  exists j,
    report CommitHistoryReporter (Example.in_kernel "v1.0" "master")
      "v1.0" "master" = Some j
    /\ sys_stdout (snd (Example.kernel_run CommitHistoryReporter))
       = [json_dumps j]
    /\ lists_commit (Git.c_hash Example.c2) j.
Proof.
  apply (start_ref_included (Example.in_kernel "v1.0" "master")
           Example.kernel "v1.0" "master" Example.c2 Example.c9);
    vm_compute; reflexivity.
Defined.

(* ================================================================== *)
(** * The three filters of the Patchset Reporter *)
(* ================================================================== *)

(** The report of the Patchset Reporter, when there is one. *)
Lemma patchsets_report_inv (w : world) (start_ref end_ref : string) (j : json) :
  report PatchsetReporter w start_ref end_ref = Some j ->
  j = PatchsetsReport.document start_ref end_ref
        (map (PatchsetsReport.patchset w)
           (filter (PatchsetsReport.accepted w)
              (lines w (PatchsetsReport.listing start_ref end_ref)))).
Proof.
  simpl. unfold PatchsetsReport.report.
  destruct (PatchsetsReport.complete w start_ref end_ref); [|discriminate].
  intro H. now injection H as <-.
Qed.

(** A merge that one of the filters turns down has no patchset. *)
Lemma rejected_omitted (w : world) (start_ref end_ref m : string) (j : json) :
  PatchsetsReport.accepted w m = false ->
  report PatchsetReporter w start_ref end_ref = Some j ->
  omits_merge m j.
Proof.
  intros Hm Hj. apply patchsets_report_inv in Hj. subst j.
  unfold omits_merge. eexists. split; [reflexivity|].
  intros p Hp E. apply in_map_iff in Hp as [m' [<- Hm']].
  apply filter_In in Hm' as [_ Hacc].
  simpl in E. injection E as ->. rewrite Hacc in Hm. discriminate Hm.
Qed.

Lemma rejected_run (w : world) (start_ref end_ref m : string) (st : streams) :
  PatchsetsReport.accepted w m = false ->
  Run PatchsetReporter w start_ref end_ref fresh = (Ok tt, st) ->
  exists j, report PatchsetReporter w start_ref end_ref = Some j
            /\ sys_stdout st = [json_dumps j] /\ omits_merge m j.
Proof.
  intros Hm Hrun. destruct (Run_ok w _ _ _ _ Hrun) as [j [Hj Hout]].
  exists j. repeat split; try assumption.
  now apply (rejected_omitted w start_ref end_ref).
Qed.

Lemma filter_some {A} (f : A -> bool) (l : list A) :
  existsb f l = true -> exists x rest, filter f l = x :: rest /\ In x l.
Proof.
  induction l as [|y l IH]; simpl; [discriminate|].
  destruct (f y) eqn:E; simpl.
  - intros _. exists y, (filter f l). split; [reflexivity|now left].
  - intro H. destruct (IH H) as [x [rest [Hf Hin]]].
    exists x, rest. split; [exact Hf|now right].
Qed.

(** The [--oneline] line of a commit starts with its hash. *)
Lemma blank_oneline (c : Git.commit) :
  Git.word (Git.c_hash c) = true -> blank (Git.oneline c) = false.
Proof.
  unfold Git.oneline, Git.word.
  destruct (Git.c_hash c) as [|a h]; [discriminate|].
  intro H. apply andb_prop in H as [_ H]. simpl in H.
  apply andb_prop in H as [Ha _]. apply negb_true_iff in Ha.
  simpl. now rewrite Ha.
Qed.

(** C4: a merge whose [parent1..parent2] range contains at least one
    merge commit never appears in the [patchsets] array of a report of
    the Patchset Reporter, whatever its range touches and whatever its
    subject says. *)
Theorem nested_merge_excluded (w : world) (R : Git.repository)
    (start_ref end_ref m : string) (cs : list Git.commit) (st : streams) :
  Git.wf R = true ->
  shell w (PatchsetsReport.nested_query w m)
  = Git.log_merges_oneline R (PatchsetsReport.parent1 w m)
      (PatchsetsReport.parent2 w m) ->
  Git.dot_range R (PatchsetsReport.parent1 w m) (PatchsetsReport.parent2 w m)
  = Some cs ->
  existsb Git.is_merge cs = true ->
  Run PatchsetReporter w start_ref end_ref fresh = (Ok tt, st) ->
  exists j, report PatchsetReporter w start_ref end_ref = Some j
            /\ sys_stdout st = [json_dumps j] /\ omits_merge m j.
Proof.
  intros W E C Hn Hrun. apply rejected_run; [|exact Hrun].
  assert (N : PatchsetsReport.nested w m = true).
  { unfold PatchsetsReport.nested. rewrite truthy_output, E.
    unfold Git.log_merges_oneline. rewrite C. simpl.
    destruct (filter_some _ _ Hn) as [x [rest [-> Hx]]].
    cbn [map Git.terminated]. rewrite blank_app, blank_oneline; [reflexivity|].
    pose proof (wf_words R cs W (dot_range_incl R _ _ cs C)) as Hw.
    rewrite forallb_forall in Hw. apply Hw. now apply in_map. }
  unfold PatchsetsReport.accepted. now rewrite N.
Qed.

Lemma nested_merge_excluded_witness :
  exists j,
    report PatchsetReporter (Example.in_kernel "v1.0" "master")
      "v1.0" "master" = Some j
    /\ sys_stdout (snd (Example.kernel_run PatchsetReporter)) = [json_dumps j]
    /\ omits_merge (Git.c_hash Example.md) j.
Proof.
  apply (nested_merge_excluded (Example.in_kernel "v1.0" "master")
           Example.kernel "v1.0" "master" (Git.c_hash Example.md)
           [Example.n2; Example.nm; Example.p1; Example.n1]);
    vm_compute; reflexivity.
Defined.

(** C5: a merge whose subject line contains the literal substring
    "Merge tag" anywhere is skipped and never appears in the [patchsets]
    array, whether or not its range touches the target file. *)
Theorem tag_merge_excluded (w : world) (start_ref end_ref m : string)
    (st : streams) :
  str_in "Merge tag" (output w (Git.cmd_subject m)) = true ->
  Run PatchsetReporter w start_ref end_ref fresh = (Ok tt, st) ->
  exists j, report PatchsetReporter w start_ref end_ref = Some j
            /\ sys_stdout st = [json_dumps j] /\ omits_merge m j.
Proof.
  intros Ht Hrun. apply rejected_run; [|exact Hrun].
  unfold PatchsetsReport.accepted, PatchsetsReport.tagged. rewrite Ht.
  now rewrite andb_false_r.
Qed.

Lemma tag_merge_excluded_witness :
  exists j,
    report PatchsetReporter (Example.in_kernel "v1.0" "master")
      "v1.0" "master" = Some j
    /\ sys_stdout (snd (Example.kernel_run PatchsetReporter)) = [json_dumps j]
    /\ omits_merge (Git.c_hash Example.mb) j.
Proof.
  apply (tag_merge_excluded (Example.in_kernel "v1.0" "master")
           "v1.0" "master" (Git.c_hash Example.mb));
    vm_compute; reflexivity.
Defined.

(** C6: a merge that passes the nested-merge and tag-merge filters but
    whose [parent1..parent2] range contains no commit touching
    [kernel/bpf/verifier.c] fails the relevance check and is excluded
    from the [patchsets] array. *)
Theorem irrelevant_merge_excluded (w : world) (R : Git.repository)
    (start_ref end_ref m : string) (cs : list Git.commit) (st : streams) :
  PatchsetsReport.nested w m = false ->
  PatchsetsReport.tagged w m = false ->
  shell w (PatchsetsReport.relevance_query w m)
  = Git.log_oneline_path R (PatchsetsReport.parent1 w m)
      (PatchsetsReport.parent2 w m) target_file ->
  Git.dot_range R (PatchsetsReport.parent1 w m) (PatchsetsReport.parent2 w m)
  = Some cs ->
  existsb (Git.touches target_file) cs = false ->
  Run PatchsetReporter w start_ref end_ref fresh = (Ok tt, st) ->
  PatchsetsReport.relevant w m = false
  /\ exists j, report PatchsetReporter w start_ref end_ref = Some j
               /\ sys_stdout st = [json_dumps j] /\ omits_merge m j.
Proof.
  intros _ _ E C Hn Hrun.
  assert (N : PatchsetsReport.relevant w m = false).
  { unfold PatchsetsReport.relevant. rewrite truthy_output, E.
    unfold Git.log_oneline_path. rewrite C. simpl.
    now rewrite (filter_none _ _ Hn). }
  split; [exact N|]. apply rejected_run; [|exact Hrun].
  unfold PatchsetsReport.accepted. rewrite N. now rewrite andb_false_r.
Qed.

Lemma irrelevant_merge_excluded_witness :
  PatchsetsReport.relevant (Example.in_kernel "v1.0" "master")
    (Git.c_hash Example.mc) = false
  /\ exists j,
       report PatchsetReporter (Example.in_kernel "v1.0" "master")
         "v1.0" "master" = Some j
       /\ sys_stdout (snd (Example.kernel_run PatchsetReporter))
          = [json_dumps j]
       /\ omits_merge (Git.c_hash Example.mc) j.
Proof.
  apply (irrelevant_merge_excluded (Example.in_kernel "v1.0" "master")
           Example.kernel "v1.0" "master" (Git.c_hash Example.mc)
           [Example.k1]);
    vm_compute; reflexivity.
Defined.

(* ================================================================== *)
(** * The commits of a patchset *)
(* ================================================================== *)

Lemma hashes_patchset_records (w : world) (l : list string) :
  hashes (map (PatchsetsReport.record w) l) = map (fun h => Some (JStr h)) l.
Proof. unfold hashes. rewrite map_map. reflexivity. Qed.

(** C7: in every patchset of a report of the Patchset Reporter, the
    [commits] array holds exactly the non-merge commits reachable from
    [parent2] but not from [parent1], one record each, oldest first: the
    reverse of the newest-first order of the range. *)
Theorem patchset_commits_oldest_first (w : world) (R : Git.repository)
    (start_ref end_ref m : string) (cs : list Git.commit) (st : streams) :
  Git.wf R = true ->
  shell w (PatchsetsReport.payload_query w m)
  = Git.log_reverse_no_merges R (PatchsetsReport.parent1 w m)
      (PatchsetsReport.parent2 w m) ->
  Git.dot_range R (PatchsetsReport.parent1 w m) (PatchsetsReport.parent2 w m)
  = Some cs ->
  Run PatchsetReporter w start_ref end_ref fresh = (Ok tt, st) ->
  exists j ps,
    report PatchsetReporter w start_ref end_ref = Some j
    /\ sys_stdout st = [json_dumps j]
    /\ field "patchsets" j = Some (JList ps)
    /\ forall p, In p ps -> field "merge_hash" p = Some (JStr m) ->
       exists commits,
         field "commits" p = Some (JList commits)
         /\ hashes commits
            = map (fun c => Some (JStr (Git.c_hash c)))
                (rev (filter (fun c => negb (Git.is_merge c)) cs)).
Proof.
  intros W E C Hrun. destruct (Run_ok w _ _ _ _ Hrun) as [j [Hj Hout]].
  pose proof (patchsets_report_inv w _ _ _ Hj) as Ej. subst j.
  eexists. eexists. split; [exact Hj|]. split; [exact Hout|].
  split; [reflexivity|].
  intros p Hp Hm. apply in_map_iff in Hp as [m' [<- _]].
  simpl in Hm. injection Hm as ->.
  eexists. split; [reflexivity|].
  rewrite hashes_patchset_records.
  rewrite (lines_terminated w _
             (map Git.c_hash
                (rev (filter (fun c => negb (Git.is_merge c)) cs)))).
  - now rewrite map_map.
  - apply (wf_words R); [exact W|].
    apply incl_rev, incl_filter. exact (dot_range_incl R _ _ cs C).
  - rewrite E. unfold Git.log_reverse_no_merges. now rewrite C.
Qed.

Lemma patchset_commits_oldest_first_witness :
  exists j ps,
    report PatchsetReporter (Example.in_kernel "v1.0" "master")
      "v1.0" "master" = Some j
    /\ sys_stdout (snd (Example.kernel_run PatchsetReporter)) = [json_dumps j]
    /\ field "patchsets" j = Some (JList ps)
    /\ forall p, In p ps ->
       field "merge_hash" p = Some (JStr (Git.c_hash Example.ma)) ->
       exists commits,
         field "commits" p = Some (JList commits)
         /\ hashes commits
            = map (fun c => Some (JStr (Git.c_hash c)))
                (rev (filter (fun c => negb (Git.is_merge c))
                        [Example.f2; Example.f1])).
Proof.
  apply (patchset_commits_oldest_first (Example.in_kernel "v1.0" "master")
           Example.kernel "v1.0" "master" (Git.c_hash Example.ma)
           [Example.f2; Example.f1]);
    vm_compute; reflexivity.
Defined.

(* ================================================================== *)
(** * The strings of a report *)
(* ================================================================== *)

Lemma split_not_nil (s : string) : split LF s <> [].
Proof.
  destruct s as [|a s]; simpl; [discriminate|].
  destruct (Ascii.eqb a LF); [discriminate|].
  destruct (split LF s); discriminate.
Qed.

Lemma split_hd_clean (x : string) :
  starts_clean x = true ->
  starts_clean (hd EmptyString (filter truthy (split LF x))) = true.
Proof.
  destruct x as [|a x]; [reflexivity|]. intro H. simpl in H.
  pose proof H as H'. apply negb_true_iff in H'. simpl.
  rewrite (space_not_LF a H').
  destruct (split LF x); simpl; exact H.
Qed.

Lemma split_last (x : string) :
  truthy x = true -> ends_clean x = true ->
  truthy (last (split LF x) EmptyString) = true
  /\ ends_clean (last (split LF x) EmptyString) = true.
Proof.
  induction x as [|a x IH]; [discriminate|]. intros _ H.
  destruct x as [|b x].
  - simpl in H. pose proof H as H'. apply negb_true_iff in H'.
    simpl. rewrite (space_not_LF a H'). simpl. now rewrite H'.
  - change (ends_clean (String b x) = true) in H.
    destruct (IH eq_refl H) as [T C].
    change (split LF (String a (String b x)))
      with (if Ascii.eqb a LF then EmptyString :: split LF (String b x)
            else match split LF (String b x) with
                 | [] => [String a EmptyString]
                 | y :: ys => String a y :: ys
                 end).
    destruct (split LF (String b x)) as [|y ys]; [discriminate T|].
    destruct (Ascii.eqb a LF).
    + change (last (EmptyString :: y :: ys) EmptyString)
        with (last (y :: ys) EmptyString). now split.
    + destruct ys as [|z zs].
      * simpl in T, C |- *. split; [reflexivity|].
        destruct y; [discriminate T|exact C].
      * change (last (String a y :: z :: zs) EmptyString)
          with (last (z :: zs) EmptyString).
        change (last (y :: z :: zs) EmptyString)
          with (last (z :: zs) EmptyString) in T, C. now split.
Qed.

Lemma last_in {A} (l : list A) (d : A) : l <> [] -> In (last l d) l.
Proof.
  induction l as [|x l IH]; [easy|]. intros _.
  destruct l as [|y l]; [now left|].
  right. apply IH. discriminate.
Qed.

Lemma last_filter {A} (f : A -> bool) (l : list A) (d : A) :
  l <> [] -> f (last l d) = true -> last (filter f l) d = last l d.
Proof.
  induction l as [|x l IH]; [easy|]. intros _ H.
  destruct l as [|y l].
  - simpl in *. now rewrite H.
  - change (last (x :: y :: l) d) with (last (y :: l) d) in *.
    assert (N : y :: l <> []) by discriminate.
    pose proof (IH N H) as IH'.
    change (filter f (x :: y :: l))
      with (if f x then x :: filter f (y :: l) else filter f (y :: l)).
    destruct (f x); [|exact IH'].
    destruct (filter f (y :: l)) as [|z zs] eqn:F.
    + exfalso.
      assert (Hin : In (last (y :: l) d) (filter f (y :: l))).
      { apply filter_In. split; [now apply last_in|exact H]. }
      rewrite F in Hin. exact Hin.
    + exact IH'.
Qed.

Lemma lines_are_lines (l : list string) :
  forallb one_line l = true ->
  forallb (fun f => truthy f && one_line f) (filter truthy l) = true.
Proof.
  induction l as [|x l IH]; simpl; [reflexivity|].
  intro H. apply andb_prop in H as [Hx Hl].
  destruct (truthy x) eqn:T; simpl; [|now apply IH].
  now rewrite T, Hx, (IH Hl).
Qed.

(** The non-empty lines of a stripped text. *)
Lemma tidy_split (x : string) :
  starts_clean x = true -> ends_clean x = true ->
  tidy_paths (filter truthy (split LF x)).
Proof.
  intros Hs He. repeat split.
  - apply lines_are_lines, split_pieces.
  - now apply split_hd_clean.
  - destruct (truthy x) eqn:T.
    + destruct (split_last x T He) as [T' C'].
      rewrite last_filter; [exact C'|apply split_not_nil|exact T'].
    + destruct x; [reflexivity|discriminate T].
Qed.

Lemma strings_JStr (l : list string) : strings (map JStr l) = l.
Proof.
  unfold strings. induction l as [|x l IH]; simpl; [reflexivity|].
  now rewrite IH.
Qed.

Lemma trimmed_strip (s : string) : trimmed (strip s).
Proof.
  split; [apply strip_stripped|].
  intros s' E. destruct (strip_clean s) as [_ C].
  rewrite E, ends_clean_newline in C. discriminate C.
Qed.

Section Fields.

Variable w : world.

Lemma trimmed_output (cmd : string) : trimmed (output w cmd).
Proof. apply trimmed_strip. Qed.

Lemma tidy_modified_files (h : string) : tidy_paths (modified_files w h).
Proof.
  unfold modified_files, output.
  apply tidy_split; apply strip_clean.
Qed.

Lemma blank_output (cmd : string) :
  blank (stdout (shell w cmd)) = true -> output w cmd = EmptyString.
Proof.
  intro H. unfold output, universal_newlines. apply strip_blank.
  now rewrite blank_translate.
Qed.

End Fields.

Section Records.

Variable w : world.

Lemma commit_record_texts (h : string) :
  Forall trimmed (texts record_keys (CommitsReport.record w h)).
Proof. cbv [texts record_keys CommitsReport.record]. simpl.
  repeat constructor; apply trimmed_output. Qed.

Lemma commit_record_paths (h : string) :
  paths (CommitsReport.record w h) = modified_files w h.
Proof. unfold paths, items. simpl. apply strings_JStr. Qed.

Lemma patchset_record_texts (h : string) :
  Forall trimmed (texts record_keys (PatchsetsReport.record w h)).
Proof. cbv [texts record_keys PatchsetsReport.record]. simpl.
  repeat constructor; apply trimmed_output. Qed.

Lemma patchset_record_paths (h : string) :
  paths (PatchsetsReport.record w h) = modified_files w h.
Proof. unfold paths, items. simpl. apply strings_JStr. Qed.

Lemma patchset_texts (m : string) :
  Forall trimmed (texts merge_keys (PatchsetsReport.patchset w m)).
Proof. cbv [texts merge_keys PatchsetsReport.patchset]. simpl.
  repeat constructor; apply trimmed_output. Qed.

Lemma patchset_record_no_merge_keys (h : string) :
  texts merge_keys (PatchsetsReport.record w h) = [].
Proof. reflexivity. Qed.

Lemma patchset_commits (m : string) :
  items "commits" (PatchsetsReport.patchset w m)
  = map (PatchsetsReport.record w) (lines w (PatchsetsReport.payload_query w m)).
Proof. reflexivity. Qed.

End Records.

Lemma commits_document_items (start_ref end_ref : string) (cs : list json) :
  items "commits" (CommitsReport.document start_ref end_ref cs) = cs
  /\ items "patchsets" (CommitsReport.document start_ref end_ref cs) = [].
Proof. now split. Qed.

Lemma patchsets_document_items (start_ref end_ref : string) (ps : list json) :
  items "patchsets" (PatchsetsReport.document start_ref end_ref ps) = ps.
Proof. reflexivity. Qed.

(** The claim C10 as it is stated fails: a commit that touches the file
    named [a] and a space, which [git] lists before
    [kernel/bpf/verifier.c], is reported with that name, space included,
    because the listing is stripped as a whole and then split. *)
Lemma path_keeps_inner_space :
  ~ all_fields_stripped CommitHistoryReporter
      (Example.in_scratch "base" "tip") "base" "tip".
Proof.
  intro H.
  destruct (H (snd (Run CommitHistoryReporter
                      (Example.in_scratch "base" "tip") "base" "tip" fresh)))
    as [j [Hj [_ [_ Hp]]]]; [vm_compute; reflexivity|].
  vm_compute in Hj. injection Hj as <-.
  rewrite Forall_forall in Hp.
  specialize (Hp "a "). unfold stripped in Hp.
  assert (E : strip "a " = "a ");
    [apply Hp; vm_compute; now left|discriminate E].
Qed.

(** C10, amended: in every report of either tool, each string field that
    holds the whole output of one query (author, date, message, subject,
    body, and the merge fields) is stripped of leading and trailing white
    space and does not end with a newline; the paths of a commit are
    non-empty lines of which the first has no leading and the last no
    trailing white space; and in the Patchset Reporter a body made of
    white space only is reported as the empty string. *)
Theorem string_fields_stripped (t : tool) (w : world)
    (start_ref end_ref : string) (st : streams) :
  Run t w start_ref end_ref fresh = (Ok tt, st) ->
  exists j,
    report t w start_ref end_ref = Some j
    /\ sys_stdout st = [json_dumps j]
    /\ Forall trimmed (scalar_strings t j)
    /\ Forall (fun c => tidy_paths (paths c)) (commit_records t j)
    /\ (t = PatchsetReporter ->
        Forall (blank_body_dropped w "hash" "message") (commit_records t j)
        /\ Forall (blank_body_dropped w "merge_hash" "merge_body")
             (items "patchsets" j)).
Proof.
  intro Hrun. destruct (Run_ok w _ _ _ _ Hrun) as [j [Hj Hout]].
  exists j. split; [exact Hj|]. split; [exact Hout|].
  destruct t.
  - destruct (commits_report_inv w _ _ _ Hj) as [-> _].
    unfold scalar_strings, commit_records.
    destruct (commits_document_items start_ref end_ref
                (map (CommitsReport.record w)
                   (lines w (CommitsReport.listing start_ref end_ref))))
      as [-> ->].
    cbn [flat_map]. rewrite app_nil_r.
    repeat split; [| |discriminate|discriminate].
    + apply Forall_flat_map, Forall_map, Forall_forall.
      intros h _. apply commit_record_texts.
    + apply Forall_map, Forall_forall. intros h _.
      rewrite commit_record_paths. apply tidy_modified_files.
  - pose proof (patchsets_report_inv w _ _ _ Hj) as ->.
    unfold scalar_strings, commit_records.
    rewrite patchsets_document_items.
    repeat split.
    + apply Forall_app. split.
      * apply Forall_flat_map, Forall_flat_map, Forall_map, Forall_forall.
        intros m _. rewrite patchset_commits.
        apply Forall_map, Forall_forall. intros h _.
        apply patchset_record_texts.
      * apply Forall_flat_map, Forall_map, Forall_forall.
        intros m _. apply patchset_texts.
    + apply Forall_flat_map, Forall_map, Forall_forall.
      intros m _. rewrite patchset_commits.
      apply Forall_map, Forall_forall. intros h _.
      rewrite patchset_record_paths. apply tidy_modified_files.
    + apply Forall_flat_map, Forall_map, Forall_forall.
      intros m _. rewrite patchset_commits.
      apply Forall_map, Forall_forall. intros h _ h' E Hb.
      simpl in E. injection E as <-. simpl. f_equal. f_equal.
      now apply blank_output.
    + apply Forall_map, Forall_forall. intros m _ m' E Hb.
      simpl in E. injection E as <-. simpl. f_equal. f_equal.
      now apply blank_output.
Qed.

Lemma string_fields_stripped_witness :
  exists j,
    report PatchsetReporter (Example.in_kernel "v1.0" "master")
      "v1.0" "master" = Some j
    /\ sys_stdout (snd (Example.kernel_run PatchsetReporter)) = [json_dumps j]
    /\ Forall trimmed (scalar_strings PatchsetReporter j)
    /\ Forall (fun c => tidy_paths (paths c))
         (commit_records PatchsetReporter j)
    /\ (PatchsetReporter = PatchsetReporter ->
        Forall (blank_body_dropped (Example.in_kernel "v1.0" "master")
                  "hash" "message")
          (commit_records PatchsetReporter j)
        /\ Forall (blank_body_dropped (Example.in_kernel "v1.0" "master")
                     "merge_hash" "merge_body")
             (items "patchsets" j)).
Proof.
  apply (string_fields_stripped PatchsetReporter
           (Example.in_kernel "v1.0" "master") "v1.0" "master").
  vm_compute. reflexivity.
Defined.

(* ================================================================== *)
(** * Successful computations, line by line *)
(* ================================================================== *)

Section Yields.

Lemma yields_ret {A} (a : A) : yields (ret a) a [] [].
Proof. intro st. unfold ret. destruct st; simpl. now rewrite !app_nil_r. Qed.

Lemma yields_bind {A B} (m : M A) (k : A -> M B) (a : A) (b : B)
    (o1 o2 e1 e2 : list string) :
  yields m a o1 e1 -> yields (k a) b o2 e2 ->
  yields (bind m k) b (o1 ++ o2)%list (e1 ++ e2)%list.
Proof.
  intros Hm Hk st. unfold bind. rewrite Hm, Hk. simpl.
  now rewrite !app_assoc.
Qed.

Lemma yields_eprint (s : string) : yields (eprint s) tt [] [s].
Proof. intro st. unfold eprint. now rewrite app_nil_r. Qed.

Lemma yields_print (s : string) : yields (print s) tt [s] [].
Proof. intro st. unfold print. now rewrite app_nil_r. Qed.

Lemma yields_run_command (w : world) (cmd : string) :
  ok w cmd = true -> yields (Commits.run_command w cmd) (output w cmd) [] [].
Proof.
  intros H st. rewrite run_command_eq, H. destruct st; simpl.
  now rewrite !app_nil_r.
Qed.

(** A quiet step in front of a computation. *)
Lemma yields_after {A B} (m : M A) (k : A -> M B) (a : A) (b : B)
    (o e : list string) :
  yields m a [] [] -> yields (k a) b o e -> yields (bind m k) b o e.
Proof. intros Hm Hk. exact (yields_bind m k a b [] o [] e Hm Hk). Qed.

Lemma yields_quiet {A} (m : M A) (a : A) (st : streams) :
  yields m a [] [] -> m st = (Ok a, st).
Proof. intro H. rewrite H. destruct st; simpl. now rewrite !app_nil_r. Qed.

End Yields.

(* ================================================================== *)
(** * Outside a repository *)
(* ================================================================== *)

(** X1: when [.git] does not exist in the working directory, either tool
    writes the one line "Error: Not in a git repository" to standard
    error and exits with status 1, whatever the references are and
    whatever the shell would answer. *)
Theorem not_a_repository (t : tool) (w : world) (start_ref end_ref : string) :
  os_path_exists w ".git" = false ->
  Run t w start_ref end_ref fresh
  = (SystemExit 1, mkStreams [] ["Error: Not in a git repository"]).
Proof.
  intro H. destruct t; unfold Run, Commits.main_body, Patchsets.main_body;
    unfold bind at 1; rewrite H; reflexivity.
Qed.

Lemma not_a_repository_witness :
  Run CommitHistoryReporter Example.elsewhere "v1.0" "master" fresh
  = (SystemExit 1, mkStreams [] ["Error: Not in a git repository"]).
Proof.
  apply (not_a_repository CommitHistoryReporter Example.elsewhere).
  reflexivity.
Defined.

(* ================================================================== *)
(** * The functions that read a list of hashes *)
(* ================================================================== *)

Section HashLists.

Variable w : world.

(** Each of the three functions is one [run_command] and a [split]. *)
Lemma hash_call_eq (q : hash_query) (st : streams) :
  hash_call w q st =
  if ok w (hash_command q)
  then (Ok (listed (output w (hash_command q))), st)
  else (SystemExit 1,
        mkStreams (sys_stdout st)
          (sys_stderr st ++ command_failure w (hash_command q))%list).
Proof.
  destruct q; simpl;
    unfold Commits.get_commits_between_refs, Patchsets.get_merge_commits,
      Patchsets.get_commits_in_merge, Git.cmd_log_no_merges_path,
      Git.cmd_log_merges, Git.cmd_log_reverse_no_merges;
    cbv zeta; unfold bind; rewrite ?run_command_same, run_command_eq;
    match goal with |- context [ok w ?c] => destruct (ok w c) end;
    reflexivity.
Qed.

Lemma listed_words (hs : list string) :
  forallb Git.word hs = true -> listed (Git.separated hs) = hs.
Proof.
  intro H. unfold listed. destruct hs as [|h hs]; [reflexivity|].
  assert (Ht : truthy h = true).
  { simpl in H. apply andb_prop in H as [Hh _].
    now apply andb_prop in Hh as [Ht _]. }
  rewrite (truthy_separated h hs Ht).
  apply split_separated. now apply words_one_line.
Qed.

End HashLists.

Lemma split_hd_truthy (x : string) :
  truthy x = true -> starts_clean x = true ->
  truthy (hd EmptyString (split LF x)) = true.
Proof.
  destruct x as [|a x]; [discriminate|]. intros _ H. simpl in H.
  apply negb_true_iff in H. simpl. rewrite (space_not_LF a H).
  now destruct (split LF x).
Qed.

(** X2: when [git] prints a list of hashes, one per line, with or
    without a newline after the last one, each of
    [get_commits_between_refs], [get_merge_commits] and
    [get_commits_in_merge] returns exactly these hashes, in that order,
    and writes nothing. *)
Theorem hash_lists_read_back (w : world) (q : hash_query)
    (hs : list string) (st : streams) :
  forallb Git.word hs = true ->
  returncode (shell w (hash_command q)) = 0%Z ->
  stdout (shell w (hash_command q)) = Git.terminated hs
  \/ stdout (shell w (hash_command q)) = Git.separated hs ->
  hash_call w q st = (Ok hs, st).
Proof.
  intros H Hrc Hout. rewrite hash_call_eq. unfold ok. rewrite Hrc.
  cbn [Z.eqb]. do 2 f_equal. unfold output.
  destruct Hout as [-> | ->].
  - rewrite (universal_newlines_id _ (no_cr_terminated hs H)).
    rewrite (strip_terminated hs H). now apply listed_words.
  - rewrite (universal_newlines_id _ (no_cr_separated hs H)).
    rewrite (strip_separated hs H). now apply listed_words.
Qed.

Lemma hash_lists_read_back_witness :
  Patchsets.get_commits_in_merge (Example.in_kernel "v1.0" "master")
    "20c2a7e5b002" "40f2a7e5b004" fresh
  = (Ok ["30f1a7e5b003"; "40f2a7e5b004"], fresh).
Proof.
  apply (hash_lists_read_back (Example.in_kernel "v1.0" "master")
           (commits_in_merge "20c2a7e5b002" "40f2a7e5b004")
           ["30f1a7e5b003"; "40f2a7e5b004"] fresh);
    [reflexivity|reflexivity|left; reflexivity].
Defined.

(** X3: a listing function whose command succeeds returns the empty
    list when the output is empty or white space only (not the list with
    one empty string that [split] alone gives); otherwise it returns a
    non-empty list of single lines whose first and last elements are not
    empty.  In both cases it writes nothing. *)
Theorem hash_list_shape (w : world) (q : hash_query) (st : streams) :
  ok w (hash_command q) = true ->
  exists l,
    hash_call w q st = (Ok l, st)
    /\ (blank (stdout (shell w (hash_command q))) = true -> l = [])
    /\ (blank (stdout (shell w (hash_command q))) = false ->
        l <> [] /\ truthy (hd EmptyString l) = true
        /\ truthy (last l EmptyString) = true)
    /\ forallb one_line l = true.
Proof.
  intro H. exists (listed (output w (hash_command q))).
  rewrite hash_call_eq, H. split; [reflexivity|].
  unfold listed. rewrite truthy_output.
  destruct (blank (stdout (shell w (hash_command q)))) eqn:B; simpl.
  - split; [reflexivity|]. split; [discriminate|reflexivity].
  - assert (T : truthy (output w (hash_command q)) = true)
      by (now rewrite truthy_output, B).
    destruct (strip_clean
                (universal_newlines (stdout (shell w (hash_command q)))))
      as [Cs Ce].
    fold (output w (hash_command q)) in Cs, Ce.
    split; [discriminate|]. split; [|apply split_pieces].
    intros _. split; [apply split_not_nil|]. split.
    + now apply split_hd_truthy.
    + now apply split_last.
Qed.

Lemma hash_list_shape_witness :
  exists l,
    Patchsets.get_merge_commits (Example.in_scratch "base" "tip")
      "base" "tip" fresh = (Ok l, fresh)
    /\ (blank (stdout (shell (Example.in_scratch "base" "tip")
                         (Git.cmd_log_merges "base" "tip"))) = true -> l = [])
    /\ (blank (stdout (shell (Example.in_scratch "base" "tip")
                         (Git.cmd_log_merges "base" "tip"))) = false ->
        l <> [] /\ truthy (hd EmptyString l) = true
        /\ truthy (last l EmptyString) = true)
    /\ forallb one_line l = true.
Proof.
  apply (hash_list_shape (Example.in_scratch "base" "tip")
           (merge_commits "base" "tip") fresh).
  reflexivity.
Defined.

(* ================================================================== *)
(** * What the reports list, and in which order *)
(* ================================================================== *)

(** X4: the [commits] array of a report of the Commit History Reporter
    has one record for each hash that [git] printed in answer to the
    listing query, in the order printed: the tool neither sorts the
    hashes, nor filters them, nor removes duplicates. *)
Theorem commits_follow_the_listing (w : world) (start_ref end_ref : string)
    (hs : list string) (st : streams) :
  forallb Git.word hs = true ->
  stdout (shell w (CommitsReport.listing start_ref end_ref))
  = Git.terminated hs
  \/ stdout (shell w (CommitsReport.listing start_ref end_ref))
     = Git.separated hs ->
  Run CommitHistoryReporter w start_ref end_ref fresh = (Ok tt, st) ->
  exists j commits,
    report CommitHistoryReporter w start_ref end_ref = Some j
    /\ sys_stdout st = [json_dumps j]
    /\ field "commits" j = Some (JList commits)
    /\ hashes commits = map (fun h => Some (JStr h)) hs.
Proof.
  intros H E Hrun. destruct (Run_ok w _ _ _ _ Hrun) as [j [Hj Hout]].
  destruct (commits_report_inv w _ _ _ Hj) as [Ej _]. subst j.
  eexists. eexists. split; [exact Hj|]. split; [exact Hout|].
  split; [reflexivity|]. rewrite hashes_records. f_equal.
  destruct E as [E|E];
    [now apply lines_terminated|now apply lines_separated_answer].
Qed.

Lemma commits_follow_the_listing_witness :
  exists j commits,
    report CommitHistoryReporter (Example.in_kernel "v1.0" "master")
      "v1.0" "master" = Some j
    /\ sys_stdout (snd (Example.kernel_run CommitHistoryReporter))
       = [json_dumps j]
    /\ field "commits" j = Some (JList commits)
    /\ hashes commits
       = map (fun h => Some (JStr h))
           ["f0c9a7e5b00f"; "d0d2a7e5b00d"; "b0e1a7e5b00b"; "a0d1a7e5b00a";
            "60b1a7e5b006"; "40f2a7e5b004"; "20c2a7e5b002"].
Proof.
  apply (commits_follow_the_listing (Example.in_kernel "v1.0" "master")
           "v1.0" "master"
           ["f0c9a7e5b00f"; "d0d2a7e5b00d"; "b0e1a7e5b00b"; "a0d1a7e5b00a";
            "60b1a7e5b006"; "40f2a7e5b004"; "20c2a7e5b002"]);
    [reflexivity|right; reflexivity|vm_compute; reflexivity].
Defined.

(** X5: the [patchsets] array of a report of the Patchset Reporter holds
    one patchset for each enumerated merge that passes the three filters
    (its range has no merge, its subject has no "Merge tag", its range
    touches the file), and no other, in the order of the enumeration; a
    merge enumerated twice is reported twice. *)
Theorem patchsets_are_the_accepted_merges (w : world)
    (start_ref end_ref : string) (st : streams) :
  Run PatchsetReporter w start_ref end_ref fresh = (Ok tt, st) ->
  exists j ps,
    report PatchsetReporter w start_ref end_ref = Some j
    /\ sys_stdout st = [json_dumps j]
    /\ field "patchsets" j = Some (JList ps)
    /\ map (field "merge_hash") ps
       = map (fun m => Some (JStr m))
           (filter (fun m => negb (PatchsetsReport.nested w m)
                             && negb (PatchsetsReport.tagged w m)
                             && PatchsetsReport.relevant w m)
              (lines w (Git.cmd_log_merges start_ref end_ref))).
Proof.
  intro Hrun. destruct (Run_ok w _ _ _ _ Hrun) as [j [Hj Hout]].
  pose proof (patchsets_report_inv w _ _ _ Hj) as Ej. subst j.
  eexists. eexists. split; [exact Hj|]. split; [exact Hout|].
  split; [reflexivity|]. now rewrite map_map.
Qed.

Lemma patchsets_are_the_accepted_merges_witness :
  exists j ps,
    report PatchsetReporter (Example.in_kernel "v1.0" "master")
      "v1.0" "master" = Some j
    /\ sys_stdout (snd (Example.kernel_run PatchsetReporter)) = [json_dumps j]
    /\ field "patchsets" j = Some (JList ps)
    /\ map (field "merge_hash") ps
       = map (fun m => Some (JStr m))
           (filter (fun m =>
                      negb (PatchsetsReport.nested
                              (Example.in_kernel "v1.0" "master") m)
                      && negb (PatchsetsReport.tagged
                                 (Example.in_kernel "v1.0" "master") m)
                      && PatchsetsReport.relevant
                           (Example.in_kernel "v1.0" "master") m)
              (lines (Example.in_kernel "v1.0" "master")
                 (Git.cmd_log_merges "v1.0" "master"))).
Proof.
  apply (patchsets_are_the_accepted_merges
           (Example.in_kernel "v1.0" "master") "v1.0" "master").
  vm_compute. reflexivity.
Defined.

(* ================================================================== *)
(** * The two range checks and the parents of a merge *)
(* ================================================================== *)

(** A query answered with one [--oneline] line per selected commit
    prints something exactly when a commit is selected. *)
Lemma oneline_answer (w : world) (R : Git.repository) (cmd : string)
    (f : Git.commit -> bool) (cs : list Git.commit) :
  Git.wf R = true -> incl cs (Git.history R) ->
  stdout (shell w cmd) = Git.terminated (map Git.oneline (filter f cs)) ->
  truthy (output w cmd) = existsb f cs.
Proof.
  intros W I E. rewrite truthy_output, E.
  destruct (existsb f cs) eqn:X.
  - destruct (filter_some _ _ X) as [x [rest [-> Hx]]].
    cbn [map Git.terminated]. rewrite blank_app, blank_oneline; [reflexivity|].
    pose proof (wf_words R cs W I) as Hw.
    rewrite forallb_forall in Hw. apply Hw. now apply in_map.
  - now rewrite (filter_none _ _ X).
Qed.

Lemma check_eq (w : world) (cmd : string) (st : streams) :
  ok w cmd = true ->
  (result <- Commits.run_command w cmd ;; ret (truthy result)) st
  = (Ok (truthy (output w cmd)), st).
Proof.
  intro H. unfold bind. now rewrite run_command_eq, H.
Qed.

(** X6: [check_merge_contains_merges] returns [True] exactly when the
    range [parent1..parent2] contains a merge commit; it writes
    nothing. *)
Theorem nested_check_exact (w : world) (R : Git.repository)
    (p1 p2 : string) (cs : list Git.commit) (st : streams) :
  Git.wf R = true ->
  shell w (Git.cmd_log_merges_oneline p1 p2) = Git.log_merges_oneline R p1 p2 ->
  Git.dot_range R p1 p2 = Some cs ->
  Patchsets.check_merge_contains_merges w p1 p2 st
  = (Ok (existsb Git.is_merge cs), st).
Proof.
  intros W E C. unfold Patchsets.check_merge_contains_merges. cbv zeta.
  rewrite run_command_same.
  fold (Git.cmd_log_merges_oneline p1 p2).
  rewrite check_eq.
  - do 2 f_equal.
    apply (oneline_answer w R); [exact W|exact (dot_range_incl R _ _ cs C)|].
    rewrite E. unfold Git.log_merges_oneline. now rewrite C.
  - unfold ok. rewrite E. unfold Git.log_merges_oneline. now rewrite C.
Qed.

Lemma nested_check_exact_witness :
  Patchsets.check_merge_contains_merges (Example.in_kernel "v1.0" "master")
    "90cca7e5b009" "d0d2a7e5b00d" fresh
  = (Ok (existsb Git.is_merge
           [Example.n2; Example.nm; Example.p1; Example.n1]), fresh).
Proof.
  apply (nested_check_exact (Example.in_kernel "v1.0" "master")
           Example.kernel "90cca7e5b009" "d0d2a7e5b00d"
           [Example.n2; Example.nm; Example.p1; Example.n1] fresh);
    reflexivity.
Defined.

(** X7: [check_merge_affects_verifier] returns [True] exactly when
    [git log --oneline parent1..parent2 -- file] lists a commit.  The
    commits [git] lists are commits of the range that touch the file,
    but [git] may leave some of them out; so [True] means that a commit
    of the range touches the file, and a range in which no commit
    touches the file gives [False].  Nothing is written. *)
Theorem relevance_check_sound (w : world) (R : Git.repository)
    (p1 p2 path : string) (cs : list Git.commit)
    (kept : Git.commit -> bool) (st : streams) :
  Git.wf R = true ->
  Git.dot_range R p1 p2 = Some cs ->
  returncode (shell w (Git.cmd_log_oneline_path p1 p2 path)) = 0%Z ->
  stdout (shell w (Git.cmd_log_oneline_path p1 p2 path))
  = Git.terminated
      (map Git.oneline
         (filter (fun c => Git.touches path c && kept c) cs)) ->
  Patchsets.check_merge_affects_verifier w p1 p2 path st
  = (Ok (existsb (fun c => Git.touches path c && kept c) cs), st)
  /\ (existsb (fun c => Git.touches path c && kept c) cs = true ->
      existsb (Git.touches path) cs = true)
  /\ (existsb (Git.touches path) cs = false ->
      Patchsets.check_merge_affects_verifier w p1 p2 path st
      = (Ok false, st)).
Proof.
  intros W C Hrc E.
  assert (Hk : existsb (fun c => Git.touches path c && kept c) cs = true ->
               existsb (Git.touches path) cs = true).
  { intro H. apply existsb_exists in H as [c [Hc Ht]].
    apply andb_prop in Ht as [Ht _].
    apply existsb_exists. now exists c. }
  assert (Hcall : Patchsets.check_merge_affects_verifier w p1 p2 path st
                  = (Ok (existsb (fun c => Git.touches path c && kept c) cs),
                     st)).
  { unfold Patchsets.check_merge_affects_verifier. cbv zeta.
    rewrite run_command_same.
    fold (Git.cmd_log_oneline_path p1 p2 path).
    rewrite check_eq; [|unfold ok; now rewrite Hrc].
    do 2 f_equal.
    exact (oneline_answer w R _ _ cs W (dot_range_incl R _ _ cs C) E). }
  split; [exact Hcall|]. split; [exact Hk|].
  intro Hn. rewrite Hcall.
  destruct (existsb (fun c => Git.touches path c && kept c) cs);
    [|reflexivity].
  rewrite (Hk eq_refl) in Hn. discriminate Hn.
Qed.

Lemma relevance_check_sound_witness :
  Patchsets.check_merge_affects_verifier (Example.in_kernel "v1.0" "master")
    "20c2a7e5b002" "40f2a7e5b004" target_file fresh
  = (Ok (existsb (fun c => Git.touches target_file c && true)
           [Example.f2; Example.f1]), fresh)
  /\ (existsb (fun c => Git.touches target_file c && true)
        [Example.f2; Example.f1] = true ->
      existsb (Git.touches target_file) [Example.f2; Example.f1] = true)
  /\ (existsb (Git.touches target_file) [Example.f2; Example.f1] = false ->
      Patchsets.check_merge_affects_verifier
        (Example.in_kernel "v1.0" "master")
        "20c2a7e5b002" "40f2a7e5b004" target_file fresh
      = (Ok false, fresh)).
Proof.
  apply (relevance_check_sound (Example.in_kernel "v1.0" "master")
           Example.kernel "20c2a7e5b002" "40f2a7e5b004" target_file
           [Example.f2; Example.f1] (fun _ => true) fresh);
    reflexivity.
Defined.

Lemma output_line (w : world) (cmd p : string) :
  Git.word p = true ->
  stdout (shell w cmd) = Git.line p ->
  output w cmd = p.
Proof.
  intros Hp E. unfold output. rewrite E.
  assert (H : forallb Git.word [p] = true) by (simpl; now rewrite Hp).
  change (Git.line p) with (Git.terminated [p]).
  rewrite (universal_newlines_id _ (no_cr_terminated [p] H)).
  now rewrite (strip_terminated [p] H).
Qed.

(** [get_merge_details] when its six queries succeed. *)
Lemma get_merge_details_eq (w : world) (m : string) (st : streams) :
  forallb (ok w) (PatchsetsReport.merge_queries m) = true ->
  Patchsets.get_merge_details w m st
  = (Ok (Patchsets.mkMerge m
           (output w (Git.cmd_subject m)) (output w (Git.cmd_body m))
           (output w (Git.cmd_author m)) (output w (Git.cmd_date m))
           (output w (Git.cmd_parent1 m)) (output w (Git.cmd_parent2 m))),
     st).
Proof.
  intro H. unfold Patchsets.get_merge_details.
  unfold bind. rewrite !run_command_same.
  unfold PatchsetsReport.merge_queries in H. cbn [forallb] in H.
  repeat (apply andb_prop in H as [? H]).
  unfold Git.cmd_subject, Git.cmd_body, Git.cmd_parent1, Git.cmd_parent2,
    Git.cmd_author, Git.cmd_date in *.
  repeat (rewrite run_command_eq;
          match goal with
          | Hok : ok w ?c = true |- context [ok w ?c] => rewrite Hok
          end).
  reflexivity.
Qed.

(** X8: for a commit with two or more parents, [get_merge_details]
    returns the hash it was given and the hashes of the first and of the
    second parent as [parent1] and [parent2]; further parents of an
    octopus merge are not looked at.  It writes nothing. *)
Theorem merge_parents_resolved (w : world) (R : Git.repository)
    (m p1 p2 : string) (c : Git.commit) (rest : list string) (st : streams) :
  Git.commit_at R m = Some c ->
  Git.c_parents c = p1 :: p2 :: rest ->
  Git.word p1 = true -> Git.word p2 = true ->
  shell w (Git.cmd_parent1 m) = Git.rev_parse_parent R m 1 ->
  shell w (Git.cmd_parent2 m) = Git.rev_parse_parent R m 2 ->
  forallb (ok w) [Git.cmd_subject m; Git.cmd_body m;
                  Git.cmd_author m; Git.cmd_date m] = true ->
  exists d,
    Patchsets.get_merge_details w m st = (Ok d, st)
    /\ Patchsets.m_hash d = m
    /\ Patchsets.m_parent1 d = p1
    /\ Patchsets.m_parent2 d = p2.
Proof.
  intros Hc Hp W1 W2 E1 E2 Hok.
  assert (A1 : shell w (Git.cmd_parent1 m) = Git.success (Git.line p1)).
  { rewrite E1. unfold Git.rev_parse_parent. now rewrite Hc, Hp. }
  assert (A2 : shell w (Git.cmd_parent2 m) = Git.success (Git.line p2)).
  { rewrite E2. unfold Git.rev_parse_parent. now rewrite Hc, Hp. }
  cbn [forallb] in Hok.
  apply andb_prop in Hok as [O1 Hok]. apply andb_prop in Hok as [O2 Hok].
  apply andb_prop in Hok as [O3 Hok]. apply andb_prop in Hok as [O4 _].
  eexists. split.
  - apply get_merge_details_eq. unfold PatchsetsReport.merge_queries.
    cbn [forallb]. rewrite O1, O2, O3, O4. unfold ok. now rewrite A1, A2.
  - cbn [Patchsets.m_hash Patchsets.m_parent1 Patchsets.m_parent2].
    split; [reflexivity|]. split; apply output_line; try assumption.
    + now rewrite A1.
    + now rewrite A2.
Qed.

Lemma merge_parents_resolved_witness :
  exists d,
    Patchsets.get_merge_details (Example.in_kernel "v1.0" "master")
      "50aaa7e5b005" fresh = (Ok d, fresh)
    /\ Patchsets.m_hash d = "50aaa7e5b005"
    /\ Patchsets.m_parent1 d = "20c2a7e5b002"
    /\ Patchsets.m_parent2 d = "40f2a7e5b004".
Proof.
  apply (merge_parents_resolved (Example.in_kernel "v1.0" "master")
           Example.kernel "50aaa7e5b005" "20c2a7e5b002" "40f2a7e5b004"
           Example.ma [] fresh);
    reflexivity.
Defined.

(** X9: when [git rev-parse hash^2] fails, as it does for a commit
    with a single parent, [get_merge_details] has read the subject, the
    body and the first parent; it writes the two lines of the failure of
    that command to standard error and exits with status 1, leaving
    standard output alone. *)
Theorem merge_details_need_two_parents (w : world) (m : string)
    (st : streams) :
  forallb (ok w) [Git.cmd_subject m; Git.cmd_body m; Git.cmd_parent1 m]
  = true ->
  ok w (Git.cmd_parent2 m) = false ->
  Patchsets.get_merge_details w m st
  = (SystemExit 1,
     mkStreams (sys_stdout st)
       (sys_stderr st ++ command_failure w (Git.cmd_parent2 m))%list).
Proof.
  intros Hok H2.
  cbn [forallb] in Hok.
  apply andb_prop in Hok as [O1 Hok]. apply andb_prop in Hok as [O2 Hok].
  apply andb_prop in Hok as [O3 _].
  unfold Patchsets.get_merge_details, bind. rewrite !run_command_same.
  unfold command_failure.
  unfold Git.cmd_subject, Git.cmd_body, Git.cmd_parent1, Git.cmd_parent2 in *.
  rewrite run_command_eq, O1, run_command_eq, O2, run_command_eq, O3.
  rewrite run_command_eq, H2. reflexivity.
Qed.

Lemma merge_details_need_two_parents_witness :
  Patchsets.get_merge_details (Example.in_kernel "v1.0" "master")
    "20c2a7e5b002" fresh
  = (SystemExit 1,
     mkStreams []
       (command_failure (Example.in_kernel "v1.0" "master")
          (Git.cmd_parent2 "20c2a7e5b002"))).
Proof.
  apply (merge_details_need_two_parents (Example.in_kernel "v1.0" "master")
           "20c2a7e5b002" fresh);
    reflexivity.
Defined.

(* ================================================================== *)
(** * Standard error of a successful run *)
(* ================================================================== *)

Section Success.

Variable w : world.

Lemma yields_quietly {A} (m : M A) (a : A) :
  (forall st, m st = (Ok a, st)) -> yields m a [] [].
Proof.
  intros H st. rewrite H. destruct st; simpl. now rewrite !app_nil_r.
Qed.

Lemma yields_said {B} (s : string) (k : unit -> M B) (b : B)
    (o e : list string) :
  yields (k tt) b o e -> yields (bind (eprint s) k) b o (s :: e).
Proof.
  intro H. exact (yields_bind (eprint s) k tt b [] o [s] e (yields_eprint s) H).
Qed.

Lemma yields_git_check :
  os_path_exists w ".git" = true ->
  yields (if negb (os_path_exists w ".git")
          then bind (eprint "Error: Not in a git repository")
                    (fun _ => sys_exit 1)
          else ret tt) tt [] [].
Proof. intro H. rewrite H. apply yields_ret. Qed.

Lemma yields_validate (t : tool) (start_ref end_ref : string)
    (handler : Z -> string -> string -> M unit) :
  ok w (Git.cmd_rev_parse start_ref) && ok w (Git.cmd_rev_parse end_ref)
  = true ->
  yields (try_except_cpe (validate t w start_ref end_ref) handler) tt [] [].
Proof.
  intro H. apply andb_prop in H as [H1 H2]. apply yields_quietly. intro st.
  unfold try_except_cpe. now rewrite validate_eq, H1, H2.
Qed.

Lemma yields_hash_call (q : hash_query) :
  ok w (hash_command q) = true ->
  yields (hash_call w q) (listed (output w (hash_command q))) [] [].
Proof.
  intro H. apply yields_quietly. intro st. now rewrite hash_call_eq, H.
Qed.

Lemma commit_details_eq (h : string) (st : streams) :
  forallb (ok w) (CommitsReport.queries h) = true ->
  Commits.get_commit_details w h st = (Ok (CommitsReport.record w h), st).
Proof.
  intro H. unfold Commits.get_commit_details, bind.
  unfold CommitsReport.queries in H. cbn [forallb] in H.
  repeat (apply andb_prop in H as [? H]).
  unfold Git.cmd_message, Git.cmd_files, Git.cmd_author, Git.cmd_date in *.
  repeat (rewrite run_command_eq;
          match goal with
          | Hok : ok w ?c = true |- context [ok w ?c] => rewrite Hok
          end).
  reflexivity.
Qed.

Lemma patchset_commit_details_eq (h : string) (st : streams) :
  forallb (ok w) (PatchsetsReport.commit_queries h) = true ->
  Patchsets.get_commit_details w h st = (Ok (PatchsetsReport.record w h), st).
Proof.
  intro H. unfold Patchsets.get_commit_details, bind.
  rewrite !run_command_same.
  unfold PatchsetsReport.commit_queries in H. cbn [forallb] in H.
  repeat (apply andb_prop in H as [? H]).
  unfold Git.cmd_subject, Git.cmd_body, Git.cmd_files, Git.cmd_author,
    Git.cmd_date in *.
  repeat (rewrite run_command_eq;
          match goal with
          | Hok : ok w ?c = true |- context [ok w ?c] => rewrite Hok
          end).
  reflexivity.
Qed.

Lemma commit_loop_eq (l : list string) (md : json) (acc : list json)
    (st : streams) :
  forallb (fun h => forallb (ok w) (CommitsReport.queries h)) (filter truthy l)
  = true ->
  for_each l
    (fun commit_hash results =>
       if truthy commit_hash
       then
         bind (Commits.get_commit_details w commit_hash)
           (fun commit_details =>
              bind (getitem results "commits")
                (fun l => bind (append l commit_details)
                            (fun l => setitem results "commits" l)))
       else ret results)
    (JDict [("metadata", md); ("commits", JList acc)]) st
  = (Ok (JDict [("metadata", md);
                ("commits",
                 JList (acc ++ map (CommitsReport.record w)
                                 (filter truthy l))%list)]), st).
Proof.
  revert acc. induction l as [|h l IH]; intros acc H.
  - simpl. now rewrite app_nil_r.
  - cbn [for_each filter] in *. destruct (truthy h) eqn:Hh.
    + cbn [forallb map] in *. apply andb_prop in H as [Hq Hl].
      unfold bind at 1. unfold bind at 1.
      rewrite (commit_details_eq h st Hq).
      cbn [getitem assoc String.eqb Ascii.eqb Bool.eqb bind ret append
           setitem assoc_set].
      rewrite (IH _ Hl). now rewrite <- app_assoc.
    + unfold bind at 1. unfold ret at 1. now apply IH.
Qed.

Lemma payload_loop_eq (l : list string) (acc : list json) (st : streams) :
  forallb (fun h => forallb (ok w) (PatchsetsReport.commit_queries h))
    (filter truthy l) = true ->
  for_each l
    (fun commit_hash commits =>
       if truthy commit_hash
       then bind (Patchsets.get_commit_details w commit_hash)
              (fun commit_details => ret (commits ++ [commit_details])%list)
       else ret commits)
    acc st
  = (Ok (acc ++ map (PatchsetsReport.record w) (filter truthy l))%list, st).
Proof.
  revert acc. induction l as [|h l IH]; intros acc H.
  - simpl. now rewrite app_nil_r.
  - cbn [for_each filter] in *. destruct (truthy h) eqn:Hh.
    + cbn [forallb map] in *. apply andb_prop in H as [Hq Hl].
      unfold bind at 1. unfold bind at 1.
      rewrite (patchset_commit_details_eq h st Hq).
      unfold ret at 1. rewrite (IH _ Hl). now rewrite <- app_assoc.
    + unfold bind at 1. unfold ret at 1. now apply IH.
Qed.

End Success.

Section SuccessOfMain.

Variable w : world.

Lemma yields_process_merge (m : string) (md : json) (acc : list json) :
  truthy m = true ->
  PatchsetsReport.merge_complete w m = true ->
  yields (Patchsets.process_merge w target_file m
            (JDict [("metadata", md); ("patchsets", JList acc)]))
         (JDict [("metadata", md);
                 ("patchsets",
                  JList (if PatchsetsReport.accepted w m
                         then acc ++ [PatchsetsReport.patchset w m]
                         else acc)%list)])
         []
         (if PatchsetsReport.accepted w m then [found w m] else []).
Proof.
  intros Hm Hc. unfold Patchsets.process_merge. rewrite Hm. cbn [negb].
  unfold PatchsetsReport.merge_complete in Hc.
  apply andb_prop in Hc as [Hc Hrest]. apply andb_prop in Hc as [Hq Hn].
  eapply yields_after;
    [apply yields_quietly; intro st; now apply get_merge_details_eq|].
  cbn [Patchsets.m_parent1 Patchsets.m_parent2 Patchsets.m_subject
       Patchsets.m_body Patchsets.m_author Patchsets.m_date].
  fold (PatchsetsReport.parent1 w m). fold (PatchsetsReport.parent2 w m).
  eapply yields_after.
  { apply yields_quietly. intro st.
    unfold Patchsets.check_merge_contains_merges. cbv zeta.
    rewrite run_command_same.
    exact (check_eq w _ st Hn). }
  fold (Git.cmd_log_merges_oneline (PatchsetsReport.parent1 w m)
          (PatchsetsReport.parent2 w m)).
  fold (PatchsetsReport.nested_query w m). fold (PatchsetsReport.nested w m).
  fold (PatchsetsReport.tagged w m).
  unfold PatchsetsReport.accepted.
  destruct (PatchsetsReport.nested w m); cbn [negb andb orb] in *;
    [apply yields_ret|].
  destruct (PatchsetsReport.tagged w m); cbn [negb andb orb] in *;
    [apply yields_ret|].
  apply andb_prop in Hrest as [Hr Hrest].
  eapply yields_after.
  { apply yields_quietly. intro st.
    unfold Patchsets.check_merge_affects_verifier. cbv zeta.
    rewrite run_command_same.
    exact (check_eq w _ st Hr). }
  fold (Git.cmd_log_oneline_path (PatchsetsReport.parent1 w m)
          (PatchsetsReport.parent2 w m) target_file).
  fold (PatchsetsReport.relevance_query w m).
  fold (PatchsetsReport.relevant w m).
  destruct (PatchsetsReport.relevant w m); cbn [negb andb orb] in *;
    [|apply yields_ret].
  apply andb_prop in Hrest as [Hp Hl].
  apply yields_said.
  eapply yields_after.
  { exact (yields_hash_call w
             (commits_in_merge (PatchsetsReport.parent1 w m)
                (PatchsetsReport.parent2 w m)) Hp). }
  eapply yields_after.
  { apply yields_quietly. intro st. apply payload_loop_eq. exact Hl. }
  cbn [app getitem assoc String.eqb Ascii.eqb Bool.eqb bind ret append
       setitem assoc_set].
  apply yields_ret.
Qed.

Lemma yields_eq {A} (m : M A) (a a' : A) (o o' e e' : list string) :
  yields m a o e -> a = a' -> o = o' -> e = e' -> yields m a' o' e'.
Proof. now intros H <- <- <-. Qed.

Lemma yields_merge_loop (l : list string) (md : json) (acc : list json) :
  forallb (PatchsetsReport.merge_complete w) (filter truthy l) = true ->
  yields (for_each l (Patchsets.process_merge w target_file)
            (JDict [("metadata", md); ("patchsets", JList acc)]))
         (JDict [("metadata", md);
                 ("patchsets",
                  JList (acc ++ map (PatchsetsReport.patchset w)
                                  (filter (PatchsetsReport.accepted w)
                                     (filter truthy l)))%list)])
         []
         (map (found w)
            (filter (PatchsetsReport.accepted w) (filter truthy l))).
Proof.
  revert acc. induction l as [|m l IH]; intros acc H.
  - simpl. rewrite app_nil_r. apply yields_ret.
  - cbn [for_each filter] in *. destruct (truthy m) eqn:Hm.
    + cbn [forallb filter] in *. apply andb_prop in H as [Hc Hl].
      eapply yields_eq.
      * eapply yields_bind;
          [exact (yields_process_merge m md acc Hm Hc)|apply (IH _ Hl)].
      * destruct (PatchsetsReport.accepted w m); cbn [map];
          [now rewrite <- app_assoc|reflexivity].
      * reflexivity.
      * destruct (PatchsetsReport.accepted w m); reflexivity.
    + eapply yields_after; [|apply (IH _ H)].
      unfold Patchsets.process_merge. rewrite Hm. apply yields_ret.
Qed.

(** A complete run of the Commit History Reporter. *)
Lemma commits_main_yields (start_ref end_ref : string) :
  CommitsReport.complete w start_ref end_ref = true ->
  yields (Commits.main_body w start_ref end_ref) tt
    [json_dumps
       (CommitsReport.document start_ref end_ref
          (map (CommitsReport.record w)
             (lines w (CommitsReport.listing start_ref end_ref))))]
    (diagnostics CommitHistoryReporter w start_ref end_ref).
Proof.
  intro H. unfold CommitsReport.complete, preconditions in H.
  apply andb_prop in H as [H Hl]. apply andb_prop in H as [H Ho].
  apply andb_prop in H as [H H2]. apply andb_prop in H as [Hg H1].
  unfold Commits.main_body. cbv zeta.
  eapply yields_after; [now apply yields_git_check|].
  eapply yields_after.
  { apply (yields_validate w CommitHistoryReporter).
    now rewrite H1, H2. }
  apply yields_said.
  eapply yields_after.
  { exact (yields_hash_call w
             (commits_between_refs start_ref end_ref "kernel/bpf/verifier.c")
             Ho). }
  eapply yields_after.
  { apply yields_quietly. intro st. apply commit_loop_eq. exact Hl. }
  intro st.
  cbn [getitem assoc String.eqb Ascii.eqb Bool.eqb bind ret append setitem
       assoc_set len app].
  unfold print. rewrite app_nil_r. reflexivity.
Qed.

Lemma patchsets_tail_yields (md : list (string * json)) (ps : list json) :
  let results := JDict [("metadata", JDict md); ("patchsets", JList ps)] in
  yields (bind (getitem results "patchsets")
            (fun l => bind (len l)
               (fun n => bind (getitem results "metadata")
                  (fun metadata =>
                     bind (setitem metadata "patchset_count" (JInt n))
                       (fun metadata =>
                          bind (setitem results "metadata" metadata)
                            (fun results => print (json_dumps results)))))))
         tt
         [json_dumps
            (JDict [("metadata",
                     JDict (assoc_set "patchset_count"
                              (JInt (Z.of_nat (length ps))) md));
                    ("patchsets", JList ps)])]
         [].
Proof.
  intros results st.
  cbn [getitem assoc String.eqb Ascii.eqb Bool.eqb bind ret append setitem
       assoc_set len app results].
  unfold print. now rewrite app_nil_r.
Qed.

(** A complete run of the Patchset Reporter. *)
Lemma patchsets_main_yields (start_ref end_ref : string) :
  PatchsetsReport.complete w start_ref end_ref = true ->
  yields (Patchsets.main_body w start_ref end_ref) tt
    [json_dumps
       (PatchsetsReport.document start_ref end_ref
          (map (PatchsetsReport.patchset w)
             (filter (PatchsetsReport.accepted w)
                (lines w (PatchsetsReport.listing start_ref end_ref)))))]
    (diagnostics PatchsetReporter w start_ref end_ref).
Proof.
  intro H. unfold PatchsetsReport.complete, preconditions in H.
  apply andb_prop in H as [H Hl]. apply andb_prop in H as [H Ho].
  apply andb_prop in H as [H H2]. apply andb_prop in H as [Hg H1].
  unfold Patchsets.main_body. cbv zeta.
  eapply yields_after; [now apply yields_git_check|].
  eapply yields_after.
  { apply (yields_validate w PatchsetReporter). now rewrite H1, H2. }
  apply yields_said.
  eapply yields_after.
  { exact (yields_hash_call w (merge_commits start_ref end_ref) Ho). }
  eapply yields_eq.
  - eapply yields_bind; [apply yields_merge_loop; exact Hl|].
    exact (patchsets_tail_yields _ _).
  - reflexivity.
  - reflexivity.
  - now rewrite app_nil_r.
Qed.

End SuccessOfMain.

(** X10: a run that ends normally has written to standard error the
    progress line and nothing else (Commit History Reporter), or the
    progress line followed by one "Found (hash)  subject" line for each
    patchset of the report, in the order of the report (Patchset
    Reporter). *)
Theorem stderr_of_success (t : tool) (w : world)
    (start_ref end_ref : string) (st : streams) :
  Run t w start_ref end_ref fresh = (Ok tt, st) ->
  sys_stderr st = diagnostics t w start_ref end_ref
  /\ exists j,
       report t w start_ref end_ref = Some j
       /\ length (sys_stderr st)
          = S (match t with
               | CommitHistoryReporter => 0
               | PatchsetReporter => length (items "patchsets" j)
               end).
Proof.
  intro Hrun. destruct (Run_ok w _ _ _ _ Hrun) as [j [Hj _]].
  assert (E : sys_stderr st = diagnostics t w start_ref end_ref).
  { destruct t; simpl in Hj, Hrun.
    - unfold CommitsReport.report in Hj.
      destruct (CommitsReport.complete w start_ref end_ref) eqn:C;
        [|discriminate].
      rewrite (commits_main_yields w _ _ C fresh) in Hrun.
      now injection Hrun as <-.
    - unfold PatchsetsReport.report in Hj.
      destruct (PatchsetsReport.complete w start_ref end_ref) eqn:C;
        [|discriminate].
      rewrite (patchsets_main_yields w _ _ C fresh) in Hrun.
      now injection Hrun as <-. }
  split; [exact E|]. exists j. split; [exact Hj|]. rewrite E.
  destruct t; [reflexivity|].
  pose proof (patchsets_report_inv w _ _ _ Hj) as ->.
  rewrite patchsets_document_items. simpl. now rewrite !length_map.
Qed.

Lemma stderr_of_success_witness :
  sys_stderr (snd (Example.kernel_run PatchsetReporter))
  = diagnostics PatchsetReporter (Example.in_kernel "v1.0" "master")
      "v1.0" "master"
  /\ exists j,
       report PatchsetReporter (Example.in_kernel "v1.0" "master")
         "v1.0" "master" = Some j
       /\ length (sys_stderr (snd (Example.kernel_run PatchsetReporter)))
          = S (length (items "patchsets" j)).
Proof.
  apply (stderr_of_success PatchsetReporter
           (Example.in_kernel "v1.0" "master") "v1.0" "master").
  vm_compute. reflexivity.
Defined.

(* ================================================================== *)
(** * What a reported patchset holds *)
(* ================================================================== *)

Lemma filter_all {A} (f : A -> bool) (l : list A) :
  existsb f l = false -> filter (fun x => negb (f x)) l = l.
Proof.
  induction l as [|x l IH]; simpl; [reflexivity|].
  intro H. apply orb_false_iff in H as [Hx Hl]. now rewrite Hx, (IH Hl).
Qed.

(** A merge with a patchset in the report passed the three filters. *)
Lemma reported_accepted (w : world) (start_ref end_ref m : string)
    (p : json) :
  In p (map (PatchsetsReport.patchset w)
          (filter (PatchsetsReport.accepted w)
             (lines w (PatchsetsReport.listing start_ref end_ref)))) ->
  field "merge_hash" p = Some (JStr m) ->
  p = PatchsetsReport.patchset w m /\ PatchsetsReport.accepted w m = true.
Proof.
  intros Hp Hm. apply in_map_iff in Hp as [m' [<- Hm']].
  simpl in Hm. injection Hm as ->.
  apply filter_In in Hm' as [_ Ha]. now split.
Qed.

(** X11: every patchset of a report is flat and relevant, and holds its
    whole range: the range [parent1..parent2] of its merge contains no
    merge commit and at least one commit touching the target file, and
    the [commits] array has one record for every commit of the range,
    oldest first; in particular it is not empty. *)
Theorem reported_patchset_is_its_range (w : world) (R : Git.repository)
    (start_ref end_ref m : string) (cs : list Git.commit) (st : streams) :
  Git.wf R = true ->
  shell w (PatchsetsReport.nested_query w m)
  = Git.log_merges_oneline R (PatchsetsReport.parent1 w m)
      (PatchsetsReport.parent2 w m) ->
  shell w (PatchsetsReport.relevance_query w m)
  = Git.log_oneline_path R (PatchsetsReport.parent1 w m)
      (PatchsetsReport.parent2 w m) target_file ->
  shell w (PatchsetsReport.payload_query w m)
  = Git.log_reverse_no_merges R (PatchsetsReport.parent1 w m)
      (PatchsetsReport.parent2 w m) ->
  Git.dot_range R (PatchsetsReport.parent1 w m) (PatchsetsReport.parent2 w m)
  = Some cs ->
  Run PatchsetReporter w start_ref end_ref fresh = (Ok tt, st) ->
  exists j ps,
    report PatchsetReporter w start_ref end_ref = Some j
    /\ sys_stdout st = [json_dumps j]
    /\ field "patchsets" j = Some (JList ps)
    /\ forall p, In p ps -> field "merge_hash" p = Some (JStr m) ->
       existsb Git.is_merge cs = false
       /\ existsb (Git.touches target_file) cs = true
       /\ exists commits,
            field "commits" p = Some (JList commits)
            /\ commits <> []
            /\ hashes commits
               = map (fun c => Some (JStr (Git.c_hash c))) (rev cs).
Proof.
  intros W En Er Ep C Hrun.
  destruct (Run_ok w _ _ _ _ Hrun) as [j [Hj Hout]].
  pose proof (patchsets_report_inv w _ _ _ Hj) as Ej. subst j.
  eexists. eexists. split; [exact Hj|]. split; [exact Hout|].
  split; [reflexivity|]. intros p Hp Hm.
  destruct (reported_accepted w _ _ m p Hp Hm) as [-> Ha].
  unfold PatchsetsReport.accepted in Ha.
  apply andb_prop in Ha as [Ha Hr]. apply andb_prop in Ha as [Hn _].
  apply negb_true_iff in Hn.
  pose proof (dot_range_incl R _ _ cs C) as I.
  assert (N : existsb Git.is_merge cs = false).
  { rewrite <- Hn. symmetry. unfold PatchsetsReport.nested.
    apply (oneline_answer w R); [exact W|exact I|].
    rewrite En. unfold Git.log_merges_oneline. now rewrite C. }
  assert (T : existsb (Git.touches target_file) cs = true).
  { rewrite <- Hr. symmetry. unfold PatchsetsReport.relevant.
    apply (oneline_answer w R); [exact W|exact I|].
    rewrite Er. unfold Git.log_oneline_path. now rewrite C. }
  split; [exact N|]. split; [exact T|].
  assert (L : lines w (PatchsetsReport.payload_query w m)
              = map Git.c_hash (rev cs)).
  { apply lines_terminated.
    - apply (wf_words R); [exact W|]. now apply incl_rev.
    - rewrite Ep. unfold Git.log_reverse_no_merges. rewrite C. simpl.
      now rewrite (filter_all _ _ N). }
  eexists. split; [reflexivity|]. rewrite L. split.
  - destruct cs as [|c cs]; [discriminate T|].
    simpl. rewrite !map_app. simpl. intro E.
    apply app_eq_nil in E as [_ E]. discriminate E.
  - rewrite hashes_patchset_records. now rewrite map_map.
Qed.

Lemma reported_patchset_is_its_range_witness :
  exists j ps,
    report PatchsetReporter (Example.in_kernel "v1.0" "master")
      "v1.0" "master" = Some j
    /\ sys_stdout (snd (Example.kernel_run PatchsetReporter)) = [json_dumps j]
    /\ field "patchsets" j = Some (JList ps)
    /\ forall p, In p ps ->
       field "merge_hash" p = Some (JStr (Git.c_hash Example.nm)) ->
       existsb Git.is_merge [Example.p1] = false
       /\ existsb (Git.touches target_file) [Example.p1] = true
       /\ exists commits,
            field "commits" p = Some (JList commits)
            /\ commits <> []
            /\ hashes commits
               = map (fun c => Some (JStr (Git.c_hash c))) (rev [Example.p1]).
Proof.
  apply (reported_patchset_is_its_range (Example.in_kernel "v1.0" "master")
           Example.kernel "v1.0" "master" (Git.c_hash Example.nm)
           [Example.p1]);
    vm_compute; reflexivity.
Defined.

(* ================================================================== *)
(** * The paths of a commit *)
(* ================================================================== *)

Lemma plain_name_inv (p : string) :
  plain_name p = true ->
  truthy p = true /\ one_line p = true /\ no_cr p = true
  /\ starts_clean p = true /\ ends_clean p = true.
Proof.
  unfold plain_name. intro H.
  apply andb_prop in H as [H H5]. apply andb_prop in H as [H H4].
  apply andb_prop in H as [H H3]. apply andb_prop in H as [H1 H2].
  repeat split; assumption.
Qed.

Lemma rstrip_names (ps : list string) :
  forallb plain_name ps = true ->
  rstrip (Git.terminated ps) = Git.separated ps.
Proof.
  induction ps as [|p ps IH]; [reflexivity|].
  intro H. simpl in H. apply andb_prop in H as [Hp Hs].
  destruct (plain_name_inv p Hp) as [Ht [_ [_ [_ He]]]].
  change (Git.terminated (p :: ps)) with (p ++ String LF (Git.terminated ps)).
  rewrite rstrip_app.
  change (rstrip (String LF (Git.terminated ps)))
    with (match rstrip (Git.terminated ps) with
          | EmptyString =>
              if isspace LF then EmptyString else String LF EmptyString
          | r => String LF r
          end).
  rewrite (IH Hs).
  destruct ps as [|p' ps]; [now apply rstrip_clean|].
  assert (T : truthy (Git.separated (p' :: ps)) = true).
  { apply truthy_separated. simpl in Hs. apply andb_prop in Hs as [Hp' _].
    now destruct (plain_name_inv p' Hp') as [T _]. }
  change (Git.separated (p :: p' :: ps))
    with (p ++ String LF (Git.separated (p' :: ps))).
  destruct (Git.separated (p' :: ps)); [discriminate T|reflexivity].
Qed.

Lemma no_cr_names (ps : list string) :
  forallb plain_name ps = true -> no_cr (Git.terminated ps) = true.
Proof.
  induction ps as [|p ps IH]; [reflexivity|].
  intro H. simpl in H. apply andb_prop in H as [Hp Hs].
  destruct (plain_name_inv p Hp) as [_ [_ [Hc _]]].
  change (Git.terminated (p :: ps)) with (p ++ String LF (Git.terminated ps)).
  rewrite no_cr_app, Hc. simpl. now apply IH.
Qed.

Lemma names_one_line (ps : list string) :
  forallb plain_name ps = true -> forallb one_line ps = true.
Proof.
  induction ps as [|p ps IH]; simpl; [reflexivity|].
  intro H. apply andb_prop in H as [Hp Hs].
  destruct (plain_name_inv p Hp) as [_ [Hl _]]. now rewrite Hl, (IH Hs).
Qed.

Lemma filter_truthy_names (ps : list string) :
  forallb plain_name ps = true -> filter truthy ps = ps.
Proof.
  induction ps as [|p ps IH]; simpl; [reflexivity|].
  intro H. apply andb_prop in H as [Hp Hs].
  destruct (plain_name_inv p Hp) as [Ht _]. now rewrite Ht, (IH Hs).
Qed.

(** The names [git] printed are the names [modified_files] holds. *)
Lemma modified_files_names (w : world) (h : string) (ps : list string) :
  forallb plain_name ps = true ->
  stdout (shell w (Git.cmd_files h)) = Git.terminated ps ->
  modified_files w h = ps.
Proof.
  intros H E. unfold modified_files, output. rewrite E.
  rewrite (universal_newlines_id _ (no_cr_names ps H)).
  unfold strip. rewrite lstrip_clean.
  - rewrite (rstrip_names ps H). destruct ps as [|p ps]; [reflexivity|].
    rewrite (split_separated p ps (names_one_line _ H)).
    now apply filter_truthy_names.
  - destruct ps as [|p ps]; [reflexivity|].
    simpl in H. apply andb_prop in H as [Hp _].
    destruct (plain_name_inv p Hp) as [Ht [_ [_ [Hs _]]]].
    change (Git.terminated (p :: ps))
      with (p ++ String LF (Git.terminated ps)).
    now rewrite starts_clean_app.
Qed.

(** X12: when the queries of [get_commit_details] succeed and [git]
    lists the names of the changed files one per line, none of them with
    white space at either end, the record carries the hash it was given
    and exactly these names, in that order, as [modified_files]; nothing
    is written.  Names with spaces inside are kept whole. *)
Theorem modified_files_read_back (t : tool) (w : world) (h : string)
    (ps : list string) (st : streams) :
  forallb plain_name ps = true ->
  stdout (shell w (Git.cmd_files h)) = Git.terminated ps ->
  forallb (ok w) (detail_queries t h) = true ->
  exists d,
    commit_details t w h st = (Ok d, st)
    /\ field "hash" d = Some (JStr h)
    /\ field "modified_files" d = Some (JList (map JStr ps)).
Proof.
  intros H E Hok. pose proof (modified_files_names w h ps H E) as F.
  destruct t; simpl in Hok |- *.
  - exists (CommitsReport.record w h).
    split; [now apply commit_details_eq|].
    split; [reflexivity|]. simpl. now rewrite F.
  - exists (PatchsetsReport.record w h).
    split; [now apply patchset_commit_details_eq|].
    split; [reflexivity|]. simpl. now rewrite F.
Qed.

Lemma modified_files_read_back_witness :
  exists d,
    Patchsets.get_commit_details (Example.in_kernel "v1.0" "master")
      "40f2a7e5b004" fresh = (Ok d, fresh)
    /\ field "hash" d = Some (JStr "40f2a7e5b004")
    /\ field "modified_files" d
       = Some (JList (map JStr ["kernel/bpf/helpers.c";
                                "kernel/bpf/verifier.c"])).
Proof.
  apply (modified_files_read_back PatchsetReporter
           (Example.in_kernel "v1.0" "master") "40f2a7e5b004"
           ["kernel/bpf/helpers.c"; "kernel/bpf/verifier.c"] fresh);
    reflexivity.
Defined.

(* ================================================================== *)
(** * A listing that fails *)
(* ================================================================== *)

Lemma fails_after {A B} (m : M A) (k : A -> M B) (a : A)
    (o e : list string) (c : Z) (st st' : streams) :
  yields m a o e ->
  k a (mkStreams (sys_stdout st ++ o) (sys_stderr st ++ e))%list
  = (SystemExit c, st') ->
  bind m k st = (SystemExit c, st').
Proof. intros Hm Hk. unfold bind. now rewrite Hm. Qed.

(** X13: when [.git] exists and both references resolve but the listing
    command fails (as it does when [start_ref] has no parent, so that
    [start_ref^] names nothing), the run has already written its progress
    line; it adds the two lines of the command failure, exits with
    status 1 and prints nothing. *)
Theorem failed_listing (t : tool) (w : world) (start_ref end_ref : string) :
  preconditions w start_ref end_ref = true ->
  ok w (match t with
        | CommitHistoryReporter => CommitsReport.listing start_ref end_ref
        | PatchsetReporter => PatchsetsReport.listing start_ref end_ref
        end) = false ->
  Run t w start_ref end_ref fresh
  = (SystemExit 1,
     mkStreams []
       (progress t start_ref end_ref
        :: command_failure w
             (match t with
              | CommitHistoryReporter =>
                  CommitsReport.listing start_ref end_ref
              | PatchsetReporter =>
                  PatchsetsReport.listing start_ref end_ref
              end))).
Proof.
  intros H Hf. unfold preconditions in H.
  apply andb_prop in H as [H H2]. apply andb_prop in H as [Hg H1].
  destruct t; unfold Run, Commits.main_body, Patchsets.main_body; cbv zeta.
  - eapply fails_after; [now apply yields_git_check|].
    eapply fails_after;
      [apply (yields_validate w CommitHistoryReporter); now rewrite H1, H2|].
    eapply fails_after; [apply yields_eprint|].
    unfold bind at 1.
    change (Commits.get_commits_between_refs w start_ref end_ref
              "kernel/bpf/verifier.c")
      with (hash_call w (commits_between_refs start_ref end_ref
                           "kernel/bpf/verifier.c")).
    rewrite hash_call_eq.
    change (hash_command (commits_between_refs start_ref end_ref
                            "kernel/bpf/verifier.c"))
      with (CommitsReport.listing start_ref end_ref).
    rewrite Hf. reflexivity.
  - eapply fails_after; [now apply yields_git_check|].
    eapply fails_after;
      [apply (yields_validate w PatchsetReporter); now rewrite H1, H2|].
    eapply fails_after; [apply yields_eprint|].
    unfold bind at 1.
    change (Patchsets.get_merge_commits w start_ref end_ref)
      with (hash_call w (merge_commits start_ref end_ref)).
    rewrite hash_call_eq.
    change (hash_command (merge_commits start_ref end_ref))
      with (PatchsetsReport.listing start_ref end_ref).
    rewrite Hf. reflexivity.
Qed.

Lemma failed_listing_witness :
  Run CommitHistoryReporter (Example.in_kernel "10c1a7e5b001" "master")
    "10c1a7e5b001" "master" fresh
  = (SystemExit 1,
     mkStreams []
       [ "Analyzing commits between 10c1a7e5b001 and master (inclusive) that modified kernel/bpf/verifier.c";
         "Error executing command: git log 10c1a7e5b001^..master --no-merges --pretty=format:'%H' -- kernel/bpf/verifier.c";
         "Error details: fatal: bad revision" ]).
Proof.
  apply (failed_listing CommitHistoryReporter
           (Example.in_kernel "10c1a7e5b001" "master")
           "10c1a7e5b001" "master");
    reflexivity.
Defined.

(* ================================================================== *)
(** * The shape of a report *)
(* ================================================================== *)

(** X14: every report has the keys [metadata] and then [commits] (or
    [patchsets]); [metadata] holds the target file, the two references
    exactly as they were given on the command line (not resolved to
    hashes) and, last, the count; every Commit Record and every patchset
    has the keys of its kind, in the order of the dict literal that
    builds it. *)
Theorem report_schema (t : tool) (w : world) (start_ref end_ref : string)
    (st : streams) :
  Run t w start_ref end_ref fresh = (Ok tt, st) ->
  exists j md,
    report t w start_ref end_ref = Some j
    /\ sys_stdout st = [json_dumps j]
    /\ keys j = ["metadata"; items_key t]
    /\ field "metadata" j = Some md
    /\ keys md = ["target_file"; "start_ref"; "end_ref"; count_key t]
    /\ field "target_file" md = Some (JStr "kernel/bpf/verifier.c")
    /\ field "start_ref" md = Some (JStr start_ref)
    /\ field "end_ref" md = Some (JStr end_ref)
    /\ Forall (fun c => keys c = record_schema t) (commit_records t j)
    /\ Forall (fun p => keys p = patchset_schema) (items "patchsets" j).
Proof.
  intro Hrun. destruct (Run_ok w _ _ _ _ Hrun) as [j [Hj Hout]].
  exists j. destruct t.
  - destruct (commits_report_inv w _ _ _ Hj) as [-> _].
    eexists. repeat split; try assumption.
    + unfold commit_records.
      destruct (commits_document_items start_ref end_ref
                  (map (CommitsReport.record w)
                     (lines w (CommitsReport.listing start_ref end_ref))))
        as [-> _].
      apply Forall_map, Forall_forall. intros h _. reflexivity.
    + destruct (commits_document_items start_ref end_ref
                  (map (CommitsReport.record w)
                     (lines w (CommitsReport.listing start_ref end_ref))))
        as [_ ->].
      constructor.
  - pose proof (patchsets_report_inv w _ _ _ Hj) as ->.
    eexists. repeat split; try assumption.
    + unfold commit_records. rewrite patchsets_document_items.
      apply Forall_flat_map, Forall_map, Forall_forall.
      intros m _. rewrite patchset_commits.
      apply Forall_map, Forall_forall. intros h _. reflexivity.
    + rewrite patchsets_document_items.
      apply Forall_map, Forall_forall. intros m _. reflexivity.
Qed.

Lemma report_schema_witness :
  exists j md,
    report PatchsetReporter (Example.in_kernel "v1.0" "master")
      "v1.0" "master" = Some j
    /\ sys_stdout (snd (Example.kernel_run PatchsetReporter)) = [json_dumps j]
    /\ keys j = ["metadata"; "patchsets"]
    /\ field "metadata" j = Some md
    /\ keys md = ["target_file"; "start_ref"; "end_ref"; "patchset_count"]
    /\ field "target_file" md = Some (JStr "kernel/bpf/verifier.c")
    /\ field "start_ref" md = Some (JStr "v1.0")
    /\ field "end_ref" md = Some (JStr "master")
    /\ Forall (fun c => keys c = record_schema PatchsetReporter)
         (commit_records PatchsetReporter j)
    /\ Forall (fun p => keys p = patchset_schema) (items "patchsets" j).
Proof.
  apply (report_schema PatchsetReporter
           (Example.in_kernel "v1.0" "master") "v1.0" "master").
  vm_compute. reflexivity.
Defined.

(* ================================================================== *)
(** * The characters of a document *)
(* ================================================================== *)

(** Induction on a JSON value, through its lists and dicts. *)
Lemma json_induction (P : json -> Prop) :
  (forall s, P (JStr s)) ->
  (forall n, P (JInt n)) ->
  (forall l, Forall P l -> P (JList l)) ->
  (forall kv, Forall (fun p => P (snd p)) kv -> P (JDict kv)) ->
  forall j, P j.
Proof.
  intros Hs Hi Hl Hd. fix IH 1. intros [s|n|l|kv].
  - apply Hs.
  - apply Hi.
  - apply Hl.
    exact ((fix go (l : list json) : Forall P l :=
              match l with
              | [] => Forall_nil P
              | x :: l' => Forall_cons x (IH x) (go l')
              end) l).
  - apply Hd.
    exact ((fix go (kv : list (string * json))
              : Forall (fun p => P (snd p)) kv :=
              match kv with
              | [] => Forall_nil _
              | p :: kv' => Forall_cons p (IH (snd p)) (go kv')
              end) kv).
Qed.

Lemma plain_ascii_app (s t : string) :
  plain_ascii (s ++ t) = plain_ascii s && plain_ascii t.
Proof.
  induction s as [|a s IH]; simpl; [reflexivity|].
  now rewrite IH, andb_assoc.
Qed.

Lemma plain_escape_char (a : ascii) : plain_ascii (escape_char a) = true.
Proof. destruct a as [[] [] [] [] [] [] [] []]; reflexivity. Qed.

Lemma plain_escape (s : string) : plain_ascii (escape s) = true.
Proof.
  induction s as [|a s IH]; simpl; [reflexivity|].
  now rewrite plain_ascii_app, plain_escape_char, IH.
Qed.

Lemma plain_encode_str (s : string) : plain_ascii (encode_str s) = true.
Proof.
  unfold encode_str. now rewrite !plain_ascii_app, plain_escape.
Qed.

Lemma plain_spaces (n : nat) : plain_ascii (spaces n) = true.
Proof. induction n as [|n IH]; simpl; [reflexivity|exact IH]. Qed.

Lemma plain_newline_indent (n : nat) : plain_ascii (newline_indent n) = true.
Proof. unfold newline_indent. simpl. apply plain_spaces. Qed.

Lemma plain_join (sep : string) (l : list string) :
  plain_ascii sep = true -> Forall (fun s => plain_ascii s = true) l ->
  plain_ascii (join sep l) = true.
Proof.
  intros Hsep H. induction H as [|x l Hx Hl IH]; [reflexivity|].
  destruct l as [|y l]; [exact Hx|].
  change (join sep (x :: y :: l)) with (x ++ sep ++ join sep (y :: l)).
  now rewrite !plain_ascii_app, Hx, Hsep, IH.
Qed.

Lemma plain_uint (d : Decimal.uint) :
  plain_ascii (NilEmpty.string_of_uint d) = true.
Proof. induction d; simpl; try reflexivity; exact IHd. Qed.

Lemma plain_int (n : Z) :
  plain_ascii (NilZero.string_of_int (Z.to_int n)) = true.
Proof.
  unfold NilZero.string_of_int.
  destruct (Z.to_int n) as [d|d]; unfold NilZero.string_of_uint;
    destruct d; try reflexivity;
    change (plain_ascii (NilEmpty.string_of_uint d) = true);
    apply plain_uint.
Qed.

Lemma plain_dumps (j : json) :
  forall level, plain_ascii (dumps_at level j) = true.
Proof.
  induction j as [s|n|l IH|kv IH] using json_induction; intro level.
  - apply plain_encode_str.
  - apply plain_int.
  - destruct l as [|x l]; [reflexivity|].
    change (dumps_at level (JList (x :: l)))
      with ("[" ++ newline_indent (S level)
            ++ join ("," ++ newline_indent (S level))
                 (map (dumps_at (S level)) (x :: l))
            ++ newline_indent level ++ "]").
    rewrite !plain_ascii_app, !plain_newline_indent, plain_join;
      [reflexivity|simpl; apply plain_spaces|].
    apply Forall_map. revert IH. apply Forall_impl. intros a Ha. apply Ha.
  - destruct kv as [|p kv]; [reflexivity|].
    change (dumps_at level (JDict (p :: kv)))
      with ("{" ++ newline_indent (S level)
            ++ join ("," ++ newline_indent (S level))
                 (map (fun p => match p with
                                | (k, v) =>
                                    encode_str k ++ ": " ++ dumps_at (S level) v
                                end) (p :: kv))
            ++ newline_indent level ++ "}").
    rewrite !plain_ascii_app, !plain_newline_indent, plain_join;
      [reflexivity|simpl; apply plain_spaces|].
    apply Forall_map. revert IH. apply Forall_impl. intros [k v] Hv.
    simpl in Hv. now rewrite !plain_ascii_app, plain_encode_str, Hv.
Qed.

(** X15: whatever [git] printed, everything a run of either tool writes
    to standard output is made of newlines and printable ASCII
    characters: [json.dumps] escapes every other character of a string
    field. *)
Theorem stdout_is_plain_ascii (t : tool) (w : world)
    (start_ref end_ref : string) :
  Forall (fun s => plain_ascii s = true)
    (sys_stdout (snd (Run t w start_ref end_ref fresh))).
Proof.
  destruct (Run_emits w t start_ref end_ref fresh) as [extra [_ E]].
  destruct (report t w start_ref end_ref) as [j|].
  - rewrite E. simpl. repeat constructor. apply plain_dumps.
  - destruct E as [_ E]. rewrite E. constructor.
Qed.

(* ================================================================== *)
(** * A range taken backwards *)
(* ================================================================== *)

Lemma walk_app (pre l : list Git.commit) (want : list string) :
  Git.walk (pre ++ l) want
  = (Git.walk pre want ++ Git.walk l (wanted pre want))%list.
Proof.
  revert want. induction pre as [|y pre IH]; intro want; [reflexivity|].
  cbn [app Git.walk wanted].
  destruct (Git.mem (Git.c_hash y) want); [|apply IH].
  cbn [app]. now rewrite IH.
Qed.

Lemma wanted_skip (pre : list Git.commit) (want : list string) :
  (forall x, In x pre -> ~ In (Git.c_hash x) want) ->
  wanted pre want = want.
Proof.
  induction pre as [|y pre IH]; intro H; cbn [wanted]; [reflexivity|].
  assert (E : Git.mem (Git.c_hash y) want = false)
    by (apply mem_not_In, H; now left).
  rewrite E. apply IH. intros x Hx. apply H. now right.
Qed.

Lemma walk_none (pre : list Git.commit) (want : list string) :
  (forall x, In x pre -> ~ In (Git.c_hash x) want) ->
  Git.walk pre want = [].
Proof.
  intro H. rewrite <- (app_nil_r pre). now rewrite walk_skip.
Qed.

(** Asking for more gives more. *)
Lemma walk_mono (hist : list Git.commit) (want want' : list string)
    (c : Git.commit) :
  incl want want' -> In c (Git.walk hist want) -> In c (Git.walk hist want').
Proof.
  revert want want'. induction hist as [|y hist IH]; intros want want' I;
    cbn [Git.walk]; [easy|].
  destruct (Git.mem (Git.c_hash y) want) eqn:E.
  - apply mem_In in E. apply I in E. apply mem_In in E. rewrite E.
    intros [H|H]; [now left|right].
    apply (IH (Git.c_parents y ++ want)%list); [|exact H].
    now apply incl_app_app; [apply incl_refl|].
  - intro H. destruct (Git.mem (Git.c_hash y) want').
    + right. apply (IH want); [|exact H]. now apply incl_appr.
    + now apply (IH want).
Qed.

(** Everything reachable from a commit that is reachable from [p] is
    reachable from [p]. *)
Lemma walk_trans (hist : list Git.commit) (p : string) (ce c : Git.commit) :
  Git.ordered [] hist = true ->
  In ce (Git.walk hist [p]) ->
  In c (Git.walk hist [Git.c_hash ce]) ->
  In c (Git.walk hist [p]).
Proof.
  intros O He Hc.
  pose proof (walk_incl _ _ _ He) as Hin.
  apply in_split in Hin as [pre [post ->]].
  pose proof (ordered_app _ _ _ O) as O'. cbn [Git.ordered] in O'.
  apply andb_prop in O' as [O1 O3]. apply andb_prop in O1 as [O1 _].
  apply negb_true_iff, mem_not_In in O1.
  assert (Npre : forall x, In x pre -> ~ In (Git.c_hash x) [Git.c_hash ce]).
  { intros x Hx [E|[]]. apply O1. apply in_or_app. left. apply -> in_rev.
    apply in_map_iff. exists x. now split. }
  assert (Npost : forall x, In x post -> Git.c_hash x <> Git.c_hash ce).
  { intros x Hx E. apply (ordered_fresh _ _ _ O3 Hx). now left. }
  rewrite walk_app in He, Hc |- *.
  rewrite (walk_none pre _ Npre), (wanted_skip pre _ Npre) in Hc.
  cbn [app] in Hc.
  assert (Eq : Git.mem (Git.c_hash ce) [Git.c_hash ce] = true)
    by (apply mem_In; now left).
  cbn [Git.walk] in Hc. rewrite Eq in Hc.
  assert (W : Git.mem (Git.c_hash ce) (wanted pre [p]) = true).
  { destruct (Git.mem (Git.c_hash ce) (wanted pre [p])) eqn:M; [reflexivity|].
    exfalso. apply in_app_or in He as [He|He].
    - apply walk_incl in He. apply (Npre ce He). now left.
    - cbn [Git.walk] in He. rewrite M in He. apply walk_incl in He.
      now apply (Npost ce He). }
  apply in_or_app. right. cbn [Git.walk]. rewrite W.
  destruct Hc as [Hc|Hc]; [now left|right].
  apply (walk_mono post (Git.c_parents ce ++ [Git.c_hash ce])%list);
    [|exact Hc].
  apply incl_app_app; [apply incl_refl|].
  intros x [<-|[]]. now apply mem_In.
Qed.

Lemma filter_nil {A} (f : A -> bool) (l : list A) :
  (forall x, In x l -> f x = false) -> filter f l = [].
Proof.
  induction l as [|x l IH]; intro H; simpl; [reflexivity|].
  rewrite (H x) by now left. apply IH. intros y Hy. apply H. now right.
Qed.

(** The range from a commit back to one of its ancestors is empty. *)
Lemma backwards_range (R : Git.repository) (start_ref end_ref p : string)
    (c ce : Git.commit) (rest : list string) :
  Git.wf R = true ->
  Git.commit_at R start_ref = Some c ->
  Git.c_parents c = p :: rest ->
  Git.commit_at R end_ref = Some ce ->
  Git.mem (Git.c_hash ce) (map Git.c_hash (Git.reachable R [p])) = true ->
  Git.caret_range R start_ref end_ref = Some [].
Proof.
  intros W Hs Hp He Ha. unfold Git.caret_range. rewrite Hs, He, Hp.
  f_equal. unfold Git.range, Git.reachable in *.
  pose proof W as W'. unfold Git.wf in W'. apply andb_prop in W' as [O _].
  apply mem_In, in_map_iff in Ha as [x [E Hx]].
  assert (x = ce) as ->.
  { apply (hash_unique (Git.history R)); try assumption.
    - now apply walk_incl in Hx.
    - now apply commit_at_In in He. }
  apply filter_nil. intros y Hy. apply negb_false_iff, mem_In.
  apply in_map. now apply (walk_trans _ p ce).
Qed.

(** X16: when [end_ref] names the first parent of the commit at
    [start_ref] or an ancestor of that parent (the two references given
    backwards), the range [start_ref^..end_ref] is empty: either tool
    ends normally, writes its progress line only, and prints a report
    with count 0 and an empty array. *)
Theorem backwards_range_is_empty (t : tool) (w : world) (R : Git.repository)
    (start_ref end_ref p : string) (c ce : Git.commit) (rest : list string) :
  Git.wf R = true ->
  Git.commit_at R start_ref = Some c ->
  Git.c_parents c = p :: rest ->
  Git.commit_at R end_ref = Some ce ->
  Git.mem (Git.c_hash ce) (map Git.c_hash (Git.reachable R [p])) = true ->
  preconditions w start_ref end_ref = true ->
  shell w (listing_command t start_ref end_ref)
  = listing_answer t R start_ref end_ref ->
  exists j md,
    Run t w start_ref end_ref fresh
    = (Ok tt, mkStreams [json_dumps j] [progress t start_ref end_ref])
    /\ field "metadata" j = Some md
    /\ field (count_key t) md = Some (JInt 0)
    /\ field (items_key t) j = Some (JList []).
Proof.
  intros W Hs Hp He Ha Hpre E.
  pose proof (backwards_range R _ _ p c ce rest W Hs Hp He Ha) as C.
  assert (A : shell w (listing_command t start_ref end_ref)
              = Git.success EmptyString).
  { rewrite E. destruct t; simpl;
      unfold Git.log_no_merges_path, Git.log_merges; now rewrite C. }
  assert (L : lines w (listing_command t start_ref end_ref) = []).
  { apply lines_terminated; [reflexivity|]. now rewrite A. }
  assert (O : ok w (listing_command t start_ref end_ref) = true).
  { unfold ok. now rewrite A. }
  destruct t; simpl in L, O.
  - assert (Cm : CommitsReport.complete w start_ref end_ref = true).
    { unfold CommitsReport.complete. now rewrite Hpre, O, L. }
    pose proof (commits_main_yields w _ _ Cm fresh) as Y.
    rewrite L in Y. eexists. eexists. split; [exact Y|]. now repeat split.
  - assert (Cm : PatchsetsReport.complete w start_ref end_ref = true).
    { unfold PatchsetsReport.complete. now rewrite Hpre, O, L. }
    pose proof (patchsets_main_yields w _ _ Cm fresh) as Y.
    unfold diagnostics in Y. rewrite L in Y.
    eexists. eexists. split; [exact Y|]. now repeat split.
Qed.

Lemma backwards_range_is_empty_witness :
  exists j md,
    Run PatchsetReporter (Example.in_kernel "master" "v1.0")
      "master" "v1.0" fresh
    = (Ok tt, mkStreams [json_dumps j]
                [progress PatchsetReporter "master" "v1.0"])
    /\ field "metadata" j = Some md
    /\ field "patchset_count" md = Some (JInt 0)
    /\ field "patchsets" j = Some (JList []).
Proof.
  apply (backwards_range_is_empty PatchsetReporter
           (Example.in_kernel "master" "v1.0") Example.kernel
           "master" "v1.0" (Git.c_hash Example.md) Example.c9 Example.c2 []);
    reflexivity.
Defined.

(* ================================================================== *)
(** * Before the body of [main]: the argument parser *)
(* ================================================================== *)

(** With two arguments that do not start with a dash, an execution is
    the run on these two references. *)
Lemma execute_two_references (t : tool) (c : Argparse.console) (w : world)
    (start_ref end_ref : string) :
  Argparse.dashed start_ref = false -> Argparse.dashed end_ref = false ->
  exists m, execute t c w [start_ref; end_ref] = Some m
            /\ forall st, m st = Run t w start_ref end_ref st.
Proof.
  intros Hs He.
  assert (Hh : forall a, Argparse.dashed a = false -> Argparse.is_help a = false).
  { intros a Ha. unfold Argparse.is_help.
    destruct (String.eqb a "-h") eqn:E1;
      [apply String.eqb_eq in E1; subst a; discriminate Ha|].
    destruct (String.eqb a "--help") eqn:E2;
      [apply String.eqb_eq in E2; subst a; discriminate Ha|reflexivity]. }
  destruct t; unfold execute, Commits.main, Patchsets.main,
    Argparse.parse_args; cbn [forallb existsb];
    rewrite Hs, He, (Hh _ Hs), (Hh _ He); cbn [negb orb andb option_map];
    eexists; (split; [reflexivity|]); intro st; reflexivity.
Qed.

(** A document never starts with the letter [u]. *)
Lemma json_dumps_first (r : json) (rest : string) :
  json_dumps r <> String "u" rest.
Proof.
  unfold json_dumps. destruct r as [s|n|l|kv]; cbn [dumps_at].
  - unfold encode_str, quote. simpl. discriminate.
  - unfold NilZero.string_of_int.
    destruct (Z.to_int n) as [d|d]; [|simpl; discriminate].
    unfold NilZero.string_of_uint. destruct d; simpl; discriminate.
  - destruct l; simpl; discriminate.
  - destruct kv; simpl; discriminate.
Qed.

(** The claim C8 as it is stated fails before the body of [main] is
    reached: with [-h] the parser prints its help message, which is no
    JSON document, on standard output and exits with status 0; with one
    argument it exits with status 2. *)
Lemma help_goes_to_stdout :
  (exists m,
     execute CommitHistoryReporter Example.commits_py
       (Example.in_kernel "v1.0" "master") ["-h"] = Some m
     /\ m fresh
        = (SystemExit 0,
           mkStreams [Argparse.format_help Example.commits_py] [])
     /\ forall r, Argparse.format_help Example.commits_py <> json_dumps r)
  /\ (exists m,
        execute CommitHistoryReporter Example.commits_py
          (Example.in_kernel "v1.0" "master") ["v1.0"] = Some m
        /\ m fresh
           = (SystemExit 2,
              mkStreams []
                [ "usage: commits.py [-h] start_ref end_ref";
                  "commits.py: error: the following arguments are required: end_ref" ]))
  /\ ~ stdout_discipline CommitHistoryReporter Example.commits_py
         (Example.in_kernel "v1.0" "master") ["-h"].
Proof.
  split; [|split].
  - eexists. split; [reflexivity|]. split; [reflexivity|].
    intros r E. symmetry in E. exact (json_dumps_first r _ E).
  - eexists. split; reflexivity.
  - intro H. destruct (H _ eq_refl) as [[E _]|[E _]]; discriminate E.
Qed.

(* ================================================================== *)
(** * A first commit as [start_ref] *)
(* ================================================================== *)

(** The claim C3 as it is stated fails: in the scratch history, from the
    first commit to itself, both preconditions hold and the one commit
    in between does not touch the file, but [git] finds no parent to
    start from and the run exits with status 1. *)
Lemma root_start_ref_fails :
  Git.wf Example.scratch = true
  /\ preconditions (Example.in_scratch "00aaa7e5b0a0" "00aaa7e5b0a0")
       "00aaa7e5b0a0" "00aaa7e5b0a0" = true
  /\ inclusive_range Example.scratch "00aaa7e5b0a0" "00aaa7e5b0a0"
     = Some [Example.s0]
  /\ shell (Example.in_scratch "00aaa7e5b0a0" "00aaa7e5b0a0")
       (CommitsReport.listing "00aaa7e5b0a0" "00aaa7e5b0a0")
     = Git.log_no_merges_path Example.scratch "00aaa7e5b0a0" "00aaa7e5b0a0"
         target_file
  /\ Run CommitHistoryReporter
       (Example.in_scratch "00aaa7e5b0a0" "00aaa7e5b0a0")
       "00aaa7e5b0a0" "00aaa7e5b0a0" fresh
     = (SystemExit 1,
        mkStreams []
          (progress CommitHistoryReporter "00aaa7e5b0a0" "00aaa7e5b0a0"
           :: command_failure
                (Example.in_scratch "00aaa7e5b0a0" "00aaa7e5b0a0")
                (CommitsReport.listing "00aaa7e5b0a0" "00aaa7e5b0a0")))
  /\ ~ empty_range_reported
         (Example.in_scratch "00aaa7e5b0a0" "00aaa7e5b0a0")
         Example.scratch "00aaa7e5b0a0" "00aaa7e5b0a0".
Proof.
  split; [reflexivity|]. split; [reflexivity|]. split; [reflexivity|].
  split; [reflexivity|]. split; [reflexivity|].
  intro H.
  destruct (H [Example.s0]) as [j [md [err [Hrun _]]]];
    try (vm_compute; reflexivity).
  vm_compute in Hrun. discriminate Hrun.
Qed.
